(** * Verification of the jhafranco/Crypto Python sources

    A shallow embedding of [AES/AES.py], [AES/AES_CFB.py], [AES/AES_GCM.py]
    and [RC4/RC4.py].  Python integers are [Z]; byte strings, lists of
    integers and text strings are [list Z] (bytes and code points); a call
    that can raise returns an [outcome].  The definitions come first, one
    module per source file; the lemmas and theorems follow. *)

From Stdlib Require Import ZArith List Lia Bool String Permutation Btauto.
Import ListNotations.
Open Scope Z_scope.

(** ** Python run-time behaviour shared by the four source files *)
Module Py.

(** The exceptions the modelled code can raise.  [SystemExit] carries the
    message the source prints before calling [sys.exit]. *)
Inductive exn : Set :=
| IndexError
| ValueError
| TypeError
| ZeroDivisionError
| StopIteration
| AssertionError
| OverflowError
| SystemExit (printed : string).

(** Result of running a piece of Python: a value, an exception, or a loop
    that never ends ([while number:] on a negative integer). *)
Inductive outcome (A : Type) : Type :=
| Ok (a : A)
| Raise (e : exn)
| Diverge.
Arguments Ok {A} a.
Arguments Raise {A} e.
Arguments Diverge {A}.

Definition bind {A B} (m : outcome A) (k : A -> outcome B) : outcome B :=
  match m with
  | Ok a => k a
  | Raise e => Raise e
  | Diverge => Diverge
  end.

Notation "x <- m ;; k" := (bind m (fun x => k))
  (at level 61, m at next level, right associativity).
Notation "' p <- m ;; k" := (bind m (fun x => match x with p => k end))
  (at level 61, p pattern, m at next level, right associativity).

Fixpoint mapM {A B} (f : A -> outcome B) (l : list A) : outcome (list B) :=
  match l with
  | [] => Ok []
  | a :: r => b <- f a ;; bs <- mapM f r ;; Ok (b :: bs)
  end.

(** A [for] loop over [l] threading the loop variables [s]. *)
Fixpoint foldM {A S} (f : S -> A -> outcome S) (l : list A) (s : S) : outcome S :=
  match l with
  | [] => Ok s
  | a :: r => s' <- f s a ;; foldM f r s'
  end.

Definition len {A} (l : list A) : Z := Z.of_nat (List.length l).

(** [range(start, stop, step)] for a positive step. *)
Definition range (start stop step : Z) : list Z :=
  map (fun k => start + step * Z.of_nat k)
      (seq 0 (Z.to_nat ((stop - start + step - 1) / step))).

(** [l[i]]: negative indices count from the end, anything else outside the
    list raises IndexError. *)
Definition getitem {A} (l : list A) (i : Z) : outcome A :=
  let k := if i <? 0 then i + len l else i in
  if k <? 0 then Raise IndexError
  else match nth_error l (Z.to_nat k) with
       | Some a => Ok a
       | None => Raise IndexError
       end.

Fixpoint update {A} (l : list A) (k : nat) (v : A) : list A :=
  match l, k with
  | [], _ => []
  | _ :: r, O => v :: r
  | a :: r, S k' => a :: update r k' v
  end.

(** [l[i] = v]. *)
Definition setitem {A} (l : list A) (i : Z) (v : A) : outcome (list A) :=
  let k := if i <? 0 then i + len l else i in
  if (k <? 0) || (len l <=? k) then Raise IndexError
  else Ok (update l (Z.to_nat k) v).

(** Slice bounds are clamped to the list, never raising. *)
Definition clamp (n i : Z) : Z :=
  if i <? 0 then Z.max 0 (i + n) else Z.min i n.

(** [l[start:stop]] with either bound possibly omitted. *)
Definition slice {A} (l : list A) (start stop : option Z) : list A :=
  let n := len l in
  let a := match start with Some i => clamp n i | None => 0 end in
  let b := match stop with Some i => clamp n i | None => n end in
  firstn (Z.to_nat (b - a)) (skipn (Z.to_nat a) l).

Definition is_byte (b : Z) : bool := (0 <=? b) && (b <? 256).

(** [bytes(n)] for an integer [n]: [n] zero bytes. *)
Definition bytes_n (n : Z) : outcome (list Z) :=
  if n <? 0 then Raise ValueError else Ok (repeat 0 (Z.to_nat n)).

(** [bytes(iterable)]: every element must be in range(256). *)
Definition bytes_of (l : list Z) : outcome (list Z) :=
  if forallb is_byte l then Ok l else Raise ValueError.

(** [chr(e)]; a text string is the list of its code points.  An argument
    outside range(0x110000) raises ValueError when it fits a C int and
    OverflowError when it does not. *)
Definition chr (e : Z) : outcome Z :=
  if (0 <=? e) && (e <? 0x110000) then Ok e
  else if (- 0x80000000 <=? e) && (e <? 0x80000000) then Raise ValueError
  else Raise OverflowError.

(** [reduce(lambda x,y:(x<<8)+y, lst)], without initial value. *)
Definition listToInt (lst : list Z) : outcome Z :=
  match lst with
  | [] => Raise TypeError
  | x :: r => Ok (fold_left (fun x y => Z.shiftl x 8 + y) r x)
  end.

(** The loop
<<
    lst = []
    while number:
        lst.append(number&0xff)
        number >>= 8
>>
    The fuel bounds the number of iterations; [byte_loop_unfold] shows it is
    never exhausted for a non-negative number.  A negative number stays
    negative under [>>=], so the source loop does not end. *)
Fixpoint byte_loop_aux (fuel : nat) (number : Z) : list Z :=
  match fuel with
  | O => []
  | S f => if number =? 0 then []
           else Z.land number 0xff :: byte_loop_aux f (Z.shiftr number 8)
  end.

Definition byte_loop (number : Z) : outcome (list Z) :=
  if number <? 0 then Diverge
  else Ok (byte_loop_aux (S (Z.to_nat (Z.log2 number))) number).

(** The dynamically typed arguments and results of [encrypt]/[decrypt] and
    of the CFB functions: an integer, a text string, a byte string or a
    list of integers. *)
Inductive pyval : Type :=
| PyInt (n : Z)
| PyStr (s : list Z)
| PyBytes (b : list Z)
| PyList (l : list Z).

(** [map(ord, input)] / [[ord(s) for s in data]]: [ord] accepts the
    characters of a text string and raises TypeError on an integer. *)
Definition ords (input : pyval) : outcome (list Z) :=
  match input with
  | PyStr s => Ok s
  | PyBytes [] | PyList [] => Ok []
  | _ => Raise TypeError
  end.

(** The integers of a list or of a byte string, where the code goes on to
    do integer arithmetic on the elements. *)
Definition int_seq (v : pyval) : outcome (list Z) :=
  match v with
  | PyList l | PyBytes l => Ok l
  | PyStr _ | PyInt _ => Raise TypeError
  end.

Definition is_int (v : pyval) : bool :=
  match v with PyInt _ => true | _ => false end.

(** [bytes(v)]. *)
Definition bytes_from (v : pyval) : outcome (list Z) :=
  match v with
  | PyInt n => bytes_n n
  | PyList l | PyBytes l => bytes_of l
  | PyStr _ => Raise TypeError
  end.

End Py.

(** ** AES/AES.py *)
Module AES.
Import Py.

(** [mult(p1,p2)]: the [while p2:] loop, with fuel (see [mult_loop_fuel]).
    A negative [p2] never reaches zero under [>>=]. *)
Fixpoint mult_loop (fuel : nat) (p p1 p2 : Z) : Z :=
  match fuel with
  | O => p
  | S f =>
      if p2 =? 0 then p
      else
        let p := if Z.land p2 0x01 =? 0 then p else Z.lxor p p1 in
        let p1 := Z.shiftl p1 1 in
        let p1 := if Z.land p1 0x100 =? 0 then p1 else Z.lxor p1 0x1b in
        mult_loop f p p1 (Z.shiftr p2 1)
  end.

Definition mult (p1 p2 : Z) : outcome Z :=
  if p2 <? 0 then Diverge
  else Ok (Z.land (mult_loop (S (Z.to_nat (Z.log2 p2))) 0 p1 p2) 0xff).

(** The memoised one-argument multipliers. *)
Definition x2 (y : Z) := mult 2 y.
Definition x3 (y : Z) := mult 3 y.
Definition x9 (y : Z) := mult 9 y.
Definition x11 (y : Z) := mult 11 y.
Definition x13 (y : Z) := mult 13 y.
Definition x14 (y : Z) := mult 14 y.

(** The keys of [keySizeTable], [cipherModeTable] and [paddingTable]; the
    membership assertions of [__init__] and [setKey] hold by typing. *)
Inductive keysize : Set := SIZE_128 | SIZE_192 | SIZE_256.
Inductive mode : Set := MODE_ECB | MODE_CBC.
Inductive padding_scheme : Set := NoPadding | PKCS5Padding.

Definition keySizeTable (k : keysize) : Z :=
  match k with SIZE_128 => 16 | SIZE_192 => 24 | SIZE_256 => 32 end.
Definition wordSizeTable (k : keysize) : Z :=
  match k with SIZE_128 => 44 | SIZE_192 => 52 | SIZE_256 => 60 end.
Definition numberOfRoundsTable (k : keysize) : Z :=
  match k with SIZE_128 => 10 | SIZE_192 => 12 | SIZE_256 => 14 end.

Definition sBox : list Z :=
  [
   0x63;0x7c;0x77;0x7b;0xf2;0x6b;0x6f;0xc5;
   0x30;0x01;0x67;0x2b;0xfe;0xd7;0xab;0x76;
   0xca;0x82;0xc9;0x7d;0xfa;0x59;0x47;0xf0;
   0xad;0xd4;0xa2;0xaf;0x9c;0xa4;0x72;0xc0;
   0xb7;0xfd;0x93;0x26;0x36;0x3f;0xf7;0xcc;
   0x34;0xa5;0xe5;0xf1;0x71;0xd8;0x31;0x15;
   0x04;0xc7;0x23;0xc3;0x18;0x96;0x05;0x9a;
   0x07;0x12;0x80;0xe2;0xeb;0x27;0xb2;0x75;
   0x09;0x83;0x2c;0x1a;0x1b;0x6e;0x5a;0xa0;
   0x52;0x3b;0xd6;0xb3;0x29;0xe3;0x2f;0x84;
   0x53;0xd1;0x00;0xed;0x20;0xfc;0xb1;0x5b;
   0x6a;0xcb;0xbe;0x39;0x4a;0x4c;0x58;0xcf;
   0xd0;0xef;0xaa;0xfb;0x43;0x4d;0x33;0x85;
   0x45;0xf9;0x02;0x7f;0x50;0x3c;0x9f;0xa8;
   0x51;0xa3;0x40;0x8f;0x92;0x9d;0x38;0xf5;
   0xbc;0xb6;0xda;0x21;0x10;0xff;0xf3;0xd2;
   0xcd;0x0c;0x13;0xec;0x5f;0x97;0x44;0x17;
   0xc4;0xa7;0x7e;0x3d;0x64;0x5d;0x19;0x73;
   0x60;0x81;0x4f;0xdc;0x22;0x2a;0x90;0x88;
   0x46;0xee;0xb8;0x14;0xde;0x5e;0x0b;0xdb;
   0xe0;0x32;0x3a;0x0a;0x49;0x06;0x24;0x5c;
   0xc2;0xd3;0xac;0x62;0x91;0x95;0xe4;0x79;
   0xe7;0xc8;0x37;0x6d;0x8d;0xd5;0x4e;0xa9;
   0x6c;0x56;0xf4;0xea;0x65;0x7a;0xae;0x08;
   0xba;0x78;0x25;0x2e;0x1c;0xa6;0xb4;0xc6;
   0xe8;0xdd;0x74;0x1f;0x4b;0xbd;0x8b;0x8a;
   0x70;0x3e;0xb5;0x66;0x48;0x03;0xf6;0x0e;
   0x61;0x35;0x57;0xb9;0x86;0xc1;0x1d;0x9e;
   0xe1;0xf8;0x98;0x11;0x69;0xd9;0x8e;0x94;
   0x9b;0x1e;0x87;0xe9;0xce;0x55;0x28;0xdf;
   0x8c;0xa1;0x89;0x0d;0xbf;0xe6;0x42;0x68;
   0x41;0x99;0x2d;0x0f;0xb0;0x54;0xbb;0x16  ].

Definition invSBox : list Z :=
  [
   0x52;0x09;0x6a;0xd5;0x30;0x36;0xa5;0x38;
   0xbf;0x40;0xa3;0x9e;0x81;0xf3;0xd7;0xfb;
   0x7c;0xe3;0x39;0x82;0x9b;0x2f;0xff;0x87;
   0x34;0x8e;0x43;0x44;0xc4;0xde;0xe9;0xcb;
   0x54;0x7b;0x94;0x32;0xa6;0xc2;0x23;0x3d;
   0xee;0x4c;0x95;0x0b;0x42;0xfa;0xc3;0x4e;
   0x08;0x2e;0xa1;0x66;0x28;0xd9;0x24;0xb2;
   0x76;0x5b;0xa2;0x49;0x6d;0x8b;0xd1;0x25;
   0x72;0xf8;0xf6;0x64;0x86;0x68;0x98;0x16;
   0xd4;0xa4;0x5c;0xcc;0x5d;0x65;0xb6;0x92;
   0x6c;0x70;0x48;0x50;0xfd;0xed;0xb9;0xda;
   0x5e;0x15;0x46;0x57;0xa7;0x8d;0x9d;0x84;
   0x90;0xd8;0xab;0x00;0x8c;0xbc;0xd3;0x0a;
   0xf7;0xe4;0x58;0x05;0xb8;0xb3;0x45;0x06;
   0xd0;0x2c;0x1e;0x8f;0xca;0x3f;0x0f;0x02;
   0xc1;0xaf;0xbd;0x03;0x01;0x13;0x8a;0x6b;
   0x3a;0x91;0x11;0x41;0x4f;0x67;0xdc;0xea;
   0x97;0xf2;0xcf;0xce;0xf0;0xb4;0xe6;0x73;
   0x96;0xac;0x74;0x22;0xe7;0xad;0x35;0x85;
   0xe2;0xf9;0x37;0xe8;0x1c;0x75;0xdf;0x6e;
   0x47;0xf1;0x1a;0x71;0x1d;0x29;0xc5;0x89;
   0x6f;0xb7;0x62;0x0e;0xaa;0x18;0xbe;0x1b;
   0xfc;0x56;0x3e;0x4b;0xc6;0xd2;0x79;0x20;
   0x9a;0xdb;0xc0;0xfe;0x78;0xcd;0x5a;0xf4;
   0x1f;0xdd;0xa8;0x33;0x88;0x07;0xc7;0x31;
   0xb1;0x12;0x10;0x59;0x27;0x80;0xec;0x5f;
   0x60;0x51;0x7f;0xa9;0x19;0xb5;0x4a;0x0d;
   0x2d;0xe5;0x7a;0x9f;0x93;0xc9;0x9c;0xef;
   0xa0;0xe0;0x3b;0x4d;0xae;0x2a;0xf5;0xb0;
   0xc8;0xeb;0xbb;0x3c;0x83;0x53;0x99;0x61;
   0x17;0x2b;0x04;0x7e;0xba;0x77;0xd6;0x26;
   0xe1;0x69;0x14;0x63;0x55;0x21;0x0c;0x7d  ].

(** The instance variables.  [w] is a class attribute in the source, one
    list shared by every engine; [setKey] overwrites the entries
    [0 .. wordSize-1], the only ones the block functions read, and every
    caller in the repository keys an engine before using it, so the record
    keeps one copy per engine. *)
Record t : Type := mk {
  wordSize : option Z;
  w : list (option Z);
  keyDefined : bool;
  numberOfRounds : option Z;
  cipherMode : mode;
  padding : padding_scheme;
  ivEncrypt : option (list Z);
  ivDecrypt : option (list Z)
}.

(** [AES(mode, padding)]. *)
Definition new (m : mode) (p : padding_scheme) : t :=
  {| wordSize := None; w := repeat None 60; keyDefined := false;
     numberOfRounds := None; cipherMode := m; padding := p;
     ivEncrypt := None; ivDecrypt := None |}.

(** An attribute that is still [None] where an integer is needed. *)
Definition int_attr (a : option Z) : outcome Z :=
  match a with Some n => Ok n | None => Raise TypeError end.

Definition intToList (number : Z) : list Z :=
  map (fun i => Z.land (Z.shiftr number i) 0xff) (rev (range 0 128 8)).

Definition intToList2 (number : Z) : outcome (list Z) :=
  lst <- byte_loop number ;;
  let m := len lst mod 16 in
  if (m =? 0) && negb (len lst =? 0) then Ok (rev lst)
  else z <- bytes_n (16 - m) ;; Ok (z ++ rev lst).

Definition wordToState (wordList : list (option Z)) : outcome (list Z) :=
  mapM (fun '(j, i) =>
          x <- getitem wordList i ;;
          n <- int_attr x ;;
          Ok (Z.land (Z.shiftr n j) 0xff))
       (flat_map (fun j => map (fun i => (j, i)) (range 0 4 1))
                 (rev (range 0 32 8))).

Definition listToState (list_ : list Z) : outcome (list Z) :=
  mapM (fun '(j, i) => getitem list_ (i + j))
       (flat_map (fun j => map (fun i => (j, i)) (range 0 16 4))
                 (range 0 4 1)).

Definition stateToList := listToState.

Definition subBytes (state : list Z) : outcome (list Z) :=
  mapM (getitem sBox) state.

Definition invSubBytes (state : list Z) : outcome (list Z) :=
  mapM (getitem invSBox) state.

Definition shiftRows (s : list Z) : list Z :=
  slice s None (Some 4) ++ slice s (Some 5) (Some 8) ++
  slice s (Some 4) (Some 5) ++ slice s (Some 10) (Some 12) ++
  slice s (Some 8) (Some 10) ++ slice s (Some 15) None ++
  slice s (Some 12) (Some 15).

Definition invShiftRows (s : list Z) : list Z :=
  slice s None (Some 4) ++ slice s (Some 7) (Some 8) ++
  slice s (Some 4) (Some 7) ++ slice s (Some 10) (Some 12) ++
  slice s (Some 8) (Some 10) ++ slice s (Some 13) None ++
  slice s (Some 12) (Some 13).

(** One row of [mixColumns]/[invMixColumns]:
    [[f0(s[i])^f1(s[i+4])^f2(s[i+8])^f3(s[i+12]) for i in range(4)]],
    operands evaluated left to right. *)
Definition mixRow (f0 f1 f2 f3 : Z -> outcome Z) (s : list Z)
  : outcome (list Z) :=
  mapM (fun i =>
          a <- getitem s i ;; a <- f0 a ;;
          b <- getitem s (i + 4) ;; b <- f1 b ;;
          c <- getitem s (i + 8) ;; c <- f2 c ;;
          d <- getitem s (i + 12) ;; d <- f3 d ;;
          Ok (Z.lxor (Z.lxor (Z.lxor a b) c) d))
       (range 0 4 1).

Definition x1 (y : Z) : outcome Z := Ok y.

Definition mixColumns (s : list Z) : outcome (list Z) :=
  r0 <- mixRow x2 x3 x1 x1 s ;;
  r1 <- mixRow x1 x2 x3 x1 s ;;
  r2 <- mixRow x1 x1 x2 x3 s ;;
  r3 <- mixRow x3 x1 x1 x2 s ;;
  Ok (r0 ++ r1 ++ r2 ++ r3).

Definition invMixColumns (s : list Z) : outcome (list Z) :=
  r0 <- mixRow x14 x11 x13 x9 s ;;
  r1 <- mixRow x9 x14 x11 x13 s ;;
  r2 <- mixRow x13 x9 x14 x11 s ;;
  r3 <- mixRow x11 x13 x9 x14 s ;;
  Ok (r0 ++ r1 ++ r2 ++ r3).

Definition addRoundKey (subkey state : list Z) : list Z :=
  map (fun '(i, j) => Z.lxor i j) (combine subkey state).

Definition xorLists := addRoundKey.

Definition rotWord (number : Z) : Z :=
  Z.shiftr (Z.land number 0xff000000) 24 +
  Z.shiftl (Z.land number 0xff0000) 8 +
  Z.shiftl (Z.land number 0xff00) 8 +
  Z.shiftl (Z.land number 0xff) 8.

Definition subWord (key : Z) : outcome Z :=
  a <- getitem sBox (Z.land (Z.shiftr key 24) 0xff) ;;
  b <- getitem sBox (Z.land (Z.shiftr key 16) 0xff) ;;
  c <- getitem sBox (Z.land (Z.shiftr key 8) 0xff) ;;
  d <- getitem sBox (Z.land key 0xff) ;;
  Ok (Z.shiftl a 24 + Z.shiftl b 16 + Z.shiftl c 8 + d).

Definition rcon : list Z :=
  [0x00;0x01;0x02;0x04;0x08;0x10;0x20;0x40;0x80;0x1B;0x36].

(** [len("{:02x}".format(key))]: the hexadecimal digits of [|key|], a
    leading minus sign for a negative key, padded to width 2. *)
Definition hexdigits (n : Z) : Z :=
  if n =? 0 then 1 else Z.log2 n / 4 + 1.

Definition format_02x_len (key : Z) : Z :=
  Z.max 2 ((if key <? 0 then 1 else 0) + hexdigits (Z.abs key)).

(** [self.w[index]] read as an integer. *)
Definition getword (w : list (option Z)) (index : Z) : outcome Z :=
  x <- getitem w index ;; int_attr x.

(** Body of [for index in range(nk)]. *)
Definition load_step (keyList : list Z) (w : list (option Z)) (index : Z)
  : outcome (list (option Z)) :=
  a <- getitem keyList (4 * index) ;;
  b <- getitem keyList (4 * index + 1) ;;
  c <- getitem keyList (4 * index + 2) ;;
  d <- getitem keyList (4 * index + 3) ;;
  setitem w index (Some (Z.shiftl a 24 + Z.shiftl b 16 + Z.shiftl c 8 + d)).

(** Body of [for index in range(nk,self.wordSize)]. *)
Definition expand_step (nk nr : Z) (w : list (option Z)) (index : Z)
  : outcome (list (option Z)) :=
  temp <- getword w (index - 1) ;;
  temp <- (if index mod nk =? 0 then
             s <- subWord (rotWord temp) ;;
             r <- getitem rcon (index / nk) ;;
             Ok (Z.lxor s (Z.shiftl r 24))
           else if (nr =? 14) && (index mod nk =? 4) then subWord temp
           else Ok temp) ;;
  old <- getword w (index - nk) ;;
  setitem w index (Some (Z.lxor old temp)).

(** [setKey(keySize,key,iv)].  [key] is an integer ([isinstance(key,int)]
    holds by typing); [iv] is [None] or an integer. *)
Definition setKey (self : t) (keySize : keysize) (key : Z) (iv : option Z)
  : outcome t :=
  let klen := format_02x_len key / 2 in
  if negb (klen <=? keySizeTable keySize) then
    Raise (SystemExit "Key size mismatch")
  else if negb (match cipherMode self, iv with
                | MODE_CBC, Some _ => true
                | MODE_CBC, None => false
                | MODE_ECB, _ => true
                end) then
    Raise (SystemExit "IV is mandatory for CBC mode")
  else
    let '(ive, ivd) :=
      match cipherMode self, iv with
      | MODE_CBC, Some v => (Some (intToList v), Some (intToList v))
      | _, _ => (ivEncrypt self, ivDecrypt self)
      end in
    let nr := numberOfRoundsTable keySize in
    let ws := wordSizeTable keySize in
    let '(nk, keyList) :=
      if nr =? 10 then (4, intToList key)
      else if nr =? 12 then
        (6, intToList (Z.shiftr key 64) ++
            slice (intToList (Z.land key (2 ^ 256 - 1))) (Some 8) None)
      else
        (8, intToList (Z.shiftr key 128) ++
            intToList (Z.land key (2 ^ 512 - 1))) in
    w1 <- foldM (load_step keyList) (range 0 nk 1) (w self) ;;
    w2 <- foldM (expand_step nk nr) (range nk ws 1) w1 ;;
    Ok {| wordSize := Some ws; w := w2; keyDefined := true;
          numberOfRounds := Some nr; cipherMode := cipherMode self;
          padding := padding self; ivEncrypt := ive; ivDecrypt := ivd |}.

(** The generator returned by [getKey(operation)].  Its body, and with it
    the read of [self.wordSize], runs at the first [next]. *)
Inductive operation : Set := encryption | decryption.

Inductive keygen : Type :=
| NotStarted (op : operation)
| Running (indices : list Z).

Definition getKey (op : operation) : keygen := NotStarted op.

Definition next (self : t) (g : keygen) : outcome (list Z * keygen) :=
  indices <- match g with
             | NotStarted op =>
                 ws <- int_attr (wordSize self) ;;
                 Ok (match op with
                     | encryption => range 0 ws 4
                     | decryption => rev (range 0 ws 4)
                     end)
             | Running l => Ok l
             end ;;
  match indices with
  | [] => Raise StopIteration
  | i :: rest =>
      k <- wordToState (slice (w self) (Some i) (Some (i + 4))) ;;
      Ok (k, Running rest)
  end.

(** [for _ in repeat(None,n): body]. *)
Fixpoint repeatM {S} (n : nat) (body : S -> outcome S) (s : S) : outcome S :=
  match n with
  | O => Ok s
  | S n' => s' <- body s ;; repeatM n' body s'
  end.

Definition encryptBlock (self : t) (plaintextBlock : list Z)
  : outcome (list Z) :=
  let key := getKey encryption in
  state <- listToState plaintextBlock ;;
  '(k, key) <- next self key ;;
  let state := addRoundKey k state in
  nr <- int_attr (numberOfRounds self) ;;
  '(state, key) <-
    repeatM (Z.to_nat (nr - 1))
      (fun '(state, key) =>
         state <- subBytes state ;;
         let state := shiftRows state in
         state <- mixColumns state ;;
         '(k, key) <- next self key ;;
         Ok (addRoundKey k state, key))
      (state, key) ;;
  state <- subBytes state ;;
  let state := shiftRows state in
  '(k, key) <- next self key ;;
  let state := addRoundKey k state in
  stateToList state.

Definition decryptBlock (self : t) (ciphertextBlock : list Z)
  : outcome (list Z) :=
  let key := getKey decryption in
  state <- listToState ciphertextBlock ;;
  '(k, key) <- next self key ;;
  let state := addRoundKey k state in
  nr <- int_attr (numberOfRounds self) ;;
  '(state, key) <-
    repeatM (Z.to_nat (nr - 1))
      (fun '(state, key) =>
         let state := invShiftRows state in
         state <- invSubBytes state ;;
         '(k, key) <- next self key ;;
         let state := addRoundKey k state in
         state <- invMixColumns state ;;
         Ok (state, key))
      (state, key) ;;
  let state := invShiftRows state in
  state <- invSubBytes state ;;
  '(k, key) <- next self key ;;
  let state := addRoundKey k state in
  stateToList state.

(** [padData(data)]; [len(data)] needs a sequence. *)
Definition padData (self : t) (data : pyval) : outcome (list Z) :=
  match data with
  | PyInt _ => Raise TypeError
  | PyStr d | PyBytes d | PyList d =>
      let paddingLength := 16 - (len d mod 16) in
      let paddingLength :=
        match padding self with
        | NoPadding => paddingLength mod 16
        | PKCS5Padding => paddingLength
        end in
      let pad := repeat paddingLength (Z.to_nat paddingLength) in
      match data with
      | PyBytes _ => pad <- bytes_of pad ;; Ok (d ++ pad)
      | _ => o <- ords data ;; Ok (o ++ pad)
      end
  end.

Definition unpadData (self : t) (byteList : list Z) : outcome (list Z) :=
  match padding self with
  | PKCS5Padding =>
      n <- getitem byteList (-1) ;;
      mapM chr (slice byteList None (Some (- n)))
  | NoPadding => mapM chr byteList
  end.

Definition set_ivEncrypt (self : t) (v : option (list Z)) : t :=
  {| wordSize := wordSize self; w := w self; keyDefined := keyDefined self;
     numberOfRounds := numberOfRounds self; cipherMode := cipherMode self;
     padding := padding self; ivEncrypt := v; ivDecrypt := ivDecrypt self |}.

Definition set_ivDecrypt (self : t) (v : option (list Z)) : t :=
  {| wordSize := wordSize self; w := w self; keyDefined := keyDefined self;
     numberOfRounds := numberOfRounds self; cipherMode := cipherMode self;
     padding := padding self; ivEncrypt := ivEncrypt self; ivDecrypt := v |}.

(** An IV register that is still [None] where a sequence is needed. *)
Definition seq_attr (a : option (list Z)) : outcome (list Z) :=
  match a with Some l => Ok l | None => Raise TypeError end.

(** [for i in range(0,len(inList),16): body(inList[i:i+16])]. *)
Definition for_blocks {S} (inList : list Z) (body : S -> list Z -> outcome S)
  (s : S) : outcome S :=
  foldM (fun s i => body s (slice inList (Some i) (Some (i + 16))))
        (range 0 (len inList) 16) s.

(** Body of the CBC loop of [encrypt]; the loop variables are
    [(outBlock, outList)]. *)
Definition cbc_encrypt_step (self : t)
  (s : option (list Z) * list Z) (block : list Z)
  : outcome (option (list Z) * list Z) :=
  let '(outBlock, outList) := s in
  iv <- seq_attr outBlock ;;
  let auxList := xorLists iv block in
  outBlock <- encryptBlock self auxList ;;
  Ok (Some outBlock, outList ++ outBlock).

Definition ecb_encrypt_step (self : t) (outList : list Z) (block : list Z)
  : outcome (list Z) :=
  b <- encryptBlock self block ;; Ok (outList ++ b).

Definition encrypt (self : t) (input : pyval) : outcome (pyval * t) :=
  if negb (keyDefined self) then Raise (SystemExit "Key not defined")
  else
    inList <- match input with
              | PyInt n => intToList2 n
              | _ => padData self input
              end ;;
    '(outList, self) <-
      match cipherMode self with
      | MODE_CBC =>
          '(outBlock, outList) <-
            for_blocks inList (cbc_encrypt_step self) (ivEncrypt self, []) ;;
          Ok (outList, set_ivEncrypt self outBlock)
      | MODE_ECB =>
          outList <- for_blocks inList (ecb_encrypt_step self) [] ;;
          Ok (outList, self)
      end ;;
    match input with
    | PyInt _ => n <- listToInt outList ;; Ok (PyInt n, self)
    | _ => Ok (PyList outList, self)
    end.

(** [decryptBlock] on a slice of the input.  The characters of a text
    string survive [listToState] and fail at the first [i^j] of
    [addRoundKey]. *)
Definition decryptSlice (self : t) (input : pyval) (block : list Z)
  : outcome (list Z) :=
  match input with
  | PyStr _ =>
      _ <- listToState block ;;
      _ <- next self (getKey decryption) ;;
      Raise TypeError
  | _ => decryptBlock self block
  end.

Definition cbc_decrypt_step (self : t) (input : pyval)
  (s : option (list Z) * list Z) (newInBlock : list Z)
  : outcome (option (list Z) * list Z) :=
  let '(oldInBlock, outList) := s in
  auxList <- decryptSlice self input newInBlock ;;
  iv <- seq_attr oldInBlock ;;
  Ok (Some newInBlock, outList ++ xorLists iv auxList).

Definition ecb_decrypt_step (self : t) (input : pyval) (outList : list Z)
  (block : list Z) : outcome (list Z) :=
  b <- decryptSlice self input block ;; Ok (outList ++ b).

Definition decrypt (self : t) (input : pyval) : outcome (pyval * t) :=
  if negb (keyDefined self) then Raise (SystemExit "Key not defined")
  else
    inList <- match input with
              | PyInt n => intToList2 n
              | PyStr l | PyBytes l | PyList l => Ok l
              end ;;
    '(outList, self) <-
      match cipherMode self with
      | MODE_CBC =>
          '(oldInBlock, outList) <-
            for_blocks inList (cbc_decrypt_step self input)
                       (ivDecrypt self, []) ;;
          Ok (outList, set_ivDecrypt self oldInBlock)
      | MODE_ECB =>
          outList <- for_blocks inList (ecb_decrypt_step self input) [] ;;
          Ok (outList, self)
      end ;;
    match input with
    | PyInt _ => n <- listToInt outList ;; Ok (PyInt n, self)
    | _ => s <- unpadData self outList ;; Ok (PyStr s, self)
    end.

End AES.

(** ** AES/AES_CFB.py *)
Module AES_CFB.
Import Py.

Definition xor (x y : list Z) : outcome (list Z) :=
  bytes_of (map (fun '(i, j) => Z.lxor i j) (combine x y)).

Definition bytesToInt (b : list Z) : outcome Z := listToInt b.

Definition intToList (number : Z) : outcome (list Z) :=
  if number =? 0 then Ok [0]
  else lst <- byte_loop number ;; Ok (rev lst).

Definition intToBytes (number : Z) : outcome (list Z) :=
  l <- intToList number ;; bytes_of l.

(** The padding chosen by [intToList2] when no length is given. *)
Definition default_pad (L : Z) : outcome Z :=
  if L <=? 16 then Ok (16 - L)
  else if L <=? 24 then Ok (24 - L)
  else if L <=? 32 then Ok (32 - L)
  else Raise ValueError.

(** [if length:] holds for an integer other than zero. *)
Definition intToList2 (number : Z) (length : option Z) : outcome (list Z) :=
  lst <- byte_loop number ;;
  let L := len lst in
  pZero <- match length with
           | Some n =>
               if n =? 0 then default_pad L
               else if 0 <=? n - L then Ok (n - L) else Raise AssertionError
           | None => default_pad L
           end ;;
  z <- bytes_n pZero ;;
  Ok (z ++ rev lst).

Definition intToBytes2 (number : Z) (length : option Z) : outcome (list Z) :=
  l <- intToList2 number length ;; bytes_of l.

(** The text handled by the CFB8 functions. *)
Definition cfb8_text (input : pyval) : outcome (list Z) :=
  match input with
  | PyInt n => intToBytes n
  | _ => o <- ords input ;; bytes_of o
  end.

(** Body of the loop of [encryptCFB8]; the loop variables are
    [(obj, inputBuffer, ctext)]. *)
Definition encryptCFB8_step (ptext : list Z)
  (s : AES.t * list Z * list Z) (i : Z)
  : outcome (AES.t * list Z * list Z) :=
  let '(obj, inputBuffer, ctext) := s in
  '(AESoutput, obj) <- AES.encrypt obj (PyBytes inputBuffer) ;;
  AESoutput <- int_seq AESoutput ;;
  a <- getitem AESoutput 0 ;;
  p <- getitem ptext i ;;
  cbyte <- bytes_of [Z.lxor a p] ;;
  Ok (obj, slice inputBuffer (Some 1) None ++ cbyte, ctext ++ cbyte).

Definition encryptCFB8 (keysize : AES.keysize) (key iv : Z) (input : pyval)
  : outcome pyval :=
  inputBuffer <- intToBytes2 iv None ;;
  ptext <- cfb8_text input ;;
  obj <- AES.setKey (AES.new AES.MODE_ECB AES.NoPadding) keysize key (Some iv) ;;
  '(_, _, ctext) <-
    foldM (encryptCFB8_step ptext) (range 0 (len ptext) 1)
          (obj, inputBuffer, []) ;;
  if is_int input then n <- bytesToInt ctext ;; Ok (PyInt n)
  else Ok (PyList ctext).

(** Body of the loop of [decryptCFB8].  The register update is
    [inputBuffer[1:] + bytes(ctext[i])], and [bytes] of an integer [n] is
    [n] zero bytes. *)
Definition decryptCFB8_step (ctext : list Z)
  (s : AES.t * list Z * list Z) (i : Z)
  : outcome (AES.t * list Z * list Z) :=
  let '(obj, inputBuffer, ptext) := s in
  '(AESoutput, obj) <- AES.encrypt obj (PyBytes inputBuffer) ;;
  AESoutput <- int_seq AESoutput ;;
  a <- getitem AESoutput 0 ;;
  c <- getitem ctext i ;;
  pbyte <- bytes_of [Z.lxor a c] ;;
  c' <- getitem ctext i ;;
  fed <- bytes_n c' ;;
  Ok (obj, slice inputBuffer (Some 1) None ++ fed, ptext ++ pbyte).

Definition decryptCFB8 (keysize : AES.keysize) (key iv : Z) (input : pyval)
  : outcome pyval :=
  inputBuffer <- intToBytes2 iv None ;;
  ctext <- cfb8_text input ;;
  obj <- AES.setKey (AES.new AES.MODE_ECB AES.NoPadding) keysize key (Some iv) ;;
  '(_, _, ptext) <-
    foldM (decryptCFB8_step ctext) (range 0 (len ctext) 1)
          (obj, inputBuffer, []) ;;
  if is_int input then n <- bytesToInt ptext ;; Ok (PyInt n)
  else s <- mapM chr ptext ;; Ok (PyStr s).

(** The text handled by the CFB128 functions. *)
Definition cfb128_text (input : pyval) : outcome (list Z) :=
  match input with
  | PyInt n => intToList2 n None
  | _ =>
      ptext <- ords input ;;
      let L := 16 - len ptext in
      z <- bytes_n L ;;
      Ok (z ++ ptext)
  end.

(** Body of the loop of [encryptCFB128]; [inputBuffer] is a byte string
    at every iteration. *)
Definition encryptCFB128_step (ptext : list Z)
  (s : AES.t * list Z * list Z) (i : Z)
  : outcome (AES.t * list Z * list Z) :=
  let '(obj, inputBuffer, ctext) := s in
  let L3 := len ptext in
  '(AESoutput, obj) <- AES.encrypt obj (PyBytes inputBuffer) ;;
  AESoutput <- int_seq AESoutput ;;
  inputBuffer <- xor AESoutput (slice ptext (Some i) (Some (Z.min L3 (i + 16)))) ;;
  b <- bytes_of inputBuffer ;;
  Ok (obj, inputBuffer, ctext ++ b).

Definition encryptCFB128 (keysize : AES.keysize) (key iv : Z) (input : pyval)
  : outcome pyval :=
  inputBuffer <- intToBytes2 iv None ;;
  ptext <- cfb128_text input ;;
  obj <- AES.setKey (AES.new AES.MODE_ECB AES.NoPadding) keysize key (Some iv) ;;
  '(_, _, ctext) <-
    foldM (encryptCFB128_step ptext) (range 0 (len ptext) 16)
          (obj, inputBuffer, []) ;;
  if is_int input then n <- bytesToInt ctext ;; Ok (PyInt n)
  else Ok (PyList ctext).

(** Body of the loop of [decryptCFB128]; [inputBuffer] is the byte string
    of the IV at the first iteration and a slice of the list [ctext]
    afterwards. *)
Definition decryptCFB128_step (ctext : list Z)
  (s : AES.t * pyval * list Z) (i : Z)
  : outcome (AES.t * pyval * list Z) :=
  let '(obj, inputBuffer, ptext) := s in
  let L3 := len ctext in
  '(AESoutput, obj) <- AES.encrypt obj inputBuffer ;;
  AESoutput <- int_seq AESoutput ;;
  let inputBuffer := slice ctext (Some i) (Some (Z.min L3 (i + 16))) in
  ptextBlock <- xor AESoutput inputBuffer ;;
  Ok (obj, PyList inputBuffer, ptext ++ ptextBlock).

Definition decryptCFB128 (keysize : AES.keysize) (key iv : Z) (input : pyval)
  : outcome pyval :=
  inputBuffer <- intToBytes2 iv None ;;
  ctext <- cfb128_text input ;;
  obj <- AES.setKey (AES.new AES.MODE_ECB AES.NoPadding) keysize key (Some iv) ;;
  '(_, _, ptext) <-
    foldM (decryptCFB128_step ctext) (range 0 (len ctext) 16)
          (obj, PyBytes inputBuffer, []) ;;
  if is_int input then n <- bytesToInt ptext ;; Ok (PyInt n)
  else s <- mapM chr ptext ;; Ok (PyStr s).

End AES_CFB.

(** ** AES/AES_GCM.py.  Every argument but the key is a byte string. *)
Module AES_GCM.
Import Py.

Definition xor (x y : list Z) : outcome (list Z) :=
  bytes_of (map (fun '(i, j) => Z.lxor i j) (combine x y)).

Definition intToList (number listSize : Z) : list Z :=
  map (fun i => Z.land (Z.shiftr number i) 0xff)
      (rev (range 0 (listSize * 8) 8)).

(** The loop of [multGF2] on the loop variables [(x, y, z)].  [y] is
    shifted left at every iteration, so its low 128 bits are zero after
    128 of them (see [multGF2_loop_done]). *)
Fixpoint multGF2_loop (fuel : nat) (x y z : Z) : Z :=
  match fuel with
  | O => z
  | S f =>
      if Z.land y (Z.shiftl 1 128 - 1) =? 0 then z
      else
        let z := if Z.land y (Z.shiftl 1 127) =? 0 then z else Z.lxor z x in
        let y := Z.shiftl y 1 in
        let x := if Z.land x 1 =? 0 then Z.shiftr x 1
                 else Z.lxor (Z.shiftr x 1) (Z.shiftl 0xe1 120) in
        multGF2_loop f x y z
  end.

Definition multGF2 (x y : list Z) : outcome (list Z) :=
  x <- listToInt x ;;
  y <- listToInt y ;;
  bytes_of (intToList (multGF2_loop 128 x y 0) 16).

Definition xorMultH (hkey p q : list Z) : outcome (list Z) :=
  d <- xor p q ;;
  m <- multGF2 hkey d ;;
  bytes_of m.

Definition gLen (s : list Z) : outcome (list Z) :=
  bytes_of (intToList (len s * 8) 8).

Definition GHASH (hkey aad ctext : list Z) : outcome (list Z) :=
  x <- bytes_n 16 ;;
  pa <- bytes_n ((16 - len aad mod 16) mod 16) ;;
  let aadP := aad ++ pa in
  pc <- bytes_n ((16 - len ctext mod 16) mod 16) ;;
  let ctextP := ctext ++ pc in
  x <- foldM (fun x i => xorMultH hkey x (slice aadP (Some i) (Some (i + 16))))
             (range 0 (len aadP) 16) x ;;
  x <- foldM (fun x i => xorMultH hkey x (slice ctextP (Some i) (Some (i + 16))))
             (range 0 (len ctextP) 16) x ;;
  la <- gLen aad ;;
  lc <- gLen ctext ;;
  xorMultH hkey x (la ++ lc).

(** [incr(m)], local to [GCM_crypt]. *)
Definition incr (m : list Z) : outcome (list Z) :=
  let n := m in
  n12 <- bytes_of (slice n None (Some 12)) ;;
  ctr <- listToInt (slice n (Some 12) None) ;;
  if ctr =? Z.shiftl 1 32 - 1 then
    z <- bytes_n 4 ;; Ok (n12 ++ z)
  else
    b <- bytes_of (intToList (ctr + 1) 4) ;; Ok (n12 ++ b).

(** Body of the loop of [GCM_crypt]; the loop variables are
    [(obj, y, output)]. *)
Definition GCM_crypt_step (input : list Z)
  (s : AES.t * list Z * list Z) (i : Z)
  : outcome (AES.t * list Z * list Z) :=
  let '(obj, y, output) := s in
  let L := len input in
  y <- incr y ;;
  '(e, obj) <- AES.encrypt obj (PyBytes y) ;;
  e <- bytes_from e ;;
  ctextBlock <- xor e (slice input (Some i) (Some (Z.min (i + 16) L))) ;;
  b <- bytes_of ctextBlock ;;
  Ok (obj, y, output ++ b).

(** Returns [(output,tag,g,h)]. *)
Definition GCM_crypt (keysize : AES.keysize) (key : Z) (iv input aad : list Z)
  : outcome (list Z * list Z * list Z * list Z) :=
  obj <- AES.setKey (AES.new AES.MODE_ECB AES.NoPadding) keysize key None ;;
  z <- bytes_n 16 ;;
  '(e, obj) <- AES.encrypt obj (PyBytes z) ;;
  h <- bytes_from e ;;
  y0 <- (if len iv =? 12 then
           b <- bytes_of iv ;; Ok (b ++ [0x00; 0x00; 0x00; 0x01])
         else
           e <- bytes_n 0 ;;
           x <- GHASH h e iv ;;
           bytes_of x) ;;
  '(obj, y, output) <-
    foldM (GCM_crypt_step input) (range 0 (len input) 16) (obj, y0, []) ;;
  '(g, obj) <- AES.encrypt obj (PyBytes y0) ;;
  g <- int_seq g ;;
  x <- GHASH h aad output ;;
  tag <- xor x g ;;
  Ok (output, tag, g, h).

Definition GCM_encrypt (keysize : AES.keysize) (key : Z) (iv ptext aad : list Z)
  : outcome (list Z * list Z) :=
  '(ctext, tag, g, h) <- GCM_crypt keysize key iv ptext aad ;;
  x <- GHASH h aad ctext ;;
  t <- xor x g ;;
  Ok (ctext, t).

(** [tag == ...] on two byte strings. *)
Definition bytes_eqb (a b : list Z) : bool :=
  if list_eq_dec Z.eq_dec a b then true else false.

(** Returns [(True,ptext)] or [(False,None)]. *)
Definition GCM_decrypt (keysize : AES.keysize) (key : Z)
  (iv ctext aad tag : list Z) : outcome (bool * option (list Z)) :=
  '(ptext, _, g, h) <- GCM_crypt keysize key iv ctext aad ;;
  x <- GHASH h aad ctext ;;
  t <- xor x g ;;
  if bytes_eqb tag t then Ok (true, Some ptext)
  else Ok (false, None).

End AES_GCM.

(** ** RC4/RC4.py *)
Module RC4.
Import Py.

(** The module globals once [setKey] has run; before that they hold
    [None], and [setKey] does not read them. *)
Record globals : Type := mk {
  state : list Z;
  p : Z;
  q : Z
}.

(** [a % b]. *)
Definition pymod (a b : Z) : outcome Z :=
  if b =? 0 then Raise ZeroDivisionError else Ok (a mod b).

(** Body of the loop of [setKey]; the loop variables are [(state, j)]. *)
Definition ksa_step (key : list Z) (s : list Z * Z) (i : Z)
  : outcome (list Z * Z) :=
  let '(state, j) := s in
  j <- (if len key >? 0 then
          si <- getitem state i ;;
          m <- pymod i (len key) ;;
          k <- getitem key m ;;
          Ok ((j + si + k) mod 256)
        else
          si <- getitem state i ;;
          Ok ((j + si) mod 256)) ;;
  sj <- getitem state j ;;
  si <- getitem state i ;;
  state <- setitem state i sj ;;
  state <- setitem state j si ;;
  Ok (state, j).

Definition setKey (key : list Z) : outcome globals :=
  let state := range 0 256 1 in
  '(state, _) <- foldM (ksa_step key) (range 0 256 1) (state, 0) ;;
  Ok {| state := state; p := 0; q := 0 |}.

Definition byteGenerator (g : globals) : outcome (Z * globals) :=
  let p := (p g + 1) mod 256 in
  sp <- getitem (state g) p ;;
  let q := (q g + sp) mod 256 in
  sq <- getitem (state g) q ;;
  sp <- getitem (state g) p ;;
  st <- setitem (state g) p sq ;;
  st <- setitem st q sp ;;
  a <- getitem st p ;;
  b <- getitem st q ;;
  k <- getitem st ((a + b) mod 256) ;;
  Ok (k, {| state := st; p := p; q := q |}).

(** [[ord(p) ^ byteGenerator() for p in inputString]]. *)
Fixpoint encrypt (g : globals) (inputString : list Z)
  : outcome (list Z * globals) :=
  match inputString with
  | [] => Ok ([], g)
  | c :: r =>
      '(k, g) <- byteGenerator g ;;
      '(out, g) <- encrypt g r ;;
      Ok (Z.lxor c k :: out, g)
  end.

(** [[chr(c ^ byteGenerator()) for c in inputByteList]], joined. *)
Fixpoint decrypt (g : globals) (inputByteList : list Z)
  : outcome (list Z * globals) :=
  match inputByteList with
  | [] => Ok ([], g)
  | c :: r =>
      '(k, g) <- byteGenerator g ;;
      ch <- chr (Z.lxor c k) ;;
      '(out, g) <- decrypt g r ;;
      Ok (ch :: out, g)
  end.

End RC4.

(** ** Predicates used to state the theorems *)
Import Py.

(** The computation [m] returns, and its value satisfies [P]. *)
Definition returns {A} (m : outcome A) (P : A -> Prop) : Prop :=
  exists a, m = Ok a /\ P a.

Definition byte (b : Z) : Prop := 0 <= b < 256.
Definition bytes (l : list Z) : Prop := Forall byte l.

(** A 16-byte block. *)
Definition block (l : list Z) : Prop := List.length l = 16%nat /\ bytes l.

(** A sequence of whole blocks. *)
Definition aligned (l : list Z) : Prop := len l mod 16 = 0.

(** The engine holds a key schedule: the state [setKey] leaves behind. *)
Definition keyed (e : AES.t) : Prop :=
  exists ks,
    AES.wordSize e = Some (AES.wordSizeTable ks) /\
    AES.numberOfRounds e = Some (AES.numberOfRoundsTable ks) /\
    AES.keyDefined e = true /\
    List.length (AES.w e) = 60%nat /\
    forall k, (k < Z.to_nat (AES.wordSizeTable ks))%nat ->
              exists n, nth_error (AES.w e) k = Some (Some n).

(** The key is no longer than the declared size: the check of [setKey]. *)
Definition key_fits (keySize : AES.keysize) (key : Z) : Prop :=
  AES.format_02x_len key / 2 <= AES.keySizeTable keySize.

(** Value of a byte string read as a big-endian number. *)
Definition be_value (l : list Z) : Z :=
  fold_left (fun x y => x * 256 + y) l 0.

(** The first [n] entries of the schedule [w] hold words. *)
Definition words_filled (w : list (option Z)) (n : nat) : Prop :=
  List.length w = 60%nat /\
  forall k, (k < n)%nat -> exists v, nth_error w k = Some (Some v).

(** The last 16 elements of a sequence. *)
Definition last_block (c : list Z) : list Z :=
  skipn (List.length c - 16) c.

(** Value of a byte list read as a little-endian number. *)
Definition le_value (l : list Z) : Z :=
  fold_right (fun b acc => b + 256 * acc) 0 l.

(** The key scheduling loop with no key contribution, as a plain loop
    over a 256-entry permutation [perm]: at step [i],
    [j = (j + perm[i]) mod 256] and [perm[i]], [perm[j]] are swapped. *)
Definition swap_entries (perm : list Z) (i j : Z) : list Z :=
  let si := nth (Z.to_nat i) perm 0 in
  let sj := nth (Z.to_nat j) perm 0 in
  update (update perm (Z.to_nat i) sj) (Z.to_nat j) si.

Definition ksa_plain_step (s : list Z * Z) (i : Z) : list Z * Z :=
  let '(perm, j) := s in
  let j := (j + nth (Z.to_nat i) perm 0) mod 256 in
  (swap_entries perm i j, j).

Definition ksa_plain : list Z :=
  fst (fold_left ksa_plain_step (range 0 256 1) (range 0 256 1, 0)).

(** ** Values used to reason about the block transformations *)

(** The value of [mult(c,y)] on a byte [y]: eight iterations cover its
    bits (see [mult_byte]). *)
Definition gmul (c y : Z) : Z := Z.land (AES.mult_loop 8 0 c y) 0xff.

(** The value of one row of [mixColumns]/[invMixColumns]. *)
Definition mix_row_value (g0 g1 g2 g3 : Z -> Z) (s : list Z) : list Z :=
  map (fun i =>
         Z.lxor (Z.lxor (Z.lxor (g0 (nth (Z.to_nat i) s 0))
                                (g1 (nth (Z.to_nat (i + 4)) s 0)))
                        (g2 (nth (Z.to_nat (i + 8)) s 0)))
                (g3 (nth (Z.to_nat (i + 12)) s 0)))
      (range 0 4 1).

Definition keep (y : Z) : Z := y.

Definition mix_value (s : list Z) : list Z :=
  mix_row_value (gmul 2) (gmul 3) keep keep s ++
  mix_row_value keep (gmul 2) (gmul 3) keep s ++
  mix_row_value keep keep (gmul 2) (gmul 3) s ++
  mix_row_value (gmul 3) keep keep (gmul 2) s.

Definition inv_mix_value (s : list Z) : list Z :=
  mix_row_value (gmul 14) (gmul 11) (gmul 13) (gmul 9) s ++
  mix_row_value (gmul 9) (gmul 14) (gmul 11) (gmul 13) s ++
  mix_row_value (gmul 13) (gmul 9) (gmul 14) (gmul 11) s ++
  mix_row_value (gmul 11) (gmul 13) (gmul 9) (gmul 14) s.

(** The loop bodies of [encryptBlock] and [decryptBlock], named. *)
Definition enc_round (self : AES.t) (s : list Z * AES.keygen)
  : outcome (list Z * AES.keygen) :=
  let '(state, key) := s in
  state <- AES.subBytes state ;;
  let state := AES.shiftRows state in
  state <- AES.mixColumns state ;;
  '(k, key) <- AES.next self key ;;
  Ok (AES.addRoundKey k state, key).

Definition dec_round (self : AES.t) (s : list Z * AES.keygen)
  : outcome (list Z * AES.keygen) :=
  let '(state, key) := s in
  let state := AES.invShiftRows state in
  state <- AES.invSubBytes state ;;
  '(k, key) <- AES.next self key ;;
  let state := AES.addRoundKey k state in
  state <- AES.invMixColumns state ;;
  Ok (state, key).

(** Multiplication of polynomials over GF(2) with coefficients in the bits
    of [a] and [b], and the remainder modulo x^8+x^4+x^3+x+1 of a
    polynomial of degree below 15: the product named in the docstring of
    [mult]. *)
Definition poly_mul (a b : Z) : Z :=
  fold_left (fun acc i => if Z.testbit b i then Z.lxor acc (Z.shiftl a i) else acc)
            (range 0 8 1) 0.

Definition poly_mod (p : Z) : Z :=
  fold_left (fun acc i =>
               if Z.testbit acc i then Z.lxor acc (Z.shiftl 0x11b (i - 8))
               else acc)
            (rev (range 8 15 1)) p.

Definition gf_mul (a b : Z) : Z := poly_mod (poly_mul a b).

(** Element-wise XOR of two sequences, up to the shorter one: the values
    [AES_GCM.xor] works on. *)
Definition xor_list (x y : list Z) : list Z :=
  map (fun '(i, j) => Z.lxor i j) (combine x y).

(** The RC4 state is a permutation of the 256 byte values. *)
Definition permuted (g : RC4.globals) : Prop :=
  Permutation (RC4.state g) (range 0 256 1).

(** The code points of a text string. *)
Definition code_point (c : Z) : Prop := 0 <= c < 0x110000.
Definition text (s : list Z) : Prop := Forall code_point s.

(** The bytes [padData] appends to data [d]: with PKCS5Padding 1 to 16
    bytes that hold their count, with NoPadding the 0 to 15 bytes that
    fill the last block, again holding their count. *)
Definition padding_of (e : AES.t) (d : list Z) : list Z :=
  match AES.padding e with
  | AES.NoPadding =>
      repeat ((16 - len d mod 16) mod 16)
             (Z.to_nat ((16 - len d mod 16) mod 16))
  | AES.PKCS5Padding =>
      repeat (16 - len d mod 16) (Z.to_nat (16 - len d mod 16))
  end.

(** What [unpadData] leaves of that padding. *)
Definition unpadded_tail (e : AES.t) (d : list Z) : list Z :=
  match AES.padding e with
  | AES.NoPadding => padding_of e d
  | AES.PKCS5Padding => []
  end.

(** The powers of x present in the polynomial [b] of degree below 8. *)
Definition bits8 (b : Z) : list Z :=
  map (fun i => if Z.testbit b i then Z.shiftl 1 i else 0) (range 0 8 1).
(** * Lemmas and theorems *)

(** ** Total correctness of a computation: it returns, and the value
    satisfies [P]. *)
Section Returns.

Lemma returns_ok {A} (a : A) (P : A -> Prop) : P a -> returns (Ok a) P.
Proof. intro H. exists a. split; [reflexivity | exact H]. Qed.

Lemma returns_bind {A B} (m : outcome A) (k : A -> outcome B)
  (P : A -> Prop) (Q : B -> Prop) :
  returns m P -> (forall a, P a -> returns (k a) Q) -> returns (bind m k) Q.
Proof.
  intros (a & Hm & Ha) Hk. rewrite Hm. simpl. apply Hk, Ha.
Qed.

Lemma returns_weaken {A} (m : outcome A) (P Q : A -> Prop) :
  returns m P -> (forall a, P a -> Q a) -> returns m Q.
Proof.
  intros (a & Hm & Ha) HPQ. exists a. split; [exact Hm | apply HPQ, Ha].
Qed.

Lemma returns_eq {A} (m : outcome A) (a : A) (P : A -> Prop) :
  m = Ok a -> P a -> returns m P.
Proof. intros -> H. apply returns_ok, H. Qed.

Lemma returns_mapM {A B} (f : A -> outcome B) (P : B -> Prop) (l : list A) :
  Forall (fun a => returns (f a) P) l ->
  returns (mapM f l) (fun r => List.length r = List.length l /\ Forall P r).
Proof.
  induction 1 as [|a l Ha _ IH]; simpl.
  - apply returns_ok. split; [reflexivity | constructor].
  - apply returns_bind with (P := P); [exact Ha|]. intros b Hb.
    eapply returns_bind; [exact IH|]. intros bs [Hlen Hbs].
    apply returns_ok. split; [simpl; congruence | constructor; assumption].
Qed.

(** A [for] loop with an invariant indexed by the number of iterations
    done. *)
Lemma returns_foldM {A S} (f : S -> A -> outcome S) (I : nat -> S -> Prop)
  (l : list A) (s : S) :
  I O s ->
  (forall k a s, nth_error l k = Some a -> I k s ->
                 returns (f s a) (I (Datatypes.S k))) ->
  returns (foldM f l s) (I (List.length l)).
Proof.
  revert I s. induction l as [|a l IH]; intros I s H0 Hstep; simpl.
  - apply returns_ok, H0.
  - eapply returns_bind.
    + apply (Hstep O a s); [reflexivity | exact H0].
    + intros s' Hs'. apply (IH (fun k => I (Datatypes.S k))); [exact Hs'|].
      intros k b s0 Hk. apply (Hstep (Datatypes.S k)). exact Hk.
Qed.

Lemma returns_repeatM {S} (body : S -> outcome S) (I : nat -> S -> Prop)
  (n : nat) (s : S) :
  I O s ->
  (forall k s, (k < n)%nat -> I k s -> returns (body s) (I (Datatypes.S k))) ->
  returns (AES.repeatM n body s) (I n).
Proof.
  revert I s. induction n as [|n IH]; intros I s H0 Hstep; simpl.
  - apply returns_ok, H0.
  - eapply returns_bind.
    + apply (Hstep O s); [lia | exact H0].
    + intros s' Hs'. apply (IH (fun k => I (Datatypes.S k))); [exact Hs'|].
      intros k s0 Hk. apply (Hstep (Datatypes.S k)). lia.
Qed.

End Returns.

(** ** Monad laws used to split loops *)
Section Monad.

Lemma bind_assoc {A B C} (m : outcome A) (f : A -> outcome B)
  (g : B -> outcome C) :
  bind (bind m f) g = bind m (fun a => bind (f a) g).
Proof. destruct m; reflexivity. Qed.

Lemma bind_ext {A B} (m : outcome A) (f g : A -> outcome B) :
  (forall a, f a = g a) -> bind m f = bind m g.
Proof. intro H. destruct m; simpl; auto. Qed.

Lemma foldM_app {A S} (f : S -> A -> outcome S) (l1 l2 : list A) (s : S) :
  foldM f (l1 ++ l2) s = bind (foldM f l1 s) (foldM f l2).
Proof.
  revert s. induction l1 as [|a l1 IH]; intro s; simpl.
  - reflexivity.
  - rewrite bind_assoc. apply bind_ext. intro s'. apply IH.
Qed.

Lemma foldM_map {A B S} (f : S -> B -> outcome S) (g : A -> B)
  (l : list A) (s : S) :
  foldM f (map g l) s = foldM (fun s a => f s (g a)) l s.
Proof.
  revert s. induction l as [|a l IH]; intro s; simpl.
  - reflexivity.
  - apply bind_ext. intro s'. apply IH.
Qed.

Lemma foldM_ext {A S} (f g : S -> A -> outcome S) (l : list A) (s : S) :
  (forall s a, In a l -> f s a = g s a) -> foldM f l s = foldM g l s.
Proof.
  revert s. induction l as [|a l IH]; intros s H; simpl.
  - reflexivity.
  - rewrite (H s a (or_introl eq_refl)). apply bind_ext. intro s'.
    apply IH. intros s0 b Hb. apply H. right. exact Hb.
Qed.

End Monad.

(** ** Ranges, indexing and slices *)
Section Sequences.

Lemma len_app {A} (l1 l2 : list A) : len (l1 ++ l2) = len l1 + len l2.
Proof. unfold len. rewrite length_app. lia. Qed.

Lemma len_nonneg {A} (l : list A) : 0 <= len l.
Proof. unfold len. lia. Qed.

Lemma range_length (a b st : Z) :
  List.length (range a b st) = Z.to_nat ((b - a + st - 1) / st).
Proof. unfold range. rewrite length_map, length_seq. reflexivity. Qed.

Lemma range_nth (a b st : Z) (k : nat) :
  (k < Z.to_nat ((b - a + st - 1) / st))%nat ->
  nth_error (range a b st) k = Some (a + st * Z.of_nat k).
Proof.
  intro H. unfold range. rewrite nth_error_map, nth_error_seq.
  destruct (Nat.ltb_spec k (Z.to_nat ((b - a + st - 1) / st))); [|lia].
  reflexivity.
Qed.

Lemma range_nth_inv (a b st : Z) (k : nat) (i : Z) :
  nth_error (range a b st) k = Some i ->
  i = a + st * Z.of_nat k /\ (k < Z.to_nat ((b - a + st - 1) / st))%nat.
Proof.
  intro H.
  assert (Hk : (k < List.length (range a b st))%nat)
    by (apply nth_error_Some; congruence).
  rewrite range_length in Hk. rewrite (range_nth _ _ _ _ Hk) in H.
  split; [congruence | exact Hk].
Qed.

Lemma range_count_step1 (a b : Z) :
  Z.to_nat ((b - a + 1 - 1) / 1) = Z.to_nat (b - a).
Proof. rewrite Z.div_1_r. f_equal. lia. Qed.

Lemma range_count_step16 (n : Z) :
  0 <= n -> n mod 16 = 0 -> (0 - 0 + n + 16 - 1) / 16 = n / 16.
Proof.
  intros Hn Hm. pose proof (Z.div_mod n 16 ltac:(lia)) as E.
  rewrite Hm in E.
  replace (0 - 0 + n + 16 - 1) with (15 + (n / 16) * 16) by lia.
  rewrite Z.div_add by lia. reflexivity.
Qed.

Lemma getitem_ok {A} (l : list A) (i : Z) (d : A) :
  0 <= i < len l -> getitem l i = Ok (nth (Z.to_nat i) l d).
Proof.
  intro H. unfold getitem.
  destruct (Z.ltb_spec i 0); [lia|].
  destruct (Z.ltb_spec i 0); [lia|].
  destruct (nth_error l (Z.to_nat i)) eqn:E.
  - f_equal. symmetry. apply nth_error_nth. exact E.
  - apply nth_error_None in E. unfold len in H. lia.
Qed.

Lemma getitem_returns {A} (l : list A) (i : Z) (P : A -> Prop) :
  0 <= i < len l -> Forall P l -> returns (getitem l i) P.
Proof.
  intros H HP. destruct l as [|d l']; [unfold len in H; simpl in H; lia|].
  rewrite (getitem_ok _ i d H). apply returns_ok.
  apply Forall_nth; [exact HP | unfold len in H; lia].
Qed.

Lemma update_length {A} (l : list A) (k : nat) (v : A) :
  List.length (update l k v) = List.length l.
Proof.
  revert k. induction l as [|a l IH]; intros [|k]; simpl; auto.
Qed.

Lemma update_nth_same {A} (l : list A) (k : nat) (v : A) :
  (k < List.length l)%nat -> nth_error (update l k v) k = Some v.
Proof.
  revert k. induction l as [|a l IH]; intros [|k] H; simpl in *;
    try lia; auto. apply IH. lia.
Qed.

Lemma update_nth_other {A} (l : list A) (k j : nat) (v : A) :
  j <> k -> nth_error (update l k v) j = nth_error l j.
Proof.
  revert k j. induction l as [|a l IH]; intros [|k] [|j] H; simpl;
    try reflexivity; try congruence. apply IH. congruence.
Qed.

Lemma setitem_ok {A} (l : list A) (i : Z) (v : A) :
  0 <= i < len l -> setitem l i v = Ok (update l (Z.to_nat i) v).
Proof.
  intro H. unfold setitem.
  destruct (Z.ltb_spec i 0); [lia|].
  destruct (Z.ltb_spec i 0); [lia|].
  destruct (Z.leb_spec (len l) i); [lia|]. reflexivity.
Qed.

Lemma slice_firstn_skipn {A} (l : list A) (a b : Z) :
  0 <= a <= b -> b <= len l ->
  slice l (Some a) (Some b) = firstn (Z.to_nat (b - a)) (skipn (Z.to_nat a) l).
Proof.
  intros Ha Hb. unfold slice, clamp.
  destruct (Z.ltb_spec a 0); [lia|]. destruct (Z.ltb_spec b 0); [lia|].
  rewrite !Z.min_l by lia. reflexivity.
Qed.

Lemma skipn_nth_cons {A} (l : list A) (n : nat) (x : A) :
  nth_error l n = Some x -> skipn n l = x :: skipn (S n) l.
Proof.
  revert n. induction l as [|a l IH]; intros [|n] H; simpl in *;
    try discriminate.
  - congruence.
  - apply IH. exact H.
Qed.

Lemma Forall_firstn_of {A} (P : A -> Prop) (n : nat) (l : list A) :
  Forall P l -> Forall P (firstn n l).
Proof.
  intro H. revert n. induction H as [|a l Ha _ IH]; intros [|n]; simpl;
    constructor; auto.
Qed.

Lemma Forall_skipn_of {A} (P : A -> Prop) (n : nat) (l : list A) :
  Forall P l -> Forall P (skipn n l).
Proof.
  intro H. revert n. induction H as [|a l Ha Hl IH]; intros [|n]; simpl;
    try constructor; auto.
Qed.

Lemma Forall_slice {A} (P : A -> Prop) (l : list A) (a b : option Z) :
  Forall P l -> Forall P (slice l a b).
Proof. intro H. unfold slice. apply Forall_firstn_of, Forall_skipn_of, H. Qed.

End Sequences.

(** ** The AES block functions return on well-formed arguments *)
Ltac explode16 l H :=
  do 16 (destruct l as [|? l]; [simpl in H; discriminate H|]);
  destruct l; [|simpl in H; discriminate H].

Section Blocks.

Lemma land_byte (x : Z) : byte (Z.land x 0xff).
Proof.
  unfold byte. change 0xff with (Z.ones 8). rewrite Z.land_ones by lia.
  apply Z.mod_pos_bound. lia.
Qed.

Lemma lxor_byte (a b : Z) : byte a -> byte b -> byte (Z.lxor a b).
Proof.
  unfold byte. intros Ha Hb.
  assert (H0 : 0 <= Z.lxor a b) by (apply Z.lxor_nonneg; lia).
  split; [exact H0|].
  destruct (Z.eq_dec (Z.lxor a b) 0) as [E|E]; [lia|].
  apply (Z.log2_lt_pow2 _ 8); [lia|].
  pose proof (Z.log2_lxor a b ltac:(lia) ltac:(lia)) as Hl.
  assert (La : Z.log2 a < 8).
  { destruct (Z.eq_dec a 0) as [->|]; [simpl; lia|].
    apply Z.log2_lt_pow2; lia. }
  assert (Lb : Z.log2 b < 8).
  { destruct (Z.eq_dec b 0) as [->|]; [simpl; lia|].
    apply Z.log2_lt_pow2; lia. }
  lia.
Qed.

Lemma bytes_app (l1 l2 : list Z) : bytes l1 -> bytes l2 -> bytes (l1 ++ l2).
Proof. intros H1 H2. apply Forall_app. split; assumption. Qed.

Lemma bytes_repeat (b : Z) (n : nat) : byte b -> bytes (repeat b n).
Proof. intro H. apply Forall_forall. intros x Hx. apply repeat_spec in Hx. subst. exact H. Qed.

Lemma bytes_slice (l : list Z) (a b : option Z) : bytes l -> bytes (slice l a b).
Proof.
  intro H. apply Forall_slice, H.
Qed.

Lemma bytes_of_ok (l : list Z) : bytes l -> bytes_of l = Ok l.
Proof.
  intro H. unfold bytes_of.
  replace (forallb is_byte l) with true; [reflexivity|].
  symmetry. apply forallb_forall. intros x Hx.
  assert (Hb : byte x) by (revert x Hx; apply Forall_forall; exact H).
  unfold is_byte, byte in *. apply andb_true_iff.
  split; [apply Z.leb_le | apply Z.ltb_lt]; lia.
Qed.

Lemma sBox_bytes : bytes AES.sBox.
Proof.
  apply Forall_forall. intros x Hx.
  assert (H : forallb is_byte AES.sBox = true) by (vm_compute; reflexivity).
  rewrite forallb_forall in H. specialize (H x Hx).
  unfold is_byte in H. apply andb_true_iff in H. destruct H as [H1 H2].
  apply Z.leb_le in H1. apply Z.ltb_lt in H2. split; assumption.
Qed.

Lemma sBox_returns (b : Z) : byte b -> returns (getitem AES.sBox b) byte.
Proof.
  intro H. apply getitem_returns; [|exact sBox_bytes].
  change (len AES.sBox) with 256. exact H.
Qed.

Lemma mult_returns (c y : Z) : byte y -> returns (AES.mult c y) byte.
Proof.
  intros [H _]. unfold AES.mult.
  destruct (Z.ltb_spec y 0); [lia|]. apply returns_ok, land_byte.
Qed.

Lemma x1_returns (y : Z) : byte y -> returns (AES.x1 y) byte.
Proof. intro H. apply returns_ok, H. Qed.

Lemma block_len (l : list Z) : block l -> len l = 16.
Proof. intros [H _]. unfold len. rewrite H. reflexivity. Qed.

Lemma listToState_returns (l : list Z) :
  block l -> returns (AES.listToState l) block.
Proof.
  intro Hb. pose proof (block_len l Hb) as Hl. destruct Hb as [Hlen Hbytes].
  unfold AES.listToState.
  set (idx := flat_map _ _). vm_compute in idx. subst idx.
  eapply returns_weaken.
  - apply returns_mapM with (P := byte).
    repeat constructor; apply getitem_returns; (lia || exact Hbytes).
  - intros r [H1 H2]. split; [exact H1 | exact H2].
Qed.

Lemma subBytes_returns (s : list Z) : block s -> returns (AES.subBytes s) block.
Proof.
  intros [Hlen Hbytes]. unfold AES.subBytes. eapply returns_weaken.
  - apply returns_mapM with (P := byte).
    eapply Forall_impl; [|exact Hbytes]. intros a Ha. apply sBox_returns, Ha.
  - intros r [H1 H2]. split; [congruence | exact H2].
Qed.

Lemma shiftRows_block (s : list Z) : block s -> block (AES.shiftRows s).
Proof.
  intros [Hlen Hbytes]. split.
  - explode16 s Hlen. reflexivity.
  - unfold AES.shiftRows. repeat apply bytes_app; apply bytes_slice, Hbytes.
Qed.

Lemma addRoundKey_block (k s : list Z) :
  block k -> block s -> block (AES.addRoundKey k s).
Proof.
  intros [Hk Bk] [Hs Bs]. unfold AES.addRoundKey. split.
  - rewrite length_map, length_combine. lia.
  - apply Forall_forall. intros x Hx. apply in_map_iff in Hx.
    destruct Hx as ([i j] & <- & Hin).
    apply lxor_byte.
    + apply in_combine_l in Hin. revert i Hin. apply Forall_forall, Bk.
    + apply in_combine_r in Hin. revert j Hin. apply Forall_forall, Bs.
Qed.

Lemma mixRow_returns (f0 f1 f2 f3 : Z -> outcome Z) (s : list Z) :
  (forall y, byte y -> returns (f0 y) byte) ->
  (forall y, byte y -> returns (f1 y) byte) ->
  (forall y, byte y -> returns (f2 y) byte) ->
  (forall y, byte y -> returns (f3 y) byte) ->
  block s ->
  returns (AES.mixRow f0 f1 f2 f3 s)
          (fun r => List.length r = 4%nat /\ bytes r).
Proof.
  intros H0 H1 H2 H3 Hb. pose proof (block_len s Hb) as Hl.
  destruct Hb as [_ Hbytes]. unfold AES.mixRow.
  change (range 0 4 1) with [0; 1; 2; 3].
  eapply returns_weaken.
  - apply returns_mapM with (P := byte).
    repeat constructor;
      (eapply returns_bind; [apply getitem_returns; [lia | exact Hbytes]|];
       intros a Ha; eapply returns_bind; [apply H0, Ha|]; intros a' Ha';
       eapply returns_bind; [apply getitem_returns; [lia | exact Hbytes]|];
       intros b Hb; eapply returns_bind; [apply H1, Hb|]; intros b' Hb';
       eapply returns_bind; [apply getitem_returns; [lia | exact Hbytes]|];
       intros c Hc; eapply returns_bind; [apply H2, Hc|]; intros c' Hc';
       eapply returns_bind; [apply getitem_returns; [lia | exact Hbytes]|];
       intros d Hd; eapply returns_bind; [apply H3, Hd|]; intros d' Hd';
       apply returns_ok; repeat apply lxor_byte; assumption).
  - intros r [E1 E2]. split; [exact E1 | exact E2].
Qed.

Lemma mixColumns_returns (s : list Z) :
  block s -> returns (AES.mixColumns s) block.
Proof.
  intro Hb. unfold AES.mixColumns.
  pose proof (fun c y => mult_returns c y) as Hm.
  eapply returns_bind;
    [apply mixRow_returns; try exact Hb; intros; (apply Hm || apply x1_returns); assumption|].
  intros r0 [L0 B0].
  eapply returns_bind;
    [apply mixRow_returns; try exact Hb; intros; (apply Hm || apply x1_returns); assumption|].
  intros r1 [L1 B1].
  eapply returns_bind;
    [apply mixRow_returns; try exact Hb; intros; (apply Hm || apply x1_returns); assumption|].
  intros r2 [L2 B2].
  eapply returns_bind;
    [apply mixRow_returns; try exact Hb; intros; (apply Hm || apply x1_returns); assumption|].
  intros r3 [L3 B3].
  apply returns_ok. split.
  - rewrite !length_app. lia.
  - repeat apply bytes_app; assumption.
Qed.

End Blocks.

(** ** Key schedule and block encryption return *)
Section Engine.

Lemma range_cons (a b st : Z) :
  0 < st -> a < b -> range a b st = a :: range (a + st) b st.
Proof.
  intros Hst Hab. unfold range.
  assert (E : Z.to_nat ((b - a + st - 1) / st)
              = S (Z.to_nat ((b - (a + st) + st - 1) / st))).
  { replace (b - a + st - 1) with ((b - (a + st) + st - 1) + 1 * st) by lia.
    rewrite Z.div_add by lia.
    assert (0 <= (b - (a + st) + st - 1) / st)
      by (apply Z.div_pos; lia).
    lia. }
  rewrite E. simpl seq. simpl map. f_equal; [lia|].
  rewrite <- seq_shift, map_map. apply map_ext. intro k. lia.
Qed.

Lemma range_nil (a b st : Z) : 0 < st -> b <= a -> range a b st = [].
Proof.
  intros Hst Hab. unfold range.
  assert (E : (b - a + st - 1) / st <= 0).
  { apply Z.lt_succ_r. apply Z.div_lt_upper_bound; lia. }
  replace (Z.to_nat ((b - a + st - 1) / st)) with O by lia. reflexivity.
Qed.

Lemma wordToState_returns (a b c d : Z) :
  returns (AES.wordToState [Some a; Some b; Some c; Some d]) block.
Proof.
  unfold AES.wordToState.
  set (idx := flat_map _ _). vm_compute in idx. subst idx.
  eapply returns_weaken.
  - apply returns_mapM with (P := byte).
    repeat constructor; apply returns_ok, land_byte.
  - intros r [H1 H2]. split; [exact H1 | exact H2].
Qed.

Lemma slice4 {A} (l : list A) (i : Z) (x0 x1 x2 x3 : A) :
  0 <= i -> i + 4 <= len l ->
  nth_error l (Z.to_nat i) = Some x0 ->
  nth_error l (S (Z.to_nat i)) = Some x1 ->
  nth_error l (S (S (Z.to_nat i))) = Some x2 ->
  nth_error l (S (S (S (Z.to_nat i)))) = Some x3 ->
  slice l (Some i) (Some (i + 4)) = [x0; x1; x2; x3].
Proof.
  intros Hi Hl H0 H1 H2 H3.
  rewrite slice_firstn_skipn by lia.
  replace (Z.to_nat (i + 4 - i)) with 4%nat by lia.
  rewrite (skipn_nth_cons _ _ _ H0), (skipn_nth_cons _ _ _ H1),
          (skipn_nth_cons _ _ _ H2), (skipn_nth_cons _ _ _ H3).
  reflexivity.
Qed.

Lemma keyed_slice (e : AES.t) (ks : AES.keysize) (i : Z) :
  List.length (AES.w e) = 60%nat ->
  (forall k, (k < Z.to_nat (AES.wordSizeTable ks))%nat ->
             exists n, nth_error (AES.w e) k = Some (Some n)) ->
  0 <= i -> i + 4 <= AES.wordSizeTable ks ->
  exists a b c d,
    slice (AES.w e) (Some i) (Some (i + 4)) = [Some a; Some b; Some c; Some d].
Proof.
  intros Hlen Hw Hi Hws.
  assert (Hle : AES.wordSizeTable ks <= 60) by (destruct ks; simpl; lia).
  destruct (Hw (Z.to_nat i) ltac:(lia)) as [a Ha].
  destruct (Hw (S (Z.to_nat i)) ltac:(lia)) as [b Hb].
  destruct (Hw (S (S (Z.to_nat i))) ltac:(lia)) as [c Hc].
  destruct (Hw (S (S (S (Z.to_nat i)))) ltac:(lia)) as [d Hd].
  exists a, b, c, d. apply slice4; try assumption.
  unfold len. lia.
Qed.

Lemma next_running (e : AES.t) (ks : AES.keysize) (i : Z) (rest : list Z) :
  List.length (AES.w e) = 60%nat ->
  (forall k, (k < Z.to_nat (AES.wordSizeTable ks))%nat ->
             exists n, nth_error (AES.w e) k = Some (Some n)) ->
  0 <= i -> i + 4 <= AES.wordSizeTable ks ->
  returns (AES.next e (AES.Running (i :: rest)))
          (fun r => block (fst r) /\ snd r = AES.Running rest).
Proof.
  intros Hlen Hw Hi Hws.
  destruct (keyed_slice e ks i Hlen Hw Hi Hws) as (a & b & c & d & E).
  unfold AES.next. cbn [bind]. rewrite E.
  eapply returns_bind; [apply wordToState_returns|].
  intros k Hk. apply returns_ok. split; [exact Hk | reflexivity].
Qed.

Lemma next_start (e : AES.t) (ks : AES.keysize) :
  AES.wordSize e = Some (AES.wordSizeTable ks) ->
  List.length (AES.w e) = 60%nat ->
  (forall k, (k < Z.to_nat (AES.wordSizeTable ks))%nat ->
             exists n, nth_error (AES.w e) k = Some (Some n)) ->
  returns (AES.next e (AES.getKey AES.encryption))
          (fun r => block (fst r) /\
                    snd r = AES.Running (range 4 (AES.wordSizeTable ks) 4)).
Proof.
  intros Hws Hlen Hw.
  assert (Hr : range 0 (AES.wordSizeTable ks) 4
               = 0 :: range 4 (AES.wordSizeTable ks) 4)
    by (apply (range_cons 0); destruct ks; simpl; lia).
  pose proof (next_running e ks 0 (range 4 (AES.wordSizeTable ks) 4)
                Hlen Hw ltac:(lia) ltac:(destruct ks; simpl; lia)) as H.
  unfold AES.next, AES.getKey in *. rewrite Hws. cbn [AES.int_attr bind] in *.
  rewrite Hr. exact H.
Qed.

Lemma rounds_words (ks : AES.keysize) :
  AES.wordSizeTable ks = 4 * AES.numberOfRoundsTable ks + 4 /\
  1 <= AES.numberOfRoundsTable ks.
Proof. destruct ks; simpl; lia. Qed.

Theorem encryptBlock_returns (e : AES.t) (b : list Z) :
  keyed e -> block b -> returns (AES.encryptBlock e b) block.
Proof.
  intros (ks & Hws & Hnr & _ & Hlen & Hw) Hb.
  destruct (rounds_words ks) as [Ews Hnr1].
  unfold AES.encryptBlock.
  eapply returns_bind; [apply listToState_returns, Hb|]. intros st Hst.
  eapply returns_bind; [apply (next_start e ks Hws Hlen Hw)|].
  intros [k g] [Hk Hg]. cbn [fst snd] in Hk, Hg. subst g.
  rewrite Hnr. cbn [AES.int_attr bind].
  eapply returns_bind.
  - apply returns_repeatM with
      (I := fun n s => block (fst s) /\
              snd s = AES.Running
                        (range (4 * (Z.of_nat n + 1)) (AES.wordSizeTable ks) 4)).
    + split; [apply addRoundKey_block; assumption | reflexivity].
    + intros n [s g] Hn [Hs Hg]. cbn [fst snd] in Hs, Hg. subst g.
      eapply returns_bind; [apply subBytes_returns, Hs|]. intros s1 Hs1.
      eapply returns_bind;
        [apply mixColumns_returns, shiftRows_block, Hs1|]. intros s2 Hs2.
      rewrite (range_cons (4 * (Z.of_nat n + 1))) by lia.
      eapply returns_bind; [apply (next_running e ks); try assumption; lia|].
      intros [k' g'] [Hk' Hg']. cbn [fst snd] in Hk', Hg'. subst g'.
      apply returns_ok. split; [apply addRoundKey_block; assumption|].
      cbn [snd]. do 2 f_equal. lia.
  - intros [s g] [Hs Hg]. cbn [fst snd] in Hs, Hg. subst g.
    eapply returns_bind; [apply subBytes_returns, Hs|]. intros s1 Hs1.
    rewrite (range_cons (4 * (Z.of_nat (Z.to_nat (AES.numberOfRoundsTable ks - 1)) + 1)))
      by lia.
    eapply returns_bind; [apply (next_running e ks); try assumption; lia|].
    intros [k' g'] [Hk' _]. cbn [fst snd] in Hk'.
    apply listToState_returns, addRoundKey_block;
      [exact Hk' | apply shiftRows_block, Hs1].
Qed.

End Engine.

(** ** [setKey] returns a keyed engine *)
Section KeySchedule.

Lemma getword_returns (w : list (option Z)) (n : nat) (i : Z) :
  words_filled w n -> 0 <= i -> (Z.to_nat i < n)%nat ->
  returns (AES.getword w i) (fun _ => True).
Proof.
  intros [Hlen Hw] Hi Hn. destruct (Hw _ Hn) as [v Hv].
  assert (Hlt : (Z.to_nat i < List.length w)%nat)
    by (apply nth_error_Some; congruence).
  unfold AES.getword.
  rewrite (getitem_ok w i None) by (unfold len; lia).
  rewrite (nth_error_nth _ _ None Hv). cbn [bind AES.int_attr].
  apply returns_ok. exact I.
Qed.

Lemma setitem_filled (w : list (option Z)) (n : nat) (v : Z) :
  words_filled w n -> (n < 60)%nat ->
  returns (setitem w (Z.of_nat n) (Some v)) (fun w' => words_filled w' (S n)).
Proof.
  intros [Hlen Hw] Hn.
  rewrite setitem_ok by (unfold len; lia). rewrite Nat2Z.id.
  apply returns_ok. split.
  - rewrite update_length. exact Hlen.
  - intros k Hk. destruct (Nat.eq_dec k n) as [->|Hne].
    + exists v. apply update_nth_same. lia.
    + rewrite update_nth_other by exact Hne. apply Hw. lia.
Qed.

Lemma subWord_returns (x : Z) : returns (AES.subWord x) (fun _ => True).
Proof.
  unfold AES.subWord.
  eapply returns_bind; [apply sBox_returns, land_byte|]. intros a _.
  eapply returns_bind; [apply sBox_returns, land_byte|]. intros b _.
  eapply returns_bind; [apply sBox_returns, land_byte|]. intros c _.
  eapply returns_bind; [apply sBox_returns, land_byte|]. intros d _.
  apply returns_ok. exact I.
Qed.

Lemma getitem_any {A} (l : list A) (i : Z) :
  0 <= i < len l -> returns (getitem l i) (fun _ => True).
Proof.
  intro H. apply getitem_returns; [exact H|].
  apply Forall_forall. intros. exact I.
Qed.

Lemma load_step_returns (keyList : list Z) (w : list (option Z)) (k : nat) :
  4 * Z.of_nat k + 3 < len keyList -> (k < 60)%nat ->
  words_filled w k ->
  returns (AES.load_step keyList w (Z.of_nat k))
          (fun w' => words_filled w' (S k)).
Proof.
  intros Hk H60 Hw. unfold AES.load_step.
  eapply returns_bind; [apply getitem_any; lia|]. intros a _.
  eapply returns_bind; [apply getitem_any; lia|]. intros b _.
  eapply returns_bind; [apply getitem_any; lia|]. intros c _.
  eapply returns_bind; [apply getitem_any; lia|]. intros d _.
  apply setitem_filled; assumption.
Qed.

Lemma expand_step_returns (nk nr : Z) (w : list (option Z)) (index : nat) :
  0 < nk <= Z.of_nat index -> (index < 60)%nat ->
  Z.of_nat index / nk < 11 ->
  words_filled w index ->
  returns (AES.expand_step nk nr w (Z.of_nat index))
          (fun w' => words_filled w' (S index)).
Proof.
  intros Hnk H60 Hr Hw. unfold AES.expand_step.
  eapply returns_bind; [apply (getword_returns w index); [exact Hw|lia|lia]|].
  intros temp _.
  eapply returns_bind with (P := fun _ => True).
  - destruct (Z.of_nat index mod nk =? 0).
    + eapply returns_bind; [apply subWord_returns|]. intros s _.
      eapply returns_bind.
      * apply getitem_any. change (len AES.rcon) with 11.
        split; [apply Z.div_pos; lia | exact Hr].
      * intros r _. apply returns_ok. exact I.
    + destruct ((nr =? 14) && (Z.of_nat index mod nk =? 4)).
      * apply subWord_returns.
      * apply returns_ok. exact I.
  - intros temp' _.
    eapply returns_bind; [apply (getword_returns w index); [exact Hw|lia|lia]|].
    intros old _. apply setitem_filled; assumption.
Qed.

(** Both loops of [setKey], for a key list of [4*nk] bytes. *)
Lemma schedule_returns (nk nr ws : Z) (keyList : list Z) (w : list (option Z)) :
  len keyList = 4 * nk -> 0 < nk <= ws -> ws <= 60 -> (ws - 1) / nk < 11 ->
  List.length w = 60%nat ->
  returns (w1 <- foldM (AES.load_step keyList) (range 0 nk 1) w ;;
           foldM (AES.expand_step nk nr) (range nk ws 1) w1)
          (fun w' => words_filled w' (Z.to_nat ws)).
Proof.
  intros Hkl Hnk Hws Hr Hlen.
  eapply returns_bind.
  - apply returns_foldM with (I := fun k w' => words_filled w' k).
    + split; [exact Hlen | intros k Hk; lia].
    + intros k i s Hi Hs. apply range_nth_inv in Hi.
      rewrite range_count_step1 in Hi. destruct Hi as [-> Hk].
      replace (0 + 1 * Z.of_nat k) with (Z.of_nat k) by lia.
      apply load_step_returns; [lia | lia | exact Hs].
  - intros w1 Hw1. rewrite range_length, range_count_step1 in Hw1.
    eapply returns_weaken.
    + apply returns_foldM with
        (I := fun k w' => words_filled w' (Z.to_nat nk + k)).
      * replace (Z.to_nat nk + 0)%nat with (Z.to_nat (nk - 0)) by lia.
        exact Hw1.
      * intros k i s Hi Hs. apply range_nth_inv in Hi.
        rewrite range_count_step1 in Hi. destruct Hi as [-> Hk].
        replace (nk + 1 * Z.of_nat k) with (Z.of_nat (Z.to_nat nk + k)) by lia.
        replace (Z.to_nat nk + S k)%nat with (S (Z.to_nat nk + k)) by lia.
        apply expand_step_returns; [lia | lia | | exact Hs].
        eapply Z.le_lt_trans; [|exact Hr].
        apply Z.div_le_mono; lia.
    + intros w' Hw'. rewrite range_length, range_count_step1 in Hw'.
      replace (Z.to_nat nk + Z.to_nat (ws - nk))%nat with (Z.to_nat ws) in Hw'
        by lia.
      exact Hw'.
Qed.

Lemma intToList_length (n : Z) : len (AES.intToList n) = 16.
Proof. reflexivity. Qed.

Lemma slice_intToList_tail (x : Z) :
  len (slice (AES.intToList x) (Some 8) None) = 8.
Proof. reflexivity. Qed.

(** The key list chosen by [setKey] has [4*nk] bytes. *)
Lemma key_list_cases (ks : AES.keysize) (key : Z) :
  exists nk keyList,
    (if AES.numberOfRoundsTable ks =? 10 then (4, AES.intToList key)
     else if AES.numberOfRoundsTable ks =? 12 then
       (6, AES.intToList (Z.shiftr key 64) ++
           slice (AES.intToList (Z.land key (2 ^ 256 - 1))) (Some 8) None)
     else
       (8, AES.intToList (Z.shiftr key 128) ++
           AES.intToList (Z.land key (2 ^ 512 - 1)))) = (nk, keyList) /\
    len keyList = 4 * nk /\ 0 < nk <= AES.wordSizeTable ks /\
    (AES.wordSizeTable ks - 1) / nk < 11.
Proof.
  generalize (Z.land key (2 ^ 256 - 1)) (Z.land key (2 ^ 512 - 1)).
  intros k256 k512.
  destruct ks.
  - exists 4, (AES.intToList key).
    split; [reflexivity|]. split; [apply intToList_length|].
    split; [simpl; lia | reflexivity].
  - exists 6, (AES.intToList (Z.shiftr key 64) ++
               slice (AES.intToList k256) (Some 8) None).
    split; [reflexivity|].
    split; [rewrite len_app, intToList_length, slice_intToList_tail; reflexivity|].
    split; [simpl; lia | reflexivity].
  - exists 8, (AES.intToList (Z.shiftr key 128) ++ AES.intToList k512).
    split; [reflexivity|].
    split; [rewrite len_app, !intToList_length; reflexivity|].
    split; [simpl; lia | reflexivity].
Qed.

Lemma setKey_returns (self : AES.t) (ks : AES.keysize) (key : Z)
  (iv : option Z) :
  key_fits ks key ->
  List.length (AES.w self) = 60%nat ->
  (AES.cipherMode self = AES.MODE_CBC -> iv <> None) ->
  returns (AES.setKey self ks key iv)
          (fun e => keyed e /\
                    AES.cipherMode e = AES.cipherMode self /\
                    AES.padding e = AES.padding self /\
                    AES.wordSize e = Some (AES.wordSizeTable ks) /\
                    AES.numberOfRounds e = Some (AES.numberOfRoundsTable ks) /\
                    (forall v, AES.cipherMode self = AES.MODE_CBC ->
                               iv = Some v ->
                               AES.ivEncrypt e = Some (AES.intToList v) /\
                               AES.ivDecrypt e = Some (AES.intToList v))).
Proof.
  intros Hfit Hlen Hiv. unfold AES.setKey.
  unfold key_fits in Hfit.
  destruct (Z.leb_spec (AES.format_02x_len key / 2) (AES.keySizeTable ks));
    [|lia].
  cbn [negb].
  assert (Hmode : (match AES.cipherMode self, iv with
                   | AES.MODE_CBC, Some _ => true
                   | AES.MODE_CBC, None => false
                   | AES.MODE_ECB, _ => true
                   end) = true).
  { destruct (AES.cipherMode self); [reflexivity|].
    destruct iv; [reflexivity | exfalso; apply Hiv; reflexivity]. }
  rewrite Hmode. cbn [negb].
  set (ivs := match AES.cipherMode self, iv with
              | AES.MODE_CBC, Some v =>
                  (Some (AES.intToList v), Some (AES.intToList v))
              | _, _ => (AES.ivEncrypt self, AES.ivDecrypt self)
              end).
  assert (Hivs : forall v, AES.cipherMode self = AES.MODE_CBC -> iv = Some v ->
                           ivs = (Some (AES.intToList v), Some (AES.intToList v))).
  { intros v Hm ->. unfold ivs. rewrite Hm. reflexivity. }
  destruct ivs as [ive ivd].
  destruct (key_list_cases ks key) as (nk & keyList & E & Hkl & Hnk & Hr).
  rewrite E.
  rewrite <- bind_assoc.
  eapply returns_bind.
  - apply (schedule_returns nk (AES.numberOfRoundsTable ks)
             (AES.wordSizeTable ks) keyList (AES.w self));
      try assumption. destruct ks; simpl; lia.
  - intros w2 [Hl2 Hw2]. apply returns_ok.
    cbn [AES.wordSize AES.numberOfRounds AES.cipherMode AES.padding
         AES.ivEncrypt AES.ivDecrypt].
    split.
    + exists ks.
      cbn [AES.wordSize AES.numberOfRounds AES.keyDefined AES.w].
      repeat split; try reflexivity; assumption.
    + repeat split; try reflexivity;
        specialize (Hivs v H0 H1); congruence.
Qed.

End KeySchedule.

(** ** The block loops of [encrypt] *)
Section BlockLoops.

Lemma aligned_blocks (l : list Z) :
  aligned l -> len l = 16 * (len l / 16).
Proof.
  unfold aligned. intro H. pose proof (Z.div_mod (len l) 16 ltac:(lia)). lia.
Qed.


Lemma range_shift (a b st c : Z) :
  range (a + c) (b + c) st = map (fun i => i + c) (range a b st).
Proof.
  unfold range. rewrite map_map.
  replace (b + c - (a + c) + st - 1) with (b - a + st - 1) by lia.
  apply map_ext. intro k. lia.
Qed.

Lemma slice_app_shift {A} (b r : list A) (i j : Z) :
  0 <= i -> 0 <= j ->
  slice (b ++ r) (Some (i + len b)) (Some (j + len b))
  = slice r (Some i) (Some j).
Proof.
  intros Hi Hj. unfold slice, clamp. rewrite len_app.
  pose proof (len_nonneg b) as Hb. pose proof (len_nonneg r) as Hr.
  destruct (Z.ltb_spec (i + len b) 0); [lia|].
  destruct (Z.ltb_spec (j + len b) 0); [lia|].
  destruct (Z.ltb_spec i 0); [lia|]. destruct (Z.ltb_spec j 0); [lia|].
  replace (Z.min (i + len b) (len b + len r)) with (len b + Z.min i (len r))
    by lia.
  replace (Z.min (j + len b) (len b + len r)) with (len b + Z.min j (len r))
    by lia.
  replace (len b + Z.min j (len r) - (len b + Z.min i (len r)))
    with (Z.min j (len r) - Z.min i (len r)) by lia.
  f_equal. rewrite skipn_app.
  rewrite skipn_all2 by (unfold len in *; lia). simpl. f_equal.
  unfold len. lia.
Qed.

Lemma slice_app_head {A} (b r : list A) :
  slice (b ++ r) (Some 0) (Some (0 + len b)) = b.
Proof.
  rewrite slice_firstn_skipn
    by (rewrite ?len_app; pose proof (len_nonneg b); pose proof (len_nonneg r); lia).
  simpl skipn. replace (Z.to_nat (0 + len b - 0)) with (List.length b)
    by (unfold len; lia).
  rewrite firstn_app, firstn_all, Nat.sub_diag. simpl. apply app_nil_r.
Qed.

Lemma for_blocks_nil {S} (body : S -> list Z -> outcome S) (s : S) :
  AES.for_blocks [] body s = Ok s.
Proof. reflexivity. Qed.

Lemma for_blocks_cons {S} (b r : list Z) (body : S -> list Z -> outcome S)
  (s : S) :
  List.length b = 16%nat ->
  AES.for_blocks (b ++ r) body s = bind (body s b) (AES.for_blocks r body).
Proof.
  intro Hb. assert (Hl : len b = 16) by (unfold len; rewrite Hb; reflexivity).
  unfold AES.for_blocks. rewrite len_app, Hl.
  rewrite (range_cons 0) by (pose proof (len_nonneg r); lia).
  cbn [foldM].
  replace (Some (0 + 16)) with (Some (0 + len b)) by (rewrite Hl; reflexivity).
  rewrite slice_app_head. apply bind_ext. intro s'.
  replace (16 + len r) with (len r + 16) by lia.
  rewrite (range_shift 0 (len r) 16 16), foldM_map.
  apply foldM_ext. intros s0 i Hi.
  apply In_nth_error in Hi. destruct Hi as [k Hk].
  apply range_nth_inv in Hk. destruct Hk as [-> _].
  cbv beta. f_equal.
  rewrite <- (slice_app_shift b r) by lia. rewrite Hl. reflexivity.
Qed.

Lemma split_block {A} (l : list A) (k : nat) :
  List.length l = (16 * S k)%nat ->
  exists b r, l = b ++ r /\ List.length b = 16%nat /\
              List.length r = (16 * k)%nat.
Proof.
  intro H. exists (firstn 16 l), (skipn 16 l).
  split; [symmetry; apply firstn_skipn|].
  rewrite length_firstn, length_skipn. lia.
Qed.

Lemma for_blocks_app {S} (body : S -> list Z -> outcome S) (k : nat) :
  forall (l1 l2 : list Z) (s : S),
    List.length l1 = (16 * k)%nat ->
    AES.for_blocks (l1 ++ l2) body s
    = bind (AES.for_blocks l1 body s) (AES.for_blocks l2 body).
Proof.
  induction k as [|k IH]; intros l1 l2 s Hl.
  - destruct l1; [|simpl in Hl; lia]. reflexivity.
  - destruct (split_block l1 k Hl) as (b & r & -> & Hb & Hr).
    rewrite <- app_assoc, !for_blocks_cons by exact Hb.
    rewrite bind_assoc. apply bind_ext. intro s'. apply IH, Hr.
Qed.

Lemma aligned_length (l : list Z) :
  aligned l -> List.length l = (16 * Z.to_nat (len l / 16))%nat.
Proof. intro H. pose proof (aligned_blocks l H). unfold len in *. lia. Qed.

(** The blocks of an aligned byte sequence are 16-byte blocks. *)
Lemma slice_block (l : list Z) (k : nat) :
  bytes l -> 16 * Z.of_nat k + 16 <= len l ->
  block (slice l (Some (0 + 16 * Z.of_nat k)) (Some (0 + 16 * Z.of_nat k + 16))).
Proof.
  intros Hb Hk. split; [|apply Forall_slice, Hb].
  rewrite slice_firstn_skipn by lia.
  rewrite length_firstn, length_skipn. unfold len in Hk. lia.
Qed.

Lemma for_blocks_returns {S} (inList : list Z)
  (body : S -> list Z -> outcome S) (I : nat -> S -> Prop) (s : S) :
  bytes inList -> aligned inList -> I O s ->
  (forall k s blk, 16 * Z.of_nat k + 16 <= len inList -> block blk ->
                   I k s -> returns (body s blk) (I (Datatypes.S k))) ->
  returns (AES.for_blocks inList body s) (I (Z.to_nat (len inList / 16))).
Proof.
  intros Hb Ha H0 Hstep. unfold AES.for_blocks.
  pose proof (len_nonneg inList) as Hn.
  assert (Hc : List.length (range 0 (len inList) 16) = Z.to_nat (len inList / 16)).
  { rewrite range_length. f_equal.
    rewrite <- (range_count_step16 (len inList)) by assumption.
    f_equal. lia. }
  rewrite <- Hc. apply returns_foldM; [exact H0|].
  intros k i s0 Hi Hs0. apply range_nth_inv in Hi. destruct Hi as [-> Hk].
  rewrite <- range_length, Hc in Hk.
  pose proof (aligned_blocks inList Ha) as E.
  assert (16 * Z.of_nat k + 16 <= len inList) by lia.
  apply Hstep; [assumption | apply slice_block; assumption | exact Hs0].
Qed.

End BlockLoops.

(** ** [padData] and [encrypt] on byte strings *)
Section Encrypt.

Lemma padlen_cases (n : Z) :
  0 <= n ->
  1 <= 16 - n mod 16 <= 16 /\ 0 <= (16 - n mod 16) mod 16 < 16 /\
  (n + (16 - n mod 16)) mod 16 = 0 /\
  (n + (16 - n mod 16) mod 16) mod 16 = 0 /\
  (n mod 16 = 0 -> (16 - n mod 16) mod 16 = 0).
Proof.
  intro Hn. pose proof (Z.mod_pos_bound n 16 ltac:(lia)) as Hm.
  pose proof (Z.div_mod n 16 ltac:(lia)) as Hd.
  split; [lia|]. split; [apply Z.mod_pos_bound; lia|].
  split.
  { replace (n + (16 - n mod 16)) with ((n / 16 + 1) * 16) by lia.
    apply Z.mod_mul. lia. }
  destruct (Z.eq_dec (n mod 16) 0) as [E|E].
  - rewrite E. change ((16 - 0) mod 16) with 0. rewrite Z.add_0_r.
    split; [exact E | intros _; reflexivity].
  - rewrite (Z.mod_small (16 - n mod 16)) by lia.
    split; [|intro; contradiction].
    replace (n + (16 - n mod 16)) with ((n / 16 + 1) * 16) by lia.
    apply Z.mod_mul. lia.
Qed.

Lemma padData_returns (e : AES.t) (d : list Z) (form : list Z -> pyval) :
  form = PyStr \/ form = PyBytes ->
  returns (AES.padData e (form d))
          (fun l => exists pad, l = d ++ pad /\ bytes pad /\ aligned l /\
                                (AES.padding e = AES.NoPadding -> aligned d ->
                                 pad = [])).
Proof.
  intro Hform. pose proof (padlen_cases (len d) (len_nonneg d))
    as (H1 & H2 & H3 & H4 & H5).
  set (pl := match AES.padding e with
             | AES.NoPadding => (16 - len d mod 16) mod 16
             | AES.PKCS5Padding => 16 - len d mod 16
             end).
  assert (Hpl : 0 <= pl <= 16) by (unfold pl; destruct (AES.padding e); lia).
  assert (Hb : bytes (repeat pl (Z.to_nat pl)))
    by (apply bytes_repeat; unfold byte; lia).
  assert (Hal : aligned (d ++ repeat pl (Z.to_nat pl))).
  { unfold aligned. rewrite len_app. unfold len at 2. rewrite repeat_length.
    rewrite Z2Nat.id by lia. unfold pl. destruct (AES.padding e); assumption. }
  assert (Hnil : AES.padding e = AES.NoPadding -> aligned d ->
                 repeat pl (Z.to_nat pl) = []).
  { intros Hp Ha. unfold pl. rewrite Hp, (H5 Ha). reflexivity. }
  destruct Hform as [-> | ->]; unfold AES.padData; fold pl.
  - cbn [ords bind]. apply returns_ok. eexists. repeat split; eassumption.
  - rewrite (bytes_of_ok _ Hb). cbn [bind]. apply returns_ok.
    eexists. repeat split; eassumption.
Qed.

Lemma encryptBlock_set_iv (e : AES.t) (v : option (list Z)) (b : list Z) :
  AES.encryptBlock (AES.set_ivEncrypt e v) b = AES.encryptBlock e b.
Proof. reflexivity. Qed.

Lemma ecb_loop_returns (e : AES.t) (inList : list Z) :
  keyed e -> bytes inList -> aligned inList ->
  returns (AES.for_blocks inList (AES.ecb_encrypt_step e) [])
          (fun out => bytes out /\ len out = len inList).
Proof.
  intros Hk Hb Ha. eapply returns_weaken.
  - apply for_blocks_returns with
      (I := fun k out => bytes out /\ List.length out = (16 * k)%nat);
      try assumption.
    + split; [constructor | reflexivity].
    + intros k out blk _ Hblk [Ho Hl]. unfold AES.ecb_encrypt_step.
      eapply returns_bind; [apply encryptBlock_returns; assumption|].
      intros c [Hc1 Hc2]. apply returns_ok. split.
      * apply bytes_app; assumption.
      * rewrite length_app. lia.
  - intros out [Ho Hl]. split; [exact Ho|].
    rewrite <- aligned_length in Hl by exact Ha. unfold len. congruence.
Qed.

(** ECB encryption of a byte string returns a list of bytes, at least as
    long as the input, and leaves the engine as it was. *)
Lemma encrypt_ecb_bytes (e : AES.t) (d : list Z) :
  keyed e -> AES.cipherMode e = AES.MODE_ECB -> bytes d ->
  returns (AES.encrypt e (PyBytes d))
          (fun r => snd r = e /\
                    exists out, fst r = PyList out /\ bytes out /\
                                aligned out /\ len d <= len out /\
                                (AES.padding e = AES.NoPadding -> aligned d ->
                                 len out = len d)).
Proof.
  intros Hk Hm Hd. pose proof Hk as (ks & _ & _ & Hkd & _).
  unfold AES.encrypt. rewrite Hkd. cbn [negb].
  eapply returns_bind; [apply (padData_returns e d PyBytes); auto|].
  intros l (pad & -> & Hpad & Hal & Hnil).
  rewrite Hm, bind_assoc.
  eapply returns_bind;
    [apply ecb_loop_returns; [exact Hk | apply bytes_app; assumption | exact Hal]|].
  intros out [Ho Hl]. cbn [bind]. apply returns_ok. split; [reflexivity|].
  exists out. cbn [fst]. rewrite len_app in Hl.
  pose proof (len_nonneg pad).
  repeat split; try assumption; try lia.
  - unfold aligned in *. rewrite Hl, <- len_app. exact Hal.
  - intros Hp Ha. rewrite (Hnil Hp Ha) in Hl. unfold len in Hl at 3.
    simpl in Hl. lia.
Qed.

End Encrypt.

(** ** AES.py: known answer and CBC chaining *)
Section AESClaims.

(** C1. An ECB/NoPadding engine keyed with
    [setKey("SIZE_128", 0x2b7e151628aed2a6abf7158809cf4f3c)] encrypts the
    block 0x6bc1bee22e409f96e93d7e117393172a to
    0x3ad77bb40d7a3660a89ecaf32466ef97, given as an integer or as the 16
    bytes of a byte string. *)
Theorem C1_aes128_ecb_single_block :
  exists e,
    AES.setKey (AES.new AES.MODE_ECB AES.NoPadding) AES.SIZE_128
               0x2b7e151628aed2a6abf7158809cf4f3c None = Ok e /\
    AES.encrypt e (PyInt 0x6bc1bee22e409f96e93d7e117393172a)
    = Ok (PyInt 0x3ad77bb40d7a3660a89ecaf32466ef97, e) /\
    AES.encrypt e (PyBytes (AES.intToList 0x6bc1bee22e409f96e93d7e117393172a))
    = Ok (PyList (AES.intToList 0x3ad77bb40d7a3660a89ecaf32466ef97), e).
Proof.
  eexists. split; [vm_compute; reflexivity|].
  split; vm_compute; reflexivity.
Qed.







End AESClaims.

(** ** AES_GCM.py *)
Section GCM.

Lemma bytes_check (l : list Z) : forallb is_byte l = true -> bytes l.
Proof.
  intro H. apply Forall_forall. intros x Hx.
  rewrite forallb_forall in H. specialize (H x Hx).
  unfold is_byte in H. apply andb_true_iff in H. destruct H as [H1 H2].
  apply Z.leb_le in H1. apply Z.ltb_lt in H2. split; assumption.
Qed.

Lemma block_check (l : list Z) :
  (List.length l =? 16)%nat && forallb is_byte l = true -> block l.
Proof.
  intro H. apply andb_true_iff in H. destruct H as [H1 H2].
  split; [apply Nat.eqb_eq, H1 | apply bytes_check, H2].
Qed.

Lemma bytes_n_ok (n : Z) : 0 <= n -> bytes_n n = Ok (repeat 0 (Z.to_nat n)).
Proof. intro H. unfold bytes_n. destruct (Z.ltb_spec n 0); [lia | reflexivity]. Qed.

Lemma bytes_zeros (n : nat) : bytes (repeat 0 n).
Proof. apply bytes_repeat. unfold byte. lia. Qed.

Lemma gcm_intToList_bytes (n k : Z) : bytes (AES_GCM.intToList n k).
Proof.
  unfold AES_GCM.intToList. apply Forall_forall. intros x Hx.
  apply in_map_iff in Hx. destruct Hx as (i & <- & _). apply land_byte.
Qed.

Lemma gcm_intToList_length (n k : Z) :
  0 <= k -> List.length (AES_GCM.intToList n k) = Z.to_nat k.
Proof.
  intro Hk. unfold AES_GCM.intToList.
  rewrite length_map, length_rev, range_length. f_equal.
  replace (k * 8 - 0 + 8 - 1) with (7 + k * 8) by lia.
  rewrite Z.div_add by lia. reflexivity.
Qed.

Lemma gcm_xor_returns (x y : list Z) :
  bytes x -> bytes y ->
  returns (AES_GCM.xor x y)
          (fun r => bytes r /\
                    List.length r = Nat.min (List.length x) (List.length y)).
Proof.
  intros Hx Hy. unfold AES_GCM.xor.
  assert (Hb : bytes (map (fun '(i, j) => Z.lxor i j) (combine x y))).
  { apply Forall_forall. intros v Hv. apply in_map_iff in Hv.
    destruct Hv as ([i j] & <- & Hin). apply lxor_byte.
    - apply in_combine_l in Hin. revert i Hin. apply Forall_forall, Hx.
    - apply in_combine_r in Hin. revert j Hin. apply Forall_forall, Hy. }
  rewrite (bytes_of_ok _ Hb). apply returns_ok. split; [exact Hb|].
  rewrite length_map, length_combine. reflexivity.
Qed.

Lemma listToInt_returns (l : list Z) :
  l <> [] -> returns (listToInt l) (fun _ => True).
Proof. destruct l; [congruence|]. intros _. apply returns_ok. exact I. Qed.

Lemma multGF2_returns (x y : list Z) :
  x <> [] -> y <> [] -> returns (AES_GCM.multGF2 x y) block.
Proof.
  intros Hx Hy. unfold AES_GCM.multGF2.
  eapply returns_bind; [apply listToInt_returns, Hx|]. intros a _.
  eapply returns_bind; [apply listToInt_returns, Hy|]. intros b _.
  rewrite bytes_of_ok by apply gcm_intToList_bytes.
  apply returns_ok. split; [|apply gcm_intToList_bytes].
  rewrite gcm_intToList_length by lia. reflexivity.
Qed.

Lemma block_nonempty (l : list Z) : block l -> l <> [].
Proof. intros [H _] ->. discriminate H. Qed.

Lemma xorMultH_returns (hkey p q : list Z) :
  block hkey -> block p -> block q ->
  returns (AES_GCM.xorMultH hkey p q) block.
Proof.
  intros Hh Hp Hq. unfold AES_GCM.xorMultH.
  eapply returns_bind;
    [apply gcm_xor_returns; [apply Hp | apply Hq]|].
  intros d [Hd Hl].
  eapply returns_bind.
  - apply multGF2_returns; [apply block_nonempty, Hh|].
    intros ->. destruct Hp as [Ep _], Hq as [Eq _].
    rewrite Ep, Eq in Hl. discriminate Hl.
  - intros m Hm. rewrite bytes_of_ok by apply Hm. apply returns_ok, Hm.
Qed.

Lemma zero_padded (l : list Z) :
  bytes l ->
  returns (bytes_n ((16 - len l mod 16) mod 16))
          (fun z => bytes (l ++ z) /\ aligned (l ++ z)).
Proof.
  intro Hl. pose proof (padlen_cases (len l) (len_nonneg l))
    as (_ & H2 & _ & H4 & _).
  rewrite bytes_n_ok by lia. apply returns_ok. split.
  - apply bytes_app; [exact Hl | apply bytes_zeros].
  - unfold aligned. rewrite len_app. unfold len at 2.
    rewrite repeat_length, Z2Nat.id by lia. exact H4.
Qed.

Lemma gLen_returns (s : list Z) :
  returns (AES_GCM.gLen s) (fun r => List.length r = 8%nat /\ bytes r).
Proof.
  unfold AES_GCM.gLen. rewrite bytes_of_ok by apply gcm_intToList_bytes.
  apply returns_ok. split; [|apply gcm_intToList_bytes].
  rewrite gcm_intToList_length by lia. reflexivity.
Qed.

Lemma GHASH_returns (hkey aad ctext : list Z) :
  block hkey -> bytes aad -> bytes ctext ->
  returns (AES_GCM.GHASH hkey aad ctext) block.
Proof.
  intros Hh Ha Hc. unfold AES_GCM.GHASH.
  rewrite (bytes_n_ok 16) by lia. cbn [bind].
  eapply returns_bind; [apply zero_padded, Ha|]. intros pa [Hpa Hpa'].
  eapply returns_bind; [apply zero_padded, Hc|]. intros pc [Hpc Hpc'].
  assert (Hloop : forall l x, bytes l -> aligned l -> block x ->
            returns (AES.for_blocks l (AES_GCM.xorMultH hkey) x) block).
  { intros l x Hl Hal Hx. eapply returns_weaken.
    - apply for_blocks_returns with (I := fun _ x => block x);
        try assumption.
      intros k s blk _ Hblk Hs. apply xorMultH_returns; assumption.
    - intros r Hr. exact Hr. }
  eapply returns_bind.
  { apply (Hloop (aad ++ pa)); try assumption.
    apply block_check. reflexivity. }
  intros x1 Hx1.
  eapply returns_bind; [apply (Hloop (ctext ++ pc)); assumption|].
  intros x2 Hx2.
  eapply returns_bind; [apply gLen_returns|]. intros la [Lla Bla].
  eapply returns_bind; [apply gLen_returns|]. intros lc [Llc Blc].
  apply xorMultH_returns; try assumption. split.
  - rewrite length_app. lia.
  - apply bytes_app; assumption.
Qed.

Lemma be_value_fold (l : list Z) (acc : Z) :
  fold_left (fun x y => x * 256 + y) l acc
  = acc * 256 ^ len l + be_value l.
Proof.
  unfold be_value. revert acc. induction l as [|a l IH]; intro acc.
  - cbn. lia.
  - cbn [fold_left]. rewrite IH, (IH (0 * 256 + a)).
    replace (len (a :: l)) with (len l + 1) by (unfold len; cbn [List.length]; lia).
    rewrite Z.pow_add_r by (pose proof (len_nonneg l); lia). lia.
Qed.

Lemma be_value_bound (l : list Z) :
  bytes l -> 0 <= be_value l < 256 ^ len l.
Proof.
  induction 1 as [|a l Ha _ IH].
  - cbn. lia.
  - unfold be_value. cbn [fold_left]. rewrite be_value_fold.
    replace (len (a :: l)) with (len l + 1) by (unfold len; cbn [List.length]; lia).
    rewrite Z.pow_add_r by (pose proof (len_nonneg l); lia).
    unfold byte in Ha. nia.
Qed.

Lemma listToInt_be (l : list Z) : l <> [] -> listToInt l = Ok (be_value l).
Proof.
  destruct l as [|a l]; [congruence|]. intros _. unfold listToInt, be_value.
  cbn [fold_left]. f_equal. change (0 * 256 + a) with a.
  revert a. induction l as [|b l IH]; intro a; [reflexivity|].
  cbn [fold_left]. rewrite Z.shiftl_mul_pow2 by lia. apply IH.
Qed.

Lemma be_value_intToList4 (n : Z) :
  0 <= n < 2 ^ 32 -> be_value (AES_GCM.intToList n 4) = n.
Proof.
  intro Hn.
  change (AES_GCM.intToList n 4)
    with [Z.land (Z.shiftr n 24) (Z.ones 8); Z.land (Z.shiftr n 16) (Z.ones 8);
          Z.land (Z.shiftr n 8) (Z.ones 8); Z.land (Z.shiftr n 0) (Z.ones 8)].
  rewrite !Z.land_ones, !Z.shiftr_div_pow2 by lia.
  unfold be_value. cbn [fold_left].
  change (2 ^ 24) with 16777216. change (2 ^ 16) with 65536.
  change (2 ^ 8) with 256. change (2 ^ 0) with 1. change (2 ^ 32) with 4294967296 in Hn.
  rewrite Z.div_1_r.
  Z.to_euclidean_division_equations. lia.
Qed.

(** [incr] keeps the first 12 bytes and adds one to the last four, read
    as a big-endian number, modulo 2^32. *)
Lemma incr_spec (m : list Z) :
  block m ->
  exists r, AES_GCM.incr m = Ok r /\ block r /\
            firstn 12 r = firstn 12 m /\
            be_value (skipn 12 r) = (be_value (skipn 12 m) + 1) mod 2 ^ 32 /\
            (be_value (skipn 12 m) = 2 ^ 32 - 1 -> skipn 12 r = [0; 0; 0; 0]).
Proof.
  intros [Hlen Hb].
  assert (H12 : slice m None (Some 12) = firstn 12 m)
    by (explode16 m Hlen; reflexivity).
  assert (H4 : slice m (Some 12) None = skipn 12 m)
    by (explode16 m Hlen; reflexivity).
  assert (L12 : List.length (firstn 12 m) = 12%nat)
    by (rewrite length_firstn; lia).
  assert (L4 : List.length (skipn 12 m) = 4%nat)
    by (rewrite length_skipn; lia).
  assert (B12 : bytes (firstn 12 m)) by (apply Forall_firstn_of, Hb).
  assert (B4 : bytes (skipn 12 m)) by (apply Forall_skipn_of, Hb).
  pose proof (be_value_bound _ B4) as Hctr.
  replace (len (skipn 12 m)) with 4 in Hctr by (unfold len; lia).
  change (256 ^ 4) with (2 ^ 32) in Hctr.
  assert (Hskip : forall t, skipn 12 (firstn 12 m ++ t) = t).
  { intro t. rewrite skipn_app, skipn_all2 by lia. rewrite L12. reflexivity. }
  assert (Hfirst : forall t, firstn 12 (firstn 12 m ++ t) = firstn 12 m).
  { intro t. rewrite firstn_app, L12, Nat.sub_diag, firstn_all2 by lia.
    cbn. apply app_nil_r. }
  unfold AES_GCM.incr. rewrite H12, H4, (bytes_of_ok _ B12).
  cbn [bind]. rewrite listToInt_be by (intros E; rewrite E in L4; discriminate).
  cbn [bind]. change (Z.shiftl 1 32 - 1) with (2 ^ 32 - 1).
  destruct (Z.eqb_spec (be_value (skipn 12 m)) (2 ^ 32 - 1)) as [E|E].
  - exists (firstn 12 m ++ [0; 0; 0; 0]). split; [reflexivity|].
    rewrite Hskip, Hfirst, E. repeat split.
    + rewrite length_app, L12. reflexivity.
    + apply bytes_app; [exact B12 | apply (bytes_zeros 4)].
  - rewrite bytes_of_ok by apply gcm_intToList_bytes. cbn [bind].
    exists (firstn 12 m ++ AES_GCM.intToList (be_value (skipn 12 m) + 1) 4).
    split; [reflexivity|]. rewrite Hskip, Hfirst. repeat split.
    + rewrite length_app, L12, gcm_intToList_length by lia. reflexivity.
    + apply bytes_app; [exact B12 | apply gcm_intToList_bytes].
    + rewrite be_value_intToList4 by lia. rewrite Z.mod_small by lia.
      reflexivity.
    + intro. contradiction.
Qed.

Lemma incr_returns (m : list Z) : block m -> returns (AES_GCM.incr m) block.
Proof.
  intro H. destruct (incr_spec m H) as (r & E & Hr & _).
  exists r. split; assumption.
Qed.

(** C4. On a 16-byte counter block [incr] returns a 16-byte block with the
    same first 12 bytes, whose last 4 bytes are the big-endian value of the
    input's last 4 bytes plus one modulo 2^32; they are all zero when that
    value was 2^32 - 1. *)
Theorem C4_incr_low32 (m : list Z) :
  block m ->
  exists r, AES_GCM.incr m = Ok r /\ block r /\
            firstn 12 r = firstn 12 m /\
            be_value (skipn 12 r) = (be_value (skipn 12 m) + 1) mod 2 ^ 32 /\
            (be_value (skipn 12 m) = 2 ^ 32 - 1 -> skipn 12 r = [0; 0; 0; 0]).
Proof. exact (incr_spec m). Qed.

Lemma encrypt_ecb_block (e : AES.t) (d : list Z) :
  keyed e -> AES.cipherMode e = AES.MODE_ECB ->
  AES.padding e = AES.NoPadding -> block d ->
  returns (AES.encrypt e (PyBytes d))
          (fun r => snd r = e /\ exists out, fst r = PyList out /\ block out).
Proof.
  intros Hk Hm Hp [Hl Hb].
  eapply returns_weaken; [apply encrypt_ecb_bytes; assumption|].
  intros [o e'] (He & out & Ho & Hbo & _ & _ & Hlen). cbn [fst snd] in *.
  split; [exact He|]. exists out. split; [exact Ho|]. split; [|exact Hbo].
  assert (Ha : aligned d) by (unfold aligned, len; rewrite Hl; reflexivity).
  specialize (Hlen Hp Ha). unfold len in Hlen. lia.
Qed.

Lemma GCM_crypt_returns (ks : AES.keysize) (key : Z) (iv input aad : list Z) :
  key_fits ks key -> bytes iv -> bytes input -> bytes aad ->
  returns (AES_GCM.GCM_crypt ks key iv input aad)
          (fun r => let '(output, tag, g, h) := r in
                    bytes output /\ block tag /\ block g /\ block h).
Proof.
  intros Hfit Hiv Hin Haad. unfold AES_GCM.GCM_crypt.
  eapply returns_bind.
  { apply setKey_returns; [exact Hfit | reflexivity | discriminate]. }
  intros obj (Hk & Hm & Hp & _). cbn [AES.new AES.cipherMode AES.padding] in Hm, Hp.
  rewrite (bytes_n_ok 16) by lia. cbn [bind].
  eapply returns_bind.
  { apply encrypt_ecb_block; try assumption. apply block_check. reflexivity. }
  intros [o obj'] (Eo & h & Eh & Hh). cbn [fst snd] in Eo, Eh. subst o obj'.
  cbn [bytes_from].
  rewrite bytes_of_ok by apply Hh. cbn [bind].
  eapply returns_bind with (P := block).
  { destruct (Z.eqb_spec (len iv) 12) as [E|E].
    - rewrite (bytes_of_ok _ Hiv). cbn [bind]. apply returns_ok. split.
      + rewrite length_app. unfold len in E. cbn [List.length]. lia.
      + apply bytes_app; [exact Hiv | apply bytes_check; reflexivity].
    - rewrite (bytes_n_ok 0) by lia. cbn [bind].
      eapply returns_bind; [apply GHASH_returns; [exact Hh | constructor | exact Hiv]|].
      intros x Hx. rewrite bytes_of_ok by apply Hx. apply returns_ok, Hx. }
  intros y0 Hy0.
  eapply returns_bind.
  { apply returns_foldM with
      (I := fun _ s => let '(o, y, out) := s in
                       o = obj /\ block y /\ bytes out).
    - repeat split; try apply Hy0. constructor.
    - intros k i [[o y] out] _ (-> & Hy & Hout). unfold AES_GCM.GCM_crypt_step.
      eapply returns_bind; [apply incr_returns, Hy|]. intros y' Hy'.
      eapply returns_bind; [apply encrypt_ecb_block; assumption|].
      intros [o' obj'] (Eo & e & Eh & He). cbn [fst snd] in Eo, Eh.
      subst o' obj'. cbn [bytes_from].
      rewrite bytes_of_ok by apply He. cbn [bind].
      eapply returns_bind;
        [apply gcm_xor_returns; [apply He | apply bytes_slice, Hin]|].
      intros c [Hc _]. rewrite (bytes_of_ok _ Hc). cbn [bind].
      apply returns_ok. split; [reflexivity|]. split; [exact Hy'|].
      apply bytes_app; assumption. }
  intros [[o y] output] (-> & Hy & Hout).
  eapply returns_bind; [apply encrypt_ecb_block; assumption|].
  intros [o' obj'] (Eo & g & Eh & Hg). cbn [fst snd] in Eo, Eh.
  subst o' obj'. cbn [int_seq bind].
  eapply returns_bind; [apply GHASH_returns; assumption|]. intros x Hx.
  eapply returns_bind; [apply gcm_xor_returns; [apply Hx | apply Hg]|].
  intros tag [Ht Hl]. apply returns_ok.
  split; [exact Hout|]. split; [|split; assumption].
  split; [|exact Ht]. rewrite Hl, (proj1 Hx), (proj1 Hg). reflexivity.
Qed.

(** C3. For a key that fits the key size and byte strings [iv], [ctext],
    [aad], [GCM_crypt] returns the derived plaintext and the tag is
    recomputed; [GCM_decrypt] returns [(True, plaintext)] when the claimed
    tag equals the recomputed one and [(False, None)], without the
    plaintext, when it differs. *)
Theorem C3_GCM_decrypt_verifies (ks : AES.keysize) (key : Z)
  (iv ctext aad tag : list Z) :
  key_fits ks key -> bytes iv -> bytes ctext -> bytes aad ->
  exists ptext t g h computed,
    AES_GCM.GCM_crypt ks key iv ctext aad = Ok (ptext, t, g, h) /\
    (x <- AES_GCM.GHASH h aad ctext ;; AES_GCM.xor x g) = Ok computed /\
    (tag = computed ->
     AES_GCM.GCM_decrypt ks key iv ctext aad tag = Ok (true, Some ptext)) /\
    (tag <> computed ->
     AES_GCM.GCM_decrypt ks key iv ctext aad tag = Ok (false, None)).
Proof.
  intros Hfit Hiv Hc Ha.
  destruct (GCM_crypt_returns ks key iv ctext aad Hfit Hiv Hc Ha)
    as ([[[ptext t] g] h] & E & _ & _ & Hg & Hh).
  assert (R : returns (x <- AES_GCM.GHASH h aad ctext ;; AES_GCM.xor x g)
                      (fun _ => True)).
  { eapply returns_bind; [apply GHASH_returns; assumption|]. intros x Hx.
    eapply returns_weaken;
      [apply gcm_xor_returns; [apply Hx | apply Hg]|]. intros. exact I. }
  destruct R as (computed & Ec & _).
  exists ptext, t, g, h, computed. split; [exact E|]. split; [exact Ec|].
  unfold AES_GCM.GCM_decrypt. rewrite E. cbn [bind].
  destruct (AES_GCM.GHASH h aad ctext) as [x| |]; try discriminate Ec.
  cbn [bind] in *. rewrite Ec. cbn [bind]. unfold AES_GCM.bytes_eqb.
  split; intro Ht; destruct (list_eq_dec Z.eq_dec tag computed);
    try reflexivity; contradiction.
Qed.

End GCM.

(** ** Integers and their byte lists *)
Section ByteLists.

Lemma be_value_snoc (l : list Z) (a : Z) :
  be_value (l ++ [a]) = be_value l * 256 + a.
Proof. unfold be_value. rewrite fold_left_app. reflexivity. Qed.

Lemma be_value_rev (l : list Z) : be_value (rev l) = le_value l.
Proof.
  induction l as [|a l IH]; [reflexivity|].
  cbn [rev le_value fold_right]. rewrite be_value_snoc, IH.
  unfold le_value. lia.
Qed.

Lemma be_value_zeros (k : nat) (l : list Z) :
  be_value (repeat 0 k ++ l) = be_value l.
Proof.
  induction k as [|k IH]; [reflexivity|].
  cbn [repeat app]. unfold be_value in *. cbn [fold_left]. exact IH.
Qed.

(** Two byte lists of the same length with the same value are equal. *)
Lemma le_value_inj (l1 l2 : list Z) :
  bytes l1 -> bytes l2 -> List.length l1 = List.length l2 ->
  le_value l1 = le_value l2 -> l1 = l2.
Proof.
  intro H1. revert l2. induction H1 as [|a l1 Ha _ IH]; intros l2 H2 Hl Hv.
  - destruct l2; [reflexivity | discriminate Hl].
  - destruct H2 as [|b l2 Hb H2]; [discriminate Hl|].
    cbn [le_value fold_right] in Hv. fold (le_value l1) in Hv.
    fold (le_value l2) in Hv. unfold byte in Ha, Hb.
    assert (a = b /\ le_value l1 = le_value l2) as [-> Hv'] by lia.
    f_equal. apply IH; [exact H2 | cbn in Hl; lia | exact Hv'].
Qed.

Lemma be_value_inj (l1 l2 : list Z) :
  bytes l1 -> bytes l2 -> List.length l1 = List.length l2 ->
  be_value l1 = be_value l2 -> l1 = l2.
Proof.
  intros H1 H2 Hl Hv. rewrite <- (rev_involutive l1), <- (rev_involutive l2).
  f_equal. apply le_value_inj.
  - apply Forall_rev, H1.
  - apply Forall_rev, H2.
  - rewrite !length_rev. exact Hl.
  - rewrite <- !be_value_rev, !rev_involutive. exact Hv.
Qed.

(** What the byte loop computes when the fuel covers the bits of [n]. *)
Lemma byte_loop_aux_spec (fuel : nat) :
  forall n, 0 <= n < 2 ^ Z.of_nat fuel ->
    le_value (byte_loop_aux fuel n) = n /\
    bytes (byte_loop_aux fuel n) /\
    (forall k, 0 <= k -> n < 256 ^ k -> len (byte_loop_aux fuel n) <= k) /\
    (0 < n -> byte_loop_aux fuel n <> []).
Proof.
  induction fuel as [|f IH]; intros n Hn.
  - change (2 ^ Z.of_nat 0) with 1 in Hn. assert (n = 0) by lia. subst n.
    cbn [byte_loop_aux].
    split; [reflexivity|]. split; [constructor|].
    split; [intros k Hk _; unfold len; cbn; lia | lia].
  - cbn [byte_loop_aux]. destruct (Z.eqb_spec n 0) as [->|Hne].
    + split; [reflexivity|]. split; [constructor|].
      split; [intros k Hk _; unfold len; cbn; lia | lia].
    + rewrite Nat2Z.inj_succ, Z.pow_succ_r in Hn by lia.
      change 0xff with (Z.ones 8). rewrite Z.land_ones, Z.shiftr_div_pow2 by lia.
      change (2 ^ 8) with 256.
      assert (Hq : 0 <= n / 256 < 2 ^ Z.of_nat f).
      { split; [apply Z.div_pos; lia|].
        apply Z.div_lt_upper_bound; [lia|].
        assert (0 < 2 ^ Z.of_nat f) by (apply Z.pow_pos_nonneg; lia). lia. }
      destruct (IH (n / 256) Hq) as (Hv & Hb & Hl & _).
      pose proof (Z.mod_pos_bound n 256 ltac:(lia)) as Hm.
      pose proof (Z.div_mod n 256 ltac:(lia)) as Hd.
      repeat split.
      * cbn [le_value fold_right]. fold (le_value (byte_loop_aux f (n / 256))).
        rewrite Hv. lia.
      * constructor; [exact Hm | exact Hb].
      * intros k Hk Hlt.
        replace (len (n mod 256 :: byte_loop_aux f (n / 256)))
          with (len (byte_loop_aux f (n / 256)) + 1)
          by (unfold len; cbn [List.length]; lia).
        assert (0 < k).
        { destruct (Z.eq_dec k 0) as [->|]; [|lia].
          change (256 ^ 0) with 1 in Hlt. lia. }
        assert (Hl' : len (byte_loop_aux f (n / 256)) <= k - 1).
        { apply Hl; [lia|]. apply Z.div_lt_upper_bound; [lia|].
          rewrite <- Z.pow_succ_r by lia.
          replace (Z.succ (k - 1)) with k by lia. exact Hlt. }
        lia.
      * intros _. discriminate.
Qed.

Lemma byte_loop_spec (n : Z) :
  0 <= n ->
  exists l, byte_loop n = Ok l /\ le_value l = n /\ bytes l /\
            (forall k, 0 <= k -> n < 256 ^ k -> len l <= k) /\
            (0 < n -> l <> []).
Proof.
  intro Hn. unfold byte_loop. destruct (Z.ltb_spec n 0); [lia|].
  eexists. split; [reflexivity|]. apply byte_loop_aux_spec.
  split; [lia|]. destruct (Z.eq_dec n 0) as [->|Hne].
  - cbn. lia.
  - rewrite Nat2Z.inj_succ, Z2Nat.id by apply Z.log2_nonneg.
    apply Z.log2_spec. lia.
Qed.


Lemma shiftr8_bound (n : Z) (f : nat) :
  0 <= n < 2 ^ Z.of_nat (S f) -> 0 <= Z.shiftr n 8 < 2 ^ Z.of_nat f.
Proof.
  intro Hn. rewrite Nat2Z.inj_succ, Z.pow_succ_r in Hn by lia.
  rewrite Z.shiftr_div_pow2 by lia. change (2 ^ 8) with 256.
  split; [apply Z.div_pos; lia|].
  apply Z.div_lt_upper_bound; [lia|].
  assert (0 < 2 ^ Z.of_nat f) by (apply Z.pow_pos_nonneg; lia). lia.
Qed.

(** The fuel is never what ends the loop. *)
Lemma byte_loop_aux_fuel (f1 : nat) :
  forall f2 n, 0 <= n < 2 ^ Z.of_nat f1 -> 0 <= n < 2 ^ Z.of_nat f2 ->
    byte_loop_aux f1 n = byte_loop_aux f2 n.
Proof.
  induction f1 as [|f1 IH]; intros f2 n H1 H2.
  - change (2 ^ Z.of_nat 0) with 1 in H1. assert (n = 0) by lia. subst n.
    destruct f2; reflexivity.
  - destruct f2 as [|f2].
    + change (2 ^ Z.of_nat 0) with 1 in H2. assert (n = 0) by lia. subst n.
      reflexivity.
    + cbn [byte_loop_aux]. destruct (n =? 0); [reflexivity|]. f_equal.
      apply IH; apply shiftr8_bound; assumption.
Qed.

Lemma log2_fuel (n : Z) : 0 <= n -> 0 <= n < 2 ^ Z.of_nat (S (Z.to_nat (Z.log2 n))).
Proof.
  intro Hn. split; [exact Hn|]. destruct (Z.eq_dec n 0) as [->|Hne].
  - cbn. lia.
  - rewrite Nat2Z.inj_succ, Z2Nat.id by apply Z.log2_nonneg.
    apply Z.log2_spec. lia.
Qed.

(** [byte_loop] satisfies the equations of the source's [while number:]
    loop: it stops at zero, and otherwise appends [number&0xff] and goes
    on with [number >> 8]. *)
Lemma byte_loop_unfold (n : Z) :
  0 <= n ->
  byte_loop n
  = if n =? 0 then Ok []
    else l <- byte_loop (Z.shiftr n 8) ;; Ok (Z.land n 0xff :: l).
Proof.
  intro Hn. unfold byte_loop at 1. destruct (Z.ltb_spec n 0); [lia|].
  cbn [byte_loop_aux]. destruct (Z.eqb_spec n 0) as [E|E]; [reflexivity|].
  assert (Hq : 0 <= Z.shiftr n 8) by (apply Z.shiftr_nonneg; lia).
  unfold byte_loop. destruct (Z.ltb_spec (Z.shiftr n 8) 0); [lia|].
  cbn [bind]. do 2 f_equal. apply byte_loop_aux_fuel.
  - apply shiftr8_bound, log2_fuel, Hn.
  - apply log2_fuel, Hq.
Qed.

End ByteLists.

(** ** AES_CFB.py *)
Section CFB.

Lemma cfb_pad_returns (n pad : Z) (lst : list Z) :
  byte_loop n = Ok lst -> bytes lst -> 0 <= pad ->
  AES_CFB.default_pad (len lst) = Ok pad ->
  exists l, AES_CFB.intToList2 n None = Ok l /\ bytes l /\
            len l = pad + len lst /\ be_value l = le_value lst.
Proof.
  intros E Hb Hp Hpad. unfold AES_CFB.intToList2. rewrite E. cbn [bind].
  rewrite Hpad. cbn [bind]. rewrite bytes_n_ok by exact Hp. cbn [bind].
  eexists. split; [reflexivity|]. split; [|split].
  - apply bytes_app; [apply bytes_zeros | apply Forall_rev, Hb].
  - rewrite len_app. unfold len. rewrite repeat_length, length_rev. lia.
  - rewrite be_value_zeros. apply be_value_rev.
Qed.

(** An integer below 2^128 becomes the 16 bytes of its big-endian form. *)
Lemma cfb_intToList2_block (n : Z) :
  0 <= n < 2 ^ 128 ->
  exists l, AES_CFB.intToList2 n None = Ok l /\ block l /\ be_value l = n.
Proof.
  intros [Hn Hlt].
  destruct (byte_loop_spec n Hn) as (lst & E & Hv & Hb & Hl & _).
  specialize (Hl 16 ltac:(lia) Hlt). pose proof (len_nonneg lst).
  destruct (cfb_pad_returns n (16 - len lst) lst E Hb ltac:(lia))
    as (l & El & Bl & Ll & Vl).
  { unfold AES_CFB.default_pad. destruct (Z.leb_spec (len lst) 16); [reflexivity | lia]. }
  exists l. split; [exact El|]. split; [|congruence].
  split; [unfold len in Ll; lia | exact Bl].
Qed.

(** An IV below 2^256 becomes a byte string of at least 16 bytes. *)
Lemma cfb_intToBytes2_iv (n : Z) :
  0 <= n < 2 ^ 256 ->
  exists l, AES_CFB.intToBytes2 n None = Ok l /\ bytes l /\ 16 <= len l.
Proof.
  intros [Hn Hlt].
  destruct (byte_loop_spec n Hn) as (lst & E & Hv & Hb & Hl & _).
  specialize (Hl 32 ltac:(lia) Hlt). pose proof (len_nonneg lst).
  assert (Hpad : exists pad, AES_CFB.default_pad (len lst) = Ok pad /\
                             0 <= pad /\ 16 <= pad + len lst).
  { unfold AES_CFB.default_pad.
    destruct (Z.leb_spec (len lst) 16); [eexists; split; [reflexivity | lia]|].
    destruct (Z.leb_spec (len lst) 24); [eexists; split; [reflexivity | lia]|].
    destruct (Z.leb_spec (len lst) 32); [eexists; split; [reflexivity | lia]|].
    lia. }
  destruct Hpad as (pad & Hpad & Hp0 & Hp16).
  destruct (cfb_pad_returns n pad lst E Hb Hp0 Hpad) as (l & El & Bl & Ll & _).
  exists l. unfold AES_CFB.intToBytes2. rewrite El. cbn [bind].
  rewrite (bytes_of_ok _ Bl). repeat split; [exact Bl | lia].
Qed.

(** The integer read from a 16-byte block converts back to that block. *)
Lemma cfb_intToList2_be (l : list Z) :
  block l -> AES_CFB.intToList2 (be_value l) None = Ok l.
Proof.
  intros [Hl Hb]. pose proof (be_value_bound l Hb) as Hv.
  replace (len l) with 16 in Hv by (unfold len; lia).
  change (256 ^ 16) with (2 ^ 128) in Hv.
  destruct (cfb_intToList2_block (be_value l) Hv) as (l' & E & [Hl' Hb'] & Hv').
  rewrite E. f_equal. apply be_value_inj; try assumption. congruence.
Qed.

Lemma xor_cancel (E p : list Z) :
  (List.length p <= List.length E)%nat ->
  map (fun '(i, j) => Z.lxor i j)
      (combine E (map (fun '(i, j) => Z.lxor i j) (combine E p))) = p.
Proof.
  revert E. induction p as [|a p IH]; intros [|e E] H; cbn in *; try lia;
    try reflexivity.
  rewrite IH by lia. f_equal.
  rewrite <- Z.lxor_assoc, Z.lxor_nilpotent. apply Z.lxor_0_l.
Qed.

Lemma slice_whole16 (l : list Z) :
  List.length l = 16%nat ->
  slice l (Some 0) (Some (Z.min (len l) (0 + 16))) = l.
Proof. intro H. explode16 l H. reflexivity. Qed.

(** C5 (code bug).  On the CFB8-AES128 vector of NIST SP 800-38A
    (key 2b7e151628aed2a6abf7158809cf4f3c, IV 000102030405060708090a0b0c0d0e0f)
    [encryptCFB8] maps the plaintext 6bc1bee22e409f96e93d7e117393172aae2d to
    the published ciphertext, and [decryptCFB8] of that ciphertext returns
    another integer: only the first byte, decrypted under the IV, is right. *)
Theorem C5_decryptCFB8_not_inverse :
  AES_CFB.encryptCFB8 AES.SIZE_128 0x2b7e151628aed2a6abf7158809cf4f3c
      0x000102030405060708090a0b0c0d0e0f
      (PyInt 0x6bc1bee22e409f96e93d7e117393172aae2d)
  = Ok (PyInt 0x3b79424c9c0dd436bace9e0ed4586a4f32b9) /\
  AES_CFB.decryptCFB8 AES.SIZE_128 0x2b7e151628aed2a6abf7158809cf4f3c
      0x000102030405060708090a0b0c0d0e0f
      (PyInt 0x3b79424c9c0dd436bace9e0ed4586a4f32b9)
  = Ok (PyInt 0x6bfc4a8955994e2297c288c7493b2f244fc4).
Proof. split; vm_compute; reflexivity. Qed.

(** C6 as stated fails: a 256-byte plaintext is rejected by
    [encryptCFB128] with ValueError, as an integer and as a text string. *)
Lemma C6_counterexample :
  AES_CFB.encryptCFB128 AES.SIZE_128 0 0 (PyInt (2 ^ 2047)) = Raise ValueError /\
  AES_CFB.encryptCFB128 AES.SIZE_128 0 0 (PyStr (repeat 65 256))
  = Raise ValueError.
Proof. split; vm_compute; reflexivity. Qed.

(** One step of either CFB128 loop calls [encrypt] on the IV bytes. *)
Lemma cfb128_round_trip_block (obj : AES.t) (ivb p : list Z) :
  keyed obj -> AES.cipherMode obj = AES.MODE_ECB ->
  bytes ivb -> 16 <= len ivb -> block p ->
  exists c,
    block c /\
    AES_CFB.encryptCFB128_step p (obj, ivb, []) 0 = Ok (obj, c, c) /\
    AES_CFB.decryptCFB128_step c (obj, PyBytes ivb, []) 0
    = Ok (obj, PyList c, p).
Proof.
  intros Hk Hm Hiv Hlen Hp.
  destruct (encrypt_ecb_bytes obj ivb Hk Hm Hiv)
    as ([o obj'] & Eenc & Eobj & out & Eo & Hout & _ & Hlo & _).
  cbn [fst snd] in Eobj, Eo. subst o obj'.
  destruct (gcm_xor_returns out p Hout (proj2 Hp)) as (c & Ec & Hc & Hlc).
  assert (Lout : (16 <= List.length out)%nat) by (unfold len in *; lia).
  rewrite (proj1 Hp), Nat.min_r in Hlc by exact Lout.
  assert (Hblk : block c) by (split; assumption).
  exists c. split; [exact Hblk|]. split.
  - unfold AES_CFB.encryptCFB128_step. rewrite Eenc. cbn [bind int_seq].
    rewrite (slice_whole16 p (proj1 Hp)).
    change (AES_CFB.xor out p) with (AES_GCM.xor out p). rewrite Ec.
    cbn [bind]. rewrite (bytes_of_ok _ Hc). reflexivity.
  - unfold AES_CFB.decryptCFB128_step. rewrite Eenc. cbn [bind int_seq].
    rewrite (slice_whole16 c Hlc).
    assert (Ex : AES_CFB.xor out c = Ok p).
    { unfold AES_GCM.xor in Ec. unfold AES_CFB.xor.
      assert (Hm' : c = map (fun '(i, j) => Z.lxor i j) (combine out p)).
      { destruct (bytes_of (map (fun '(i, j) => Z.lxor i j) (combine out p)))
          eqn:B; try discriminate Ec.
        unfold bytes_of in B.
        destruct (forallb is_byte (map (fun '(i, j) => Z.lxor i j) (combine out p)));
          [|discriminate B]. congruence. }
      rewrite Hm', xor_cancel by (rewrite (proj1 Hp); exact Lout).
      apply bytes_of_ok, Hp. }
    rewrite Ex. reflexivity.
Qed.

(** C6 (amended).  For a key that fits the key size, an IV below 2^256 and
    a plaintext integer below 2^128 (one 16-byte block), [encryptCFB128]
    returns a ciphertext integer and [decryptCFB128] maps it back to the
    plaintext. *)
Theorem C6_cfb128_single_block_round_trip (ks : AES.keysize) (key iv P : Z) :
  key_fits ks key -> 0 <= iv < 2 ^ 256 -> 0 <= P < 2 ^ 128 ->
  exists C,
    AES_CFB.encryptCFB128 ks key iv (PyInt P) = Ok (PyInt C) /\
    AES_CFB.decryptCFB128 ks key iv (PyInt C) = Ok (PyInt P).
Proof.
  intros Hfit Hiv HP.
  destruct (cfb_intToBytes2_iv iv Hiv) as (ivb & Eiv & Bivb & Livb).
  destruct (cfb_intToList2_block P HP) as (p & Ep & Hp & Vp).
  destruct (setKey_returns (AES.new AES.MODE_ECB AES.NoPadding) ks key
              (Some iv) Hfit eq_refl ltac:(discriminate))
    as (obj & Eobj & Hk & Hm & _).
  cbn [AES.new AES.cipherMode] in Hm.
  destruct (cfb128_round_trip_block obj ivb p Hk Hm Bivb Livb Hp)
    as (c & Hc & Eenc & Edec).
  assert (R16 : forall l, block l -> range 0 (len l) 16 = [0]).
  { intros l [Hl _]. unfold len. rewrite Hl. reflexivity. }
  assert (Ne : forall l, block l -> l <> []) by apply block_nonempty.
  exists (be_value c). split.
  - unfold AES_CFB.encryptCFB128. rewrite Eiv. cbn [bind AES_CFB.cfb128_text].
    rewrite Ep. cbn [bind]. rewrite Eobj. cbn [bind].
    rewrite (R16 p Hp). cbn [foldM]. rewrite Eenc. cbn [bind is_int app].
    unfold AES_CFB.bytesToInt. rewrite listToInt_be by (apply Ne, Hc).
    reflexivity.
  - unfold AES_CFB.decryptCFB128. rewrite Eiv. cbn [bind AES_CFB.cfb128_text].
    rewrite (cfb_intToList2_be c Hc). cbn [bind]. rewrite Eobj. cbn [bind].
    rewrite (R16 c Hc). cbn [foldM]. rewrite Edec. cbn [bind is_int app].
    unfold AES_CFB.bytesToInt. rewrite listToInt_be by (apply Ne, Hp).
    cbn [bind]. rewrite Vp. reflexivity.
Qed.

End CFB.

(** ** Padding removal, key length check, RC4 key setup *)
Section Misc.

Lemma mapM_chr_bytes (l : list Z) : bytes l -> mapM chr l = Ok l.
Proof.
  induction 1 as [|a l Ha _ IH]; [reflexivity|]. cbn [mapM].
  unfold chr at 1. unfold byte in Ha.
  destruct (Z.leb_spec 0 a); [|lia]. destruct (Z.ltb_spec a 0x110000); [|lia].
  cbn [andb bind]. rewrite IH. reflexivity.
Qed.

(** C7 as stated fails: [unpadData] returns a string, not an error, on
    trailers that are not PKCS5 padding (bytes that differ from the last
    one, a last byte of 0, a last byte above 16), and so does [decrypt]. *)
Lemma C7_counterexample :
  let e := AES.new AES.MODE_ECB AES.PKCS5Padding in
  AES.unpadData e (repeat 65 14 ++ [7; 3]) = Ok (repeat 65 13) /\
  AES.unpadData e (repeat 65 15 ++ [0]) = Ok [] /\
  AES.unpadData e (repeat 65 15 ++ [17]) = Ok [] /\
  (k <- AES.setKey e AES.SIZE_128 0x2b7e151628aed2a6abf7158809cf4f3c None ;;
   c <- AES.encryptBlock k (repeat 65 14 ++ [7; 3]) ;;
   r <- AES.decrypt k (PyList c) ;;
   Ok (fst r))
  = Ok (PyStr (repeat 65 13)).
Proof.
  cbv zeta. split; [reflexivity|]. split; [reflexivity|].
  split; [reflexivity|]. vm_compute. reflexivity.
Qed.

(** C7 (amended).  With PKCS5Padding [unpadData] reads the last byte [n]
    of the data and returns the data without its last [n] bytes: nothing
    when [n] is 0 or at least the length of the data.  It checks neither
    [n] nor the bytes removed and raises no error. *)
Theorem C7_unpadData_strips_unchecked (e : AES.t) (l : list Z) (n : Z) :
  AES.padding e = AES.PKCS5Padding -> bytes (l ++ [n]) ->
  AES.unpadData e (l ++ [n])
  = Ok (if n =? 0 then []
        else firstn (List.length (l ++ [n]) - Z.to_nat n) (l ++ [n])).
Proof.
  intros Hp Hb. unfold AES.unpadData. rewrite Hp.
  assert (Hn : byte n).
  { apply Forall_app in Hb. destruct Hb as [_ Hb]. inversion Hb. assumption. }
  assert (Hlen : len (l ++ [n]) = len l + 1)
    by (rewrite len_app; reflexivity).
  pose proof (len_nonneg l) as Hl0.
  assert (Hget : getitem (l ++ [n]) (-1) = Ok n).
  { unfold getitem. cbn [Z.ltb Z.compare]. rewrite Hlen.
    destruct (Z.ltb_spec (-1 + (len l + 1)) 0); [lia|].
    replace (Z.to_nat (-1 + (len l + 1))) with (List.length l)
      by (unfold len; lia).
    rewrite nth_error_app2, Nat.sub_diag by lia. reflexivity. }
  rewrite Hget. cbn [bind]. rewrite mapM_chr_bytes by (apply Forall_slice, Hb).
  f_equal. unfold slice, clamp. rewrite Hlen. cbn [skipn Z.to_nat].
  unfold byte in Hn. destruct (Z.eqb_spec n 0) as [->|Hne].
  - change (- 0) with 0. cbn [Z.ltb Z.compare].
    rewrite Z.min_l by lia. reflexivity.
  - destruct (Z.ltb_spec (- n) 0); [|lia]. f_equal.
    rewrite length_app. cbn [List.length]. unfold len. lia.
Qed.

Lemma hexdigits_small (s key : Z) :
  1 <= s -> 0 <= key < 2 ^ (8 * s) -> AES.hexdigits key <= 2 * s.
Proof.
  intros Hs [H0 Hlt]. unfold AES.hexdigits.
  destruct (Z.eqb_spec key 0); [lia|].
  assert (Hlog : Z.log2 key < 8 * s) by (apply Z.log2_lt_pow2; lia).
  assert (Z.log2 key / 4 < 2 * s) by (apply Z.div_lt_upper_bound; lia).
  lia.
Qed.

Lemma hexdigits_large (s key : Z) :
  1 <= s -> 2 ^ (8 * s + 4) <= key -> 2 * s + 2 <= AES.hexdigits key.
Proof.
  intros Hs Hge. unfold AES.hexdigits.
  assert (0 < 2 ^ (8 * s + 4)) by (apply Z.pow_pos_nonneg; lia).
  destruct (Z.eqb_spec key 0); [lia|].
  assert (Hlog : 8 * s + 4 <= Z.log2 key) by (apply Z.log2_le_pow2; lia).
  assert (2 * s + 1 <= Z.log2 key / 4) by (apply Z.div_le_lower_bound; lia).
  lia.
Qed.

Lemma key_fits_small (ks : AES.keysize) (key : Z) :
  0 <= key < 2 ^ (8 * AES.keySizeTable ks) -> key_fits ks key.
Proof.
  intro H. unfold key_fits, AES.format_02x_len.
  assert (Hs : 16 <= AES.keySizeTable ks) by (destruct ks; simpl; lia).
  pose proof (hexdigits_small (AES.keySizeTable ks) key ltac:(lia) H) as Hd.
  destruct (Z.ltb_spec key 0); [lia|]. rewrite Z.abs_eq by lia.
  apply Z.lt_succ_r. apply Z.div_lt_upper_bound; lia.
Qed.

(** C8 as stated fails: keys shorter than the declared size are accepted. *)
Lemma C8_counterexample :
  exists e1 e2,
    AES.setKey (AES.new AES.MODE_ECB AES.NoPadding) AES.SIZE_128 1 None
    = Ok e1 /\ AES.keyDefined e1 = true /\
    AES.setKey (AES.new AES.MODE_ECB AES.NoPadding) AES.SIZE_256
               0x2b7e151628aed2a6abf7158809cf4f3c None
    = Ok e2 /\ AES.keyDefined e2 = true.
Proof.
  eexists. eexists. split; [vm_compute; reflexivity|].
  split; [reflexivity|]. split; [vm_compute; reflexivity | reflexivity].
Qed.

(** C8 (amended).  [setKey] accepts every key of at most the declared
    16/24/32 bytes, shorter ones included, and then binds the round count
    10/12/14 and the schedule length 44/52/60 to the key size; it rejects
    with "Key size mismatch" every key of more than [2*size+1] hexadecimal
    digits. *)
Theorem C8_setKey_key_length (self : AES.t) (ks : AES.keysize) (key : Z)
  (iv : option Z) :
  List.length (AES.w self) = 60%nat ->
  (AES.cipherMode self = AES.MODE_CBC -> iv <> None) ->
  (2 ^ (8 * AES.keySizeTable ks + 4) <= key ->
   AES.setKey self ks key iv = Raise (SystemExit "Key size mismatch")) /\
  (0 <= key < 2 ^ (8 * AES.keySizeTable ks) ->
   exists e, AES.setKey self ks key iv = Ok e /\
             AES.keyDefined e = true /\
             AES.numberOfRounds e
             = Some (match ks with
                     | AES.SIZE_128 => 10
                     | AES.SIZE_192 => 12
                     | AES.SIZE_256 => 14
                     end) /\
             AES.wordSize e
             = Some (match ks with
                     | AES.SIZE_128 => 44
                     | AES.SIZE_192 => 52
                     | AES.SIZE_256 => 60
                     end)).
Proof.
  intros Hlen Hiv. split.
  - intro Hge. unfold AES.setKey.
    assert (Hs : 16 <= AES.keySizeTable ks) by (destruct ks; simpl; lia).
    pose proof (hexdigits_large (AES.keySizeTable ks) key ltac:(lia) Hge) as Hd.
    assert (0 < 2 ^ (8 * AES.keySizeTable ks + 4))
      by (apply Z.pow_pos_nonneg; lia).
    assert (Hk : AES.keySizeTable ks < AES.format_02x_len key / 2).
    { unfold AES.format_02x_len. destruct (Z.ltb_spec key 0); [lia|].
      rewrite Z.abs_eq by lia.
      apply Z.lt_le_trans with ((2 * AES.keySizeTable ks + 2) / 2).
      - replace (2 * AES.keySizeTable ks + 2)
          with ((AES.keySizeTable ks + 1) * 2) by lia.
        rewrite Z.div_mul by lia. lia.
      - apply Z.div_le_mono; lia. }
    destruct (Z.leb_spec (AES.format_02x_len key / 2) (AES.keySizeTable ks));
      [lia | reflexivity].
  - intro Hk.
    destruct (setKey_returns self ks key iv (key_fits_small ks key Hk) Hlen Hiv)
      as (e & E & Hkeyed & _ & _ & Hws & Hnr & _).
    exists e. split; [exact E|].
    destruct Hkeyed as (_ & _ & _ & Hkd & _).
    split; [exact Hkd|]. rewrite Hnr, Hws. destruct ks; split; reflexivity.
Qed.

(** C10. [setKey] with an empty key returns: it runs the 256 swap steps
    with [j = (j + S[i]) mod 256] and leaves both PRGA indices at zero. *)
Theorem C10_rc4_setKey_empty_key :
  RC4.setKey [] = Ok {| RC4.state := ksa_plain; RC4.p := 0; RC4.q := 0 |} /\
  List.length ksa_plain = 256%nat.
Proof. split; vm_compute; reflexivity. Qed.

End Misc.

(** ** The fuel of the remaining loops is never exhausted *)
Section Fuel.

Lemma shiftr1_bound (n : Z) (f : nat) :
  0 <= n < 2 ^ Z.of_nat (S f) -> 0 <= Z.shiftr n 1 < 2 ^ Z.of_nat f.
Proof.
  intro Hn. rewrite Nat2Z.inj_succ, Z.pow_succ_r in Hn by lia.
  rewrite Z.shiftr_div_pow2 by lia. change (2 ^ 1) with 2.
  split; [apply Z.div_pos; lia|].
  apply Z.div_lt_upper_bound; lia.
Qed.

(** [mult]: the result does not depend on the fuel once it covers the
    bits of [p2]. *)
Lemma mult_loop_fuel (f1 : nat) :
  forall f2 p p1 p2, 0 <= p2 < 2 ^ Z.of_nat f1 -> 0 <= p2 < 2 ^ Z.of_nat f2 ->
    AES.mult_loop f1 p p1 p2 = AES.mult_loop f2 p p1 p2.
Proof.
  induction f1 as [|f1 IH]; intros f2 p p1 p2 H1 H2.
  - change (2 ^ Z.of_nat 0) with 1 in H1. assert (p2 = 0) by lia. subst p2.
    destruct f2; reflexivity.
  - destruct f2 as [|f2].
    + change (2 ^ Z.of_nat 0) with 1 in H2. assert (p2 = 0) by lia. subst p2.
      reflexivity.
    + cbn [AES.mult_loop]. destruct (p2 =? 0); [reflexivity|].
      apply IH; apply shiftr1_bound; assumption.
Qed.

Lemma mult_loop_step (f : nat) (p p1 p2 : Z) :
  AES.mult_loop (S f) p p1 p2
  = if p2 =? 0 then p
    else AES.mult_loop f
           (if Z.land p2 0x01 =? 0 then p else Z.lxor p p1)
           (if Z.land (Z.shiftl p1 1) 0x100 =? 0 then Z.shiftl p1 1
            else Z.lxor (Z.shiftl p1 1) 0x1b)
           (Z.shiftr p2 1).
Proof. reflexivity. Qed.

(** [mult] satisfies the equations of the source's [while p2:] loop. *)
Lemma mult_loop_unfold (p p1 p2 : Z) :
  0 < p2 ->
  AES.mult_loop (S (Z.to_nat (Z.log2 p2))) p p1 p2
  = let p' := if Z.land p2 0x01 =? 0 then p else Z.lxor p p1 in
    let q := Z.shiftl p1 1 in
    let q := if Z.land q 0x100 =? 0 then q else Z.lxor q 0x1b in
    AES.mult_loop (S (Z.to_nat (Z.log2 (Z.shiftr p2 1)))) p' q (Z.shiftr p2 1).
Proof.
  intro Hp. rewrite mult_loop_step. destruct (Z.eqb_spec p2 0); [lia|].
  cbv zeta. apply mult_loop_fuel.
  - apply shiftr1_bound, log2_fuel. lia.
  - apply log2_fuel, Z.shiftr_nonneg. lia.
Qed.

(** [multGF2]: after 128 iterations the low 128 bits of [y] are zero, so
    more fuel would change nothing. *)
Lemma multGF2_loop_done (n extra : nat) :
  forall x y z,
    Z.land (Z.shiftl y (Z.of_nat n)) (Z.shiftl 1 128 - 1) = 0 ->
    AES_GCM.multGF2_loop (n + extra) x y z = AES_GCM.multGF2_loop n x y z.
Proof.
  induction n as [|n IH]; intros x y z H.
  - rewrite Z.shiftl_0_r in H. cbn [Nat.add AES_GCM.multGF2_loop].
    destruct extra; [reflexivity|]. cbn [AES_GCM.multGF2_loop].
    rewrite H. reflexivity.
  - cbn [Nat.add AES_GCM.multGF2_loop].
    destruct (Z.land y (Z.shiftl 1 128 - 1) =? 0); [reflexivity|].
    apply IH. rewrite Z.shiftl_shiftl by lia.
    replace (1 + Z.of_nat n) with (Z.of_nat (S n)) by lia. exact H.
Qed.

Lemma multGF2_loop_fuel (extra : nat) (x y z : Z) :
  AES_GCM.multGF2_loop (128 + extra) x y z = AES_GCM.multGF2_loop 128 x y z.
Proof.
  apply multGF2_loop_done.
  change (Z.shiftl 1 128 - 1) with (Z.ones 128).
  rewrite Z.land_ones, Z.shiftl_mul_pow2 by lia.
  apply Z.mod_mul. lia.
Qed.

End Fuel.

(** ** Whatever [setKey] returns is a keyed engine *)
Section Keyed.

Lemma setKey_keyed (self : AES.t) (ks : AES.keysize) (key : Z)
  (iv : option Z) (e : AES.t) :
  List.length (AES.w self) = 60%nat ->
  AES.setKey self ks key iv = Ok e ->
  keyed e /\ AES.cipherMode e = AES.cipherMode self /\
  AES.padding e = AES.padding self /\
  (forall v, AES.cipherMode self = AES.MODE_CBC -> iv = Some v ->
             AES.ivEncrypt e = Some (AES.intToList v) /\
             AES.ivDecrypt e = Some (AES.intToList v)).
Proof.
  intros Hlen H.
  assert (Hfit : key_fits ks key).
  { unfold key_fits. unfold AES.setKey in H.
    destruct (Z.leb_spec (AES.format_02x_len key / 2) (AES.keySizeTable ks));
      [assumption | discriminate H]. }
  assert (Hiv : AES.cipherMode self = AES.MODE_CBC -> iv <> None).
  { intros Hm ->. unfold AES.setKey in H. rewrite Hm in H.
    destruct (negb (AES.format_02x_len key / 2 <=? AES.keySizeTable ks));
      discriminate H. }
  destruct (setKey_returns self ks key iv Hfit Hlen Hiv)
    as (e' & E & Hk & Hm & Hp & _ & _ & Hivs).
  assert (e' = e) by congruence. subst e'. repeat split; try assumption;
    apply (Hivs v); assumption.
Qed.

End Keyed.

(** ** Instances of the theorems on concrete inputs *)
Section Witnesses.


Lemma C3_witness :
  exists ptext t g h computed,
    AES_GCM.GCM_crypt AES.SIZE_128 0 (repeat 0 12) [] [] = Ok (ptext, t, g, h) /\
    (x <- AES_GCM.GHASH h [] [] ;; AES_GCM.xor x g) = Ok computed /\
    (repeat 0 16 = computed ->
     AES_GCM.GCM_decrypt AES.SIZE_128 0 (repeat 0 12) [] [] (repeat 0 16)
     = Ok (true, Some ptext)) /\
    (repeat 0 16 <> computed ->
     AES_GCM.GCM_decrypt AES.SIZE_128 0 (repeat 0 12) [] [] (repeat 0 16)
     = Ok (false, None)).
Proof.
  apply (C3_GCM_decrypt_verifies AES.SIZE_128 0 (repeat 0 12) [] []
           (repeat 0 16)).
  - unfold key_fits. vm_compute. discriminate.
  - apply bytes_check. reflexivity.
  - constructor.
  - constructor.
Defined.

Lemma C4_witness :
  exists r,
    AES_GCM.incr (repeat 7 12 ++ repeat 255 4) = Ok r /\ block r /\
    firstn 12 r = firstn 12 (repeat 7 12 ++ repeat 255 4) /\
    be_value (skipn 12 r)
    = (be_value (skipn 12 (repeat 7 12 ++ repeat 255 4)) + 1) mod 2 ^ 32 /\
    (be_value (skipn 12 (repeat 7 12 ++ repeat 255 4)) = 2 ^ 32 - 1 ->
     skipn 12 r = [0; 0; 0; 0]).
Proof.
  apply (C4_incr_low32 (repeat 7 12 ++ repeat 255 4)).
  apply block_check. reflexivity.
Defined.

Lemma C6_witness :
  exists C,
    AES_CFB.encryptCFB128 AES.SIZE_128 0x2b7e151628aed2a6abf7158809cf4f3c
        0x000102030405060708090a0b0c0d0e0f
        (PyInt 0x6bc1bee22e409f96e93d7e117393172a) = Ok (PyInt C) /\
    AES_CFB.decryptCFB128 AES.SIZE_128 0x2b7e151628aed2a6abf7158809cf4f3c
        0x000102030405060708090a0b0c0d0e0f (PyInt C)
    = Ok (PyInt 0x6bc1bee22e409f96e93d7e117393172a).
Proof.
  apply (C6_cfb128_single_block_round_trip AES.SIZE_128
           0x2b7e151628aed2a6abf7158809cf4f3c
           0x000102030405060708090a0b0c0d0e0f
           0x6bc1bee22e409f96e93d7e117393172a).
  - unfold key_fits. vm_compute. discriminate.
  - split; [lia | reflexivity].
  - split; [lia | reflexivity].
Defined.

Lemma C7_witness :
  AES.unpadData (AES.new AES.MODE_ECB AES.PKCS5Padding)
                (repeat 65 13 ++ [3])
  = Ok (if 3 =? 0 then []
        else firstn (List.length (repeat 65 13 ++ [3]) - Z.to_nat 3)
                    (repeat 65 13 ++ [3])).
Proof.
  apply (C7_unpadData_strips_unchecked
           (AES.new AES.MODE_ECB AES.PKCS5Padding) (repeat 65 13) 3).
  - reflexivity.
  - apply bytes_check. reflexivity.
Defined.

Lemma C8_witness :
  exists e,
    AES.setKey (AES.new AES.MODE_ECB AES.NoPadding) AES.SIZE_192
               0x8e73b0f7da0e6452c810f32b809079e562f8ead2522c6b7b None = Ok e /\
    AES.keyDefined e = true /\
    AES.numberOfRounds e = Some 12 /\
    AES.wordSize e = Some 52.
Proof.
  destruct (C8_setKey_key_length (AES.new AES.MODE_ECB AES.NoPadding)
              AES.SIZE_192 0x8e73b0f7da0e6452c810f32b809079e562f8ead2522c6b7b
              None) as [_ H].
  - reflexivity.
  - discriminate.
  - apply H. split; [lia | reflexivity].
Defined.

End Witnesses.

(** ** The round transformations and their inverses *)

(** Equalities between xor-sums of the same terms, bit by bit. *)
Ltac xor_ac :=
  apply Z.bits_inj'; intros ? _; rewrite ?Z.lxor_spec, ?Z.bits_0; btauto.

Ltac solve_row HA HB HC HD :=
  match type of HA with
  | ?la = _ =>
      match type of HB with
      | ?lb = _ =>
          match type of HC with
          | ?lc = _ =>
              match type of HD with
              | ?ld = _ =>
                  transitivity (Z.lxor (Z.lxor (Z.lxor la lb) lc) ld);
                  [xor_ac
                  | rewrite HA, HB, HC, HD, ?Z.lxor_0_r, ?Z.lxor_0_l;
                    reflexivity]
              end
          end
      end
  end.

Section Inverses.

(** A check on every byte holds for each byte. *)
Lemma forall_bytes (f : Z -> bool) :
  forallb f (range 0 256 1) = true -> forall b, byte b -> f b = true.
Proof.
  intros H b Hb. rewrite forallb_forall in H. apply H.
  apply (nth_error_In _ (Z.to_nat b)).
  unfold byte in Hb. rewrite range_nth.
  - f_equal. lia.
  - change (Z.to_nat ((256 - 0 + 1 - 1) / 1)) with 256%nat. lia.
Qed.

Lemma sBox_at (b : Z) :
  byte b -> getitem AES.sBox b = Ok (nth (Z.to_nat b) AES.sBox 0).
Proof. intro H. apply getitem_ok. change (len AES.sBox) with 256. exact H. Qed.

Lemma invSBox_at (b : Z) :
  byte b -> getitem AES.invSBox b = Ok (nth (Z.to_nat b) AES.invSBox 0).
Proof. intro H. apply getitem_ok. change (len AES.invSBox) with 256. exact H. Qed.

Lemma invSBox_bytes : bytes AES.invSBox.
Proof. apply bytes_check. vm_compute. reflexivity. Qed.

(** The two tables are inverse permutations of the bytes. *)
Lemma sBox_invSBox (b : Z) :
  byte b ->
  (v <- getitem AES.sBox b ;; getitem AES.invSBox v) = Ok b /\
  (v <- getitem AES.invSBox b ;; getitem AES.sBox v) = Ok b.
Proof.
  intro Hb.
  assert (H : forallb
                (fun b => (nth (Z.to_nat (nth (Z.to_nat b) AES.sBox 0))
                               AES.invSBox 0 =? b) &&
                          (nth (Z.to_nat (nth (Z.to_nat b) AES.invSBox 0))
                               AES.sBox 0 =? b))
                (range 0 256 1) = true) by (vm_compute; reflexivity).
  pose proof (forall_bytes _ H b Hb) as E. cbv beta in E.
  apply andb_true_iff in E. destruct E as [E1 E2].
  apply Z.eqb_eq in E1. apply Z.eqb_eq in E2.
  assert (B1 : byte (nth (Z.to_nat b) AES.sBox 0)).
  { apply Forall_nth; [exact sBox_bytes|]. unfold byte in Hb.
    change (List.length AES.sBox) with 256%nat. lia. }
  assert (B2 : byte (nth (Z.to_nat b) AES.invSBox 0)).
  { apply Forall_nth; [exact invSBox_bytes|]. unfold byte in Hb.
    change (List.length AES.invSBox) with 256%nat. lia. }
  split.
  - rewrite (sBox_at b Hb). cbn [bind]. rewrite (invSBox_at _ B1).
    f_equal. exact E1.
  - rewrite (invSBox_at b Hb). cbn [bind]. rewrite (sBox_at _ B2).
    f_equal. exact E2.
Qed.

Lemma mapM_inverse (f g : Z -> outcome Z) (s : list Z) :
  Forall (fun b => exists v, f b = Ok v /\ byte v /\ g v = Ok b) s ->
  exists t, mapM f s = Ok t /\ List.length t = List.length s /\ bytes t /\
            mapM g t = Ok s.
Proof.
  induction 1 as [|b s (v & Ef & Hv & Eg) _ (t & Et & Lt & Bt & Es)].
  - exists []. repeat split. constructor.
  - exists (v :: t). cbn [mapM]. rewrite Ef, Eg. cbn [bind].
    rewrite Et, Es. cbn [bind]. repeat split.
    + cbn. congruence.
    + constructor; assumption.
Qed.

Lemma subBytes_inverse (s : list Z) :
  block s ->
  exists t, AES.subBytes s = Ok t /\ block t /\ AES.invSubBytes t = Ok s.
Proof.
  intros [Hl Hb].
  destruct (mapM_inverse (getitem AES.sBox) (getitem AES.invSBox) s)
    as (t & Et & Lt & Bt & Es).
  - eapply Forall_impl; [|exact Hb]. intros b Hbyte.
    destruct (sBox_returns b Hbyte) as (v & Ev & Hv).
    exists v. split; [exact Ev|]. split; [exact Hv|].
    pose proof (proj1 (sBox_invSBox b Hbyte)) as E. rewrite Ev in E. exact E.
  - exists t. split; [exact Et|]. split; [split; [congruence | exact Bt]|].
    exact Es.
Qed.

Lemma invSubBytes_inverse (s : list Z) :
  block s ->
  exists t, AES.invSubBytes s = Ok t /\ block t /\ AES.subBytes t = Ok s.
Proof.
  intros [Hl Hb].
  destruct (mapM_inverse (getitem AES.invSBox) (getitem AES.sBox) s)
    as (t & Et & Lt & Bt & Es).
  - eapply Forall_impl; [|exact Hb]. intros b Hbyte.
    assert (Hv : byte (nth (Z.to_nat b) AES.invSBox 0)).
    { apply Forall_nth; [exact invSBox_bytes|]. unfold byte in Hbyte.
      change (List.length AES.invSBox) with 256%nat. lia. }
    exists (nth (Z.to_nat b) AES.invSBox 0).
    split; [apply invSBox_at, Hbyte|]. split; [exact Hv|].
    pose proof (proj2 (sBox_invSBox b Hbyte)) as E.
    rewrite (invSBox_at b Hbyte) in E. exact E.
  - exists t. split; [exact Et|]. split; [split; [congruence | exact Bt]|].
    exact Es.
Qed.

Lemma shiftRows_inverse (s : list Z) :
  List.length s = 16%nat ->
  AES.invShiftRows (AES.shiftRows s) = s /\
  AES.shiftRows (AES.invShiftRows s) = s.
Proof. intro H. explode16 s H. split; reflexivity. Qed.

Lemma listToState_involution (l : list Z) :
  List.length l = 16%nat ->
  exists st, AES.listToState l = Ok st /\ List.length st = 16%nat /\
             AES.stateToList st = Ok l.
Proof.
  intro H. explode16 l H. eexists. split; [reflexivity|].
  split; reflexivity.
Qed.

Lemma addRoundKey_involution (k s : list Z) :
  (List.length s <= List.length k)%nat ->
  AES.addRoundKey k (AES.addRoundKey k s) = s.
Proof. apply xor_cancel. Qed.

(** *** Multiplication in GF(2^8) *)

Lemma mult_byte (c y : Z) : byte y -> AES.mult c y = Ok (gmul c y).
Proof.
  intros [H0 H1]. unfold AES.mult, gmul. destruct (Z.ltb_spec y 0); [lia|].
  do 2 f_equal. apply mult_loop_fuel.
  - apply log2_fuel, H0.
  - split; [exact H0|]. exact H1.
Qed.

Lemma gmul_byte (c y : Z) : byte (gmul c y).
Proof. apply land_byte. Qed.

Lemma mult_loop_acc (f : nat) :
  forall p p1 p2,
    AES.mult_loop f p p1 p2 = Z.lxor p (AES.mult_loop f 0 p1 p2).
Proof.
  induction f as [|f IH]; intros p p1 p2.
  - cbn. symmetry. apply Z.lxor_0_r.
  - rewrite !mult_loop_step. destruct (p2 =? 0).
    + symmetry. apply Z.lxor_0_r.
    + rewrite IH. rewrite (IH (if Z.land p2 1 =? 0 then 0 else Z.lxor 0 p1)).
      destruct (Z.land p2 1 =? 0).
      * rewrite Z.lxor_0_l. reflexivity.
      * rewrite Z.lxor_0_l, Z.lxor_assoc. reflexivity.
Qed.

Lemma mult_loop_zero (f : nat) (p1 : Z) : AES.mult_loop f 0 p1 0 = 0.
Proof. destruct f; reflexivity. Qed.

Lemma land1_lxor (a b : Z) :
  Z.land (Z.lxor a b) 1 = Z.lxor (Z.land a 1) (Z.land b 1).
Proof.
  apply Z.bits_inj'. intros n Hn.
  rewrite Z.land_spec, !Z.lxor_spec, !Z.land_spec.
  destruct (Z.testbit a n), (Z.testbit b n), (Z.testbit 1 n); reflexivity.
Qed.

Lemma land1_cases (a : Z) : Z.land a 1 = 0 \/ Z.land a 1 = 1.
Proof.
  assert (E : Z.land a 1 = a mod 2)
    by (change 1 with (Z.ones 1); rewrite Z.land_ones by lia; reflexivity).
  rewrite E. pose proof (Z.mod_pos_bound a 2 ltac:(lia)). lia.
Qed.

(** The fuel-bounded loop is additive in its second operand. *)
Lemma mult_loop_lxor (f : nat) :
  forall p1 a b,
    AES.mult_loop f 0 p1 (Z.lxor a b)
    = Z.lxor (AES.mult_loop f 0 p1 a) (AES.mult_loop f 0 p1 b).
Proof.
  assert (Hstep : forall f p1 a,
             AES.mult_loop (S f) 0 p1 a
             = Z.lxor (if Z.land a 1 =? 0 then 0 else p1)
                      (AES.mult_loop f 0
                         (if Z.land (Z.shiftl p1 1) 0x100 =? 0 then Z.shiftl p1 1
                          else Z.lxor (Z.shiftl p1 1) 0x1b)
                         (Z.shiftr a 1))).
  { intros g p1 a. rewrite mult_loop_step.
    destruct (Z.eqb_spec a 0) as [->|Hne].
    - cbn [Z.land Z.eqb Z.shiftr Z.shiftl]. rewrite mult_loop_zero. reflexivity.
    - rewrite mult_loop_acc. destruct (Z.land a 1 =? 0);
        rewrite ?Z.lxor_0_l; reflexivity. }
  induction f as [|f IH]; intros p1 a b.
  - reflexivity.
  - rewrite !Hstep, Z.shiftr_lxor, IH, land1_lxor.
    destruct (land1_cases a) as [Ea|Ea], (land1_cases b) as [Eb|Eb];
      rewrite Ea, Eb; cbn [Z.lxor Z.eqb Pos.lxor];
      rewrite ?Z.lxor_0_l, ?Z.lxor_0_r; try reflexivity;
      xor_ac.
Qed.

Lemma land_lxor_distr (x y m : Z) :
  Z.land (Z.lxor x y) m = Z.lxor (Z.land x m) (Z.land y m).
Proof.
  apply Z.bits_inj'. intros n Hn.
  rewrite Z.land_spec, !Z.lxor_spec, !Z.land_spec.
  destruct (Z.testbit x n), (Z.testbit y n), (Z.testbit m n); reflexivity.
Qed.

Lemma gmul_lxor (c a b : Z) :
  gmul c (Z.lxor a b) = Z.lxor (gmul c a) (gmul c b).
Proof. unfold gmul. rewrite mult_loop_lxor. apply land_lxor_distr. Qed.

(** The products of the coefficients of [invMixColumns] and [mixColumns]:
    the identity on the diagonal, zero elsewhere. *)
Lemma mix_coefficients (x : Z) :
  byte x ->
  Z.lxor (Z.lxor (Z.lxor (gmul 14 (gmul 2 x)) (gmul 11 x)) (gmul 13 x))
         (gmul 9 (gmul 3 x)) = x /\
  Z.lxor (Z.lxor (Z.lxor (gmul 14 (gmul 3 x)) (gmul 11 (gmul 2 x))) (gmul 13 x))
         (gmul 9 x) = 0 /\
  Z.lxor (Z.lxor (Z.lxor (gmul 14 x) (gmul 11 (gmul 3 x))) (gmul 13 (gmul 2 x)))
         (gmul 9 x) = 0 /\
  Z.lxor (Z.lxor (Z.lxor (gmul 14 x) (gmul 11 x)) (gmul 13 (gmul 3 x)))
         (gmul 9 (gmul 2 x)) = 0.
Proof.
  intro Hx.
  assert (H : forallb
    (fun x =>
       (Z.lxor (Z.lxor (Z.lxor (gmul 14 (gmul 2 x)) (gmul 11 x)) (gmul 13 x))
               (gmul 9 (gmul 3 x)) =? x) &&
       (Z.lxor (Z.lxor (Z.lxor (gmul 14 (gmul 3 x)) (gmul 11 (gmul 2 x)))
                       (gmul 13 x)) (gmul 9 x) =? 0) &&
       (Z.lxor (Z.lxor (Z.lxor (gmul 14 x) (gmul 11 (gmul 3 x)))
                       (gmul 13 (gmul 2 x))) (gmul 9 x) =? 0) &&
       (Z.lxor (Z.lxor (Z.lxor (gmul 14 x) (gmul 11 x)) (gmul 13 (gmul 3 x)))
               (gmul 9 (gmul 2 x)) =? 0))
    (range 0 256 1) = true) by (vm_compute; reflexivity).
  pose proof (forall_bytes _ H x Hx) as E. cbv beta in E.
  repeat (apply andb_true_iff in E; destruct E as [E ?]).
  repeat split; apply Z.eqb_eq; assumption.
Qed.

(** One column through [mixColumns] and back through [invMixColumns]. *)
Lemma column_inverse (a b c d : Z) :
  byte a -> byte b -> byte c -> byte d ->
  let a' := Z.lxor (Z.lxor (Z.lxor (gmul 2 a) (gmul 3 b)) c) d in
  let b' := Z.lxor (Z.lxor (Z.lxor a (gmul 2 b)) (gmul 3 c)) d in
  let c' := Z.lxor (Z.lxor (Z.lxor a b) (gmul 2 c)) (gmul 3 d) in
  let d' := Z.lxor (Z.lxor (Z.lxor (gmul 3 a) b) c) (gmul 2 d) in
  Z.lxor (Z.lxor (Z.lxor (gmul 14 a') (gmul 11 b')) (gmul 13 c')) (gmul 9 d') = a /\
  Z.lxor (Z.lxor (Z.lxor (gmul 9 a') (gmul 14 b')) (gmul 11 c')) (gmul 13 d') = b /\
  Z.lxor (Z.lxor (Z.lxor (gmul 13 a') (gmul 9 b')) (gmul 14 c')) (gmul 11 d') = c /\
  Z.lxor (Z.lxor (Z.lxor (gmul 11 a') (gmul 13 b')) (gmul 9 c')) (gmul 14 d') = d.
Proof.
  intros Ha Hb Hc Hd. cbv zeta. rewrite !gmul_lxor.
  destruct (mix_coefficients a Ha) as (A1 & A2 & A3 & A4).
  destruct (mix_coefficients b Hb) as (B1 & B2 & B3 & B4).
  destruct (mix_coefficients c Hc) as (C1 & C2 & C3 & C4).
  destruct (mix_coefficients d Hd) as (D1 & D2 & D3 & D4).
  repeat split.
  - solve_row A1 B2 C3 D4.
  - solve_row A4 B1 C2 D3.
  - solve_row A3 B4 C1 D2.
  - solve_row A2 B3 C4 D1.
Qed.

End Inverses.

(** ** [decryptBlock] inverts [encryptBlock] *)
Section BlockInverse.

Lemma mixRow_value (f0 f1 f2 f3 : Z -> outcome Z) (g0 g1 g2 g3 : Z -> Z)
  (s : list Z) :
  block s ->
  (forall y, byte y -> f0 y = Ok (g0 y)) ->
  (forall y, byte y -> f1 y = Ok (g1 y)) ->
  (forall y, byte y -> f2 y = Ok (g2 y)) ->
  (forall y, byte y -> f3 y = Ok (g3 y)) ->
  AES.mixRow f0 f1 f2 f3 s = Ok (mix_row_value g0 g1 g2 g3 s).
Proof.
  intros Hb H0 H1 H2 H3. pose proof (block_len s Hb) as Hl.
  destruct Hb as [Hlen Hbytes].
  assert (Hnth : forall i, 0 <= i < 16 -> byte (nth (Z.to_nat i) s 0)).
  { intros i Hi. apply Forall_nth; [exact Hbytes | lia]. }
  unfold AES.mixRow, mix_row_value.
  change (range 0 4 1) with [0; 1; 2; 3]. cbn [mapM map].
  repeat (rewrite (getitem_ok s _ 0) by (rewrite Hl; lia); cbn [bind];
          first [rewrite H0 by (apply Hnth; lia)
                |rewrite H1 by (apply Hnth; lia)
                |rewrite H2 by (apply Hnth; lia)
                |rewrite H3 by (apply Hnth; lia)];
          cbn [bind]).
  reflexivity.
Qed.

Lemma keep_value (y : Z) : byte y -> AES.x1 y = Ok (keep y).
Proof. reflexivity. Qed.

Lemma mixColumns_value (s : list Z) :
  block s -> AES.mixColumns s = Ok (mix_value s).
Proof.
  intro Hb. unfold AES.mixColumns, mix_value, AES.x2, AES.x3.
  rewrite (mixRow_value _ _ _ _ (gmul 2) (gmul 3) keep keep s Hb)
    by (intros; first [apply mult_byte | apply keep_value]; assumption).
  rewrite (mixRow_value _ _ _ _ keep (gmul 2) (gmul 3) keep s Hb)
    by (intros; first [apply mult_byte | apply keep_value]; assumption).
  rewrite (mixRow_value _ _ _ _ keep keep (gmul 2) (gmul 3) s Hb)
    by (intros; first [apply mult_byte | apply keep_value]; assumption).
  rewrite (mixRow_value _ _ _ _ (gmul 3) keep keep (gmul 2) s Hb)
    by (intros; first [apply mult_byte | apply keep_value]; assumption).
  reflexivity.
Qed.

Lemma invMixColumns_value (s : list Z) :
  block s -> AES.invMixColumns s = Ok (inv_mix_value s).
Proof.
  intro Hb.
  unfold AES.invMixColumns, inv_mix_value, AES.x9, AES.x11, AES.x13, AES.x14.
  rewrite (mixRow_value _ _ _ _ (gmul 14) (gmul 11) (gmul 13) (gmul 9) s Hb)
    by (intros; apply mult_byte; assumption).
  rewrite (mixRow_value _ _ _ _ (gmul 9) (gmul 14) (gmul 11) (gmul 13) s Hb)
    by (intros; apply mult_byte; assumption).
  rewrite (mixRow_value _ _ _ _ (gmul 13) (gmul 9) (gmul 14) (gmul 11) s Hb)
    by (intros; apply mult_byte; assumption).
  rewrite (mixRow_value _ _ _ _ (gmul 11) (gmul 13) (gmul 9) (gmul 14) s Hb)
    by (intros; apply mult_byte; assumption).
  reflexivity.
Qed.

Lemma mix_value_inverse (s : list Z) :
  block s -> inv_mix_value (mix_value s) = s.
Proof.
  intros [Hlen Hb]. explode16 s Hlen. unfold bytes in Hb.
  repeat match goal with
         | H : Forall _ (_ :: _) |- _ => inversion H; clear H; subst
         end.
  match goal with
  | |- inv_mix_value (mix_value [?a0; ?a1; ?a2; ?a3; ?a4; ?a5; ?a6; ?a7;
                                 ?a8; ?a9; ?a10; ?a11; ?a12; ?a13; ?a14; ?a15]) = _ =>
      pose proof (column_inverse a0 a4 a8 a12) as C0;
      pose proof (column_inverse a1 a5 a9 a13) as C1;
      pose proof (column_inverse a2 a6 a10 a14) as C2;
      pose proof (column_inverse a3 a7 a11 a15) as C3
  end.
  repeat match goal with
         | C : byte _ -> _ |- _ =>
             let B := fresh in
             assert (B := C ltac:(assumption)); clear C
         end.
  cbv zeta in *.
  repeat match goal with
         | C : _ /\ _ |- _ => destruct C
         end.
  cbv -[gmul Z.lxor].
  repeat (f_equal; try assumption).
Qed.

Lemma mix_value_block (s : list Z) : block s -> block (mix_value s).
Proof.
  intro Hb. destruct (mixColumns_returns s Hb) as (t & E & Ht).
  rewrite (mixColumns_value s Hb) in E. congruence.
Qed.

Lemma mixColumns_inverse (s : list Z) :
  block s ->
  exists t, AES.mixColumns s = Ok t /\ block t /\ AES.invMixColumns t = Ok s.
Proof.
  intro Hb. exists (mix_value s). split; [apply mixColumns_value, Hb|].
  split; [apply mix_value_block, Hb|].
  rewrite invMixColumns_value by (apply mix_value_block, Hb).
  f_equal. apply mix_value_inverse, Hb.
Qed.

(** The round key read at index [i] of the schedule. *)
Lemma next_key (e : AES.t) (ks : AES.keysize) (i : Z) :
  List.length (AES.w e) = 60%nat ->
  (forall k, (k < Z.to_nat (AES.wordSizeTable ks))%nat ->
             exists n, nth_error (AES.w e) k = Some (Some n)) ->
  0 <= i -> i + 4 <= AES.wordSizeTable ks ->
  exists k, block k /\
            forall rest, AES.next e (AES.Running (i :: rest))
                         = Ok (k, AES.Running rest).
Proof.
  intros Hlen Hw Hi Hws.
  destruct (keyed_slice e ks i Hlen Hw Hi Hws) as (a & b & c & d & E).
  destruct (wordToState_returns a b c d) as (k & Ek & Hk).
  exists k. split; [exact Hk|]. intro rest.
  unfold AES.next. cbn [bind]. rewrite E, Ek. reflexivity.
Qed.

Lemma range_snoc (a b st : Z) :
  0 < st -> a <= b -> (b - a) mod st = 0 ->
  range a (b + st) st = range a b st ++ [b].
Proof.
  intros Hst Hab Hm. unfold range.
  pose proof (Z.div_mod (b - a) st ltac:(lia)) as Hd. rewrite Hm in Hd.
  assert (Hq : 0 <= (b - a) / st) by (apply Z.div_pos; lia).
  assert (E1 : (b - a + st - 1) / st = (b - a) / st).
  { replace (b - a + st - 1) with ((st - 1) + ((b - a) / st) * st) by lia.
    rewrite Z.div_add by lia. rewrite Z.div_small by lia. lia. }
  assert (E2 : (b + st - a + st - 1) / st = (b - a) / st + 1).
  { replace (b + st - a + st - 1)
      with ((st - 1) + ((b - a) / st + 1) * st) by lia.
    rewrite Z.div_add by lia. rewrite Z.div_small by lia. lia. }
  rewrite E1, E2.
  replace (Z.to_nat ((b - a) / st + 1)) with (Z.to_nat ((b - a) / st) + 1)%nat
    by lia.
  rewrite seq_app, map_app. cbn [seq map]. f_equal. f_equal. lia.
Qed.

Lemma repeatM_snoc {S} (n : nat) (body : S -> outcome S) (s : S) :
  AES.repeatM (Datatypes.S n) body s = bind (AES.repeatM n body s) body.
Proof.
  revert s. induction n as [|n IH]; intro s.
  - cbn [AES.repeatM bind]. destruct (body s); reflexivity.
  - change (AES.repeatM (Datatypes.S (Datatypes.S n)) body s)
      with (bind (body s) (AES.repeatM (Datatypes.S n) body)).
    cbn [AES.repeatM]. rewrite bind_assoc. apply bind_ext. intro s'.
    rewrite <- IH. reflexivity.
Qed.

(** The decryption keys still to come, before the round that undoes
    encryption round [j+1]: indices [4j, 4(j-1), ..., 0]. *)
Lemma rev_keys_cons (j : Z) :
  0 <= j ->
  rev (range 0 (4 * (j + 1)) 4) = 4 * j :: rev (range 0 (4 * j) 4).
Proof.
  intro Hj. replace (4 * (j + 1)) with (4 * j + 4) by lia.
  rewrite range_snoc; [|lia|lia|].
  - rewrite rev_app_distr. reflexivity.
  - replace (4 * j - 0) with (j * 4) by lia. apply Z.mod_mul. lia.
Qed.

(** [n] encryption rounds from round [j], and the [n] decryption rounds
    that undo them. *)
Lemma rounds_inverse (e : AES.t) (ks : AES.keysize) :
  List.length (AES.w e) = 60%nat ->
  (forall k, (k < Z.to_nat (AES.wordSizeTable ks))%nat ->
             exists n, nth_error (AES.w e) k = Some (Some n)) ->
  forall (n : nat) (j : Z) (s : list Z),
    block s -> 0 <= j ->
    j + Z.of_nat n + 1 <= AES.numberOfRoundsTable ks ->
    exists s',
      block s' /\
      AES.repeatM n (enc_round e)
        (s, AES.Running (range (4 * (j + 1)) (AES.wordSizeTable ks) 4))
      = Ok (s', AES.Running (range (4 * (j + Z.of_nat n + 1))
                                   (AES.wordSizeTable ks) 4)) /\
      forall u u',
        AES.subBytes s = Ok u -> AES.subBytes s' = Ok u' ->
        AES.repeatM n (dec_round e)
          (AES.shiftRows u',
           AES.Running (rev (range 0 (4 * (j + Z.of_nat n + 1)) 4)))
        = Ok (AES.shiftRows u, AES.Running (rev (range 0 (4 * (j + 1)) 4))).
Proof.
  intros Hlen Hw. destruct (rounds_words ks) as [Ews _].
  induction n as [|n IH]; intros j s Hs Hj Hn.
  - exists s. split; [exact Hs|]. cbn [AES.repeatM].
    replace (j + Z.of_nat 0 + 1) with (j + 1) by lia.
    split; [reflexivity|]. intros u u' Eu Eu'. congruence.
  - (* the first encryption round *)
    destruct (subBytes_inverse s Hs) as (u & Eu & Hu & Iu).
    pose proof (shiftRows_block u Hu) as Hsr.
    destruct (mixColumns_inverse _ Hsr) as (m & Em & Hm & Im).
    destruct (next_key e ks (4 * (j + 1)) Hlen Hw ltac:(lia) ltac:(lia))
      as (k & Hk & Ek).
    pose proof (addRoundKey_block k m Hk Hm) as Hs1.
    destruct (IH (j + 1) (AES.addRoundKey k m) Hs1 ltac:(lia) ltac:(lia))
      as (s' & Hs' & Eenc & Edec).
    exists s'. split; [exact Hs'|]. split.
    + cbn [AES.repeatM]. unfold enc_round at 1. rewrite Eu. cbn [bind].
      rewrite Em. cbn [bind].
      rewrite (range_cons (4 * (j + 1))) by lia. rewrite Ek. cbn [bind].
      replace (4 * (j + 1) + 4) with (4 * (j + 1 + 1)) by lia.
      rewrite Eenc.
      replace (j + Z.of_nat (S n) + 1) with (j + 1 + Z.of_nat n + 1) by lia.
      reflexivity.
    + intros u0 u' Eu0 Eu'. rewrite Eu in Eu0. inversion Eu0; subst u0.
      rewrite repeatM_snoc.
      destruct (subBytes_inverse _ Hs1) as (u1 & Eu1 & Hu1 & Iu1).
      replace (j + Z.of_nat (S n) + 1) with (j + 1 + Z.of_nat n + 1) by lia.
      rewrite (Edec u1 u' Eu1 Eu'). cbn [bind]. unfold dec_round.
      rewrite (proj1 (shiftRows_inverse u1 (proj1 Hu1))), Iu1. cbn [bind].
      rewrite (rev_keys_cons (j + 1)) by lia. rewrite Ek. cbn [bind].
      rewrite addRoundKey_involution
        by (rewrite (proj1 Hk), (proj1 Hm); lia).
      rewrite Im. reflexivity.
Qed.

Lemma encryptBlock_rounds (e : AES.t) (b : list Z) :
  AES.encryptBlock e b
  = (state <- AES.listToState b ;;
     r <- AES.next e (AES.getKey AES.encryption) ;;
     nr <- AES.int_attr (AES.numberOfRounds e) ;;
     r <- AES.repeatM (Z.to_nat (nr - 1)) (enc_round e)
            (AES.addRoundKey (fst r) state, snd r) ;;
     state <- AES.subBytes (fst r) ;;
     r' <- AES.next e (snd r) ;;
     AES.stateToList (AES.addRoundKey (fst r') (AES.shiftRows state))).
Proof.
  unfold AES.encryptBlock. apply bind_ext. intro st.
  apply bind_ext. intros [k g]. apply bind_ext. intro nr.
  cbn [fst snd]. apply bind_ext. intros [s g']. cbn [fst snd].
  apply bind_ext. intro u. apply bind_ext. intros [k' g'']. reflexivity.
Qed.

Lemma decryptBlock_rounds (e : AES.t) (c : list Z) :
  AES.decryptBlock e c
  = (state <- AES.listToState c ;;
     r <- AES.next e (AES.getKey AES.decryption) ;;
     nr <- AES.int_attr (AES.numberOfRounds e) ;;
     r <- AES.repeatM (Z.to_nat (nr - 1)) (dec_round e)
            (AES.addRoundKey (fst r) state, snd r) ;;
     state <- AES.invSubBytes (AES.invShiftRows (fst r)) ;;
     r' <- AES.next e (snd r) ;;
     AES.stateToList (AES.addRoundKey (fst r') state)).
Proof.
  unfold AES.decryptBlock. apply bind_ext. intro st.
  apply bind_ext. intros [k g]. apply bind_ext. intro nr.
  cbn [fst snd]. apply bind_ext. intros [s g']. cbn [fst snd].
  apply bind_ext. intro u. apply bind_ext. intros [k' g'']. reflexivity.
Qed.

Lemma stateToList_listToState (l : list Z) :
  List.length l = 16%nat ->
  exists st, AES.stateToList l = Ok st /\ List.length st = 16%nat /\
             AES.listToState st = Ok l.
Proof. apply listToState_involution. Qed.

(** On a keyed engine [encryptBlock] maps a 16-byte block to a 16-byte
    block that [decryptBlock] maps back. *)
Lemma block_round_trip (e : AES.t) (b : list Z) :
  keyed e -> block b ->
  exists c, AES.encryptBlock e b = Ok c /\ block c /\
            AES.decryptBlock e c = Ok b.
Proof.
  intros (ks & Hws & Hnr & _ & Hlen & Hw) Hb.
  destruct (rounds_words ks) as [Ews Hnr1].
  set (nr := AES.numberOfRoundsTable ks) in *.
  set (ws := AES.wordSizeTable ks) in *.
  (* encryption *)
  destruct (listToState_involution b (proj1 Hb)) as (st & Est & Lst & Ist).
  assert (Hst : block st).
  { destruct (listToState_returns b Hb) as (st' & E' & H'). congruence. }
  destruct (next_key e ks 0 Hlen Hw ltac:(lia) ltac:(fold ws; lia))
    as (k0 & Hk0 & Ek0).
  pose proof (addRoundKey_block k0 st Hk0 Hst) as Hs0.
  destruct (rounds_inverse e ks Hlen Hw (Z.to_nat (nr - 1)) 0
              (AES.addRoundKey k0 st) Hs0 ltac:(lia) ltac:(fold nr; lia))
    as (s' & Hs' & Eenc & Edec).
  fold ws in Eenc. rewrite Z2Nat.id in Eenc, Edec by lia.
  replace (0 + (nr - 1) + 1) with nr in Eenc, Edec by lia.
  destruct (subBytes_inverse s' Hs') as (u' & Eu' & Hu' & Iu').
  destruct (next_key e ks (4 * nr) Hlen Hw ltac:(lia) ltac:(fold ws; lia))
    as (kn & Hkn & Ekn).
  pose proof (shiftRows_block u' Hu') as Hsr.
  pose proof (addRoundKey_block kn _ Hkn Hsr) as Hcs.
  destruct (stateToList_listToState _ (proj1 Hcs)) as (c & Ec & Lc & Ic).
  assert (Hc : block c).
  { destruct (listToState_returns _ Hcs) as (c' & E' & H').
    unfold AES.stateToList in Ec. congruence. }
  assert (Estart : AES.next e (AES.getKey AES.encryption)
                   = Ok (k0, AES.Running (range 4 ws 4))).
  { unfold AES.next, AES.getKey. rewrite Hws. cbn [AES.int_attr bind].
    fold ws. rewrite (range_cons 0) by lia.
    specialize (Ek0 (range (0 + 4) ws 4)). unfold AES.next in Ek0.
    cbn [bind] in Ek0. exact Ek0. }
  exists c. split; [|split; [exact Hc|]].
  - rewrite encryptBlock_rounds, Est. cbn [bind]. rewrite Estart.
    cbn [bind fst snd]. rewrite Hnr. cbn [AES.int_attr bind]. fold nr.
    change (4 * (0 + 1)) with 4 in Eenc. rewrite Eenc. cbn [bind fst snd].
    rewrite Eu'. cbn [bind].
    rewrite (range_cons (4 * nr)) by lia. rewrite Ekn. cbn [bind fst].
    exact Ec.
  - (* decryption *)
    destruct (subBytes_inverse _ Hs0) as (u0 & Eu0 & Hu0 & Iu0).
    specialize (Edec u0 u' Eu0 Eu').
    assert (Edstart : AES.next e (AES.getKey AES.decryption)
                      = Ok (kn, AES.Running (rev (range 0 (4 * nr) 4)))).
    { unfold AES.next, AES.getKey. rewrite Hws. cbn [AES.int_attr bind].
      fold ws. replace ws with (4 * (nr + 1)) by lia.
      rewrite (rev_keys_cons nr) by lia.
      specialize (Ekn (rev (range 0 (4 * nr) 4))). unfold AES.next in Ekn.
      cbn [bind] in Ekn. exact Ekn. }
    rewrite decryptBlock_rounds, Ic. cbn [bind]. rewrite Edstart.
    cbn [bind fst snd]. rewrite Hnr. cbn [AES.int_attr bind]. fold nr.
    rewrite addRoundKey_involution by (rewrite (proj1 Hkn), (proj1 Hsr); lia).
    rewrite Edec. cbn [bind fst snd].
    rewrite (proj1 (shiftRows_inverse u0 (proj1 Hu0))), Iu0. cbn [bind].
    change (4 * (0 + 1)) with (4 * (0 + 1)).
    rewrite (rev_keys_cons 0) by lia.
    change (4 * 0) with 0. rewrite Ek0. cbn [bind fst].
    rewrite addRoundKey_involution by (rewrite (proj1 Hk0), (proj1 Hst); lia).
    exact Ist.
Qed.

End BlockInverse.

(** ** [decrypt] inverts [encrypt] in ECB and CBC mode *)
Section ModeRoundTrip.

Lemma Ok_inj {A} (a b : A) : Ok a = Ok b -> a = b.
Proof. congruence. Qed.

Lemma ecb_loops_inverse (e : AES.t) (x : list Z) (k : nat) :
  keyed e ->
  forall (l acc acc' : list Z),
    List.length l = (16 * k)%nat -> bytes l ->
    exists c,
      bytes c /\ List.length c = List.length l /\
      AES.for_blocks l (AES.ecb_encrypt_step e) acc = Ok (acc ++ c) /\
      AES.for_blocks c (AES.ecb_decrypt_step e (PyList x)) acc'
      = Ok (acc' ++ l).
Proof.
  intro Hk. induction k as [|k IH]; intros l acc acc' Hl Hb.
  - destruct l; [|discriminate Hl]. exists []. rewrite !app_nil_r.
    repeat split. constructor.
  - destruct (split_block l k Hl) as (b & r & -> & Lb & Lr).
    apply Forall_app in Hb. destruct Hb as [Bb Br].
    destruct (block_round_trip e b Hk (conj Lb Bb)) as (c1 & E1 & Hc1 & D1).
    destruct (IH r (acc ++ c1) (acc' ++ b) Lr Br) as (c & Bc & Lc & Ec & Dc).
    exists (c1 ++ c). split; [apply bytes_app; [apply Hc1 | exact Bc]|].
    split; [rewrite !length_app, (proj1 Hc1); lia|]. split.
    + rewrite for_blocks_cons by exact Lb.
      unfold AES.ecb_encrypt_step at 1. rewrite E1. cbn [bind].
      rewrite Ec, app_assoc. reflexivity.
    + rewrite for_blocks_cons by apply Hc1.
      unfold AES.ecb_decrypt_step at 1. cbn [AES.decryptSlice].
      rewrite D1. cbn [bind]. rewrite Dc, app_assoc. reflexivity.
Qed.

Lemma cbc_loops_inverse (e : AES.t) (x : list Z) (k : nat) :
  keyed e ->
  forall (l iv acc acc' : list Z),
    List.length l = (16 * k)%nat -> bytes l -> block iv ->
    exists c,
      bytes c /\ List.length c = List.length l /\
      AES.for_blocks l (AES.cbc_encrypt_step e) (Some iv, acc)
      = Ok (Some (last_block (iv ++ c)), acc ++ c) /\
      AES.for_blocks c (AES.cbc_decrypt_step e (PyList x)) (Some iv, acc')
      = Ok (Some (last_block (iv ++ c)), acc' ++ l).
Proof.
  intro Hk. induction k as [|k IH]; intros l iv acc acc' Hl Hb Hiv.
  - destruct l; [|discriminate Hl]. exists []. rewrite !app_nil_r.
    assert (E : last_block iv = iv)
      by (unfold last_block; rewrite (proj1 Hiv); reflexivity).
    rewrite E. repeat split. constructor.
  - destruct (split_block l k Hl) as (b & r & -> & Lb & Lr).
    apply Forall_app in Hb. destruct Hb as [Bb Br].
    pose proof (addRoundKey_block iv b Hiv (conj Lb Bb)) as Haux.
    destruct (block_round_trip e _ Hk Haux) as (c1 & E1 & Hc1 & D1).
    destruct (IH r c1 (acc ++ c1) (acc' ++ b) Lr Br Hc1)
      as (c & Bc & Lc & Ec & Dc).
    assert (Elast : last_block (iv ++ c1 ++ c) = last_block (c1 ++ c)).
    { unfold last_block. rewrite !length_app, (proj1 Hiv), (proj1 Hc1).
      rewrite skipn_app, (proj1 Hiv).
      rewrite skipn_all2 by (rewrite (proj1 Hiv); lia).
      cbn [app]. f_equal; lia. }
    exists (c1 ++ c). split; [apply bytes_app; [apply Hc1 | exact Bc]|].
    split; [rewrite !length_app, (proj1 Hc1); lia|]. split.
    + rewrite for_blocks_cons by exact Lb.
      unfold AES.cbc_encrypt_step at 1. cbn [AES.seq_attr bind].
      unfold AES.xorLists. rewrite E1. cbn [bind].
      rewrite Ec, Elast, app_assoc. reflexivity.
    + rewrite for_blocks_cons by apply Hc1.
      unfold AES.cbc_decrypt_step at 1. cbn [AES.decryptSlice].
      rewrite D1. cbn [bind AES.seq_attr]. unfold AES.xorLists.
      rewrite addRoundKey_involution by (rewrite (proj1 Hiv), Lb; lia).
      rewrite Dc, Elast, app_assoc. reflexivity.
Qed.

(** What [padData] appends to a byte string. *)
Lemma padData_bytes_value (e : AES.t) (d : list Z) :
  AES.padData e (PyBytes d) = Ok (d ++ padding_of e d).
Proof.
  pose proof (padlen_cases (len d) (len_nonneg d)) as (H1 & H2 & _).
  unfold AES.padData, padding_of. destruct (AES.padding e);
    rewrite bytes_of_ok by (apply bytes_repeat; unfold byte; lia);
    reflexivity.
Qed.

Lemma padding_of_shape (e : AES.t) (d : list Z) :
  bytes (padding_of e d) /\ aligned (d ++ padding_of e d) /\
  len (padding_of e d) <= 16 /\
  (AES.padding e = AES.NoPadding -> aligned d -> padding_of e d = []).
Proof.
  pose proof (padlen_cases (len d) (len_nonneg d))
    as (H1 & H2 & H3 & H4 & H5).
  assert (Hlen : forall v, 0 <= v -> len (repeat v (Z.to_nat v)) = v)
    by (intros v Hv; unfold len; rewrite repeat_length; lia).
  unfold padding_of, aligned. rewrite len_app.
  destruct (AES.padding e); rewrite Hlen by lia.
  - split; [apply bytes_repeat; unfold byte; lia|].
    split; [exact H4|]. split; [lia|].
    intros _ Ha. rewrite (H5 Ha). reflexivity.
  - split; [apply bytes_repeat; unfold byte; lia|].
    split; [exact H3|]. split; [lia|]. discriminate.
Qed.

(** [unpadData] with PKCS5Padding on data that ends in the byte [n]. *)
Lemma unpadData_value (e : AES.t) (l : list Z) (n : Z) :
  AES.padding e = AES.PKCS5Padding -> bytes (l ++ [n]) ->
  AES.unpadData e (l ++ [n])
  = Ok (if n =? 0 then []
        else firstn (List.length (l ++ [n]) - Z.to_nat n) (l ++ [n])).
Proof.
  intros Hp Hb. unfold AES.unpadData. rewrite Hp.
  assert (Hn : byte n).
  { apply Forall_app in Hb. destruct Hb as [_ Hb]. inversion Hb. assumption. }
  assert (Hlen : len (l ++ [n]) = len l + 1)
    by (rewrite len_app; reflexivity).
  pose proof (len_nonneg l) as Hl0.
  assert (Hget : getitem (l ++ [n]) (-1) = Ok n).
  { unfold getitem. cbn [Z.ltb Z.compare]. rewrite Hlen.
    destruct (Z.ltb_spec (-1 + (len l + 1)) 0); [lia|].
    replace (Z.to_nat (-1 + (len l + 1))) with (List.length l)
      by (unfold len; lia).
    rewrite nth_error_app2, Nat.sub_diag by lia. reflexivity. }
  rewrite Hget. cbn [bind]. rewrite mapM_chr_bytes by (apply Forall_slice, Hb).
  f_equal. unfold slice, clamp. rewrite Hlen. cbn [skipn Z.to_nat].
  unfold byte in Hn. destruct (Z.eqb_spec n 0) as [->|Hne].
  - change (- 0) with 0. cbn [Z.ltb Z.compare].
    rewrite Z.min_l by lia. reflexivity.
  - destruct (Z.ltb_spec (- n) 0); [|lia]. f_equal.
    rewrite length_app. cbn [List.length]. unfold len. lia.
Qed.

(** Removing PKCS5 padding from padded data gives the data back. *)
Lemma unpad_pad (e : AES.t) (d : list Z) :
  AES.padding e = AES.PKCS5Padding -> bytes d ->
  AES.unpadData e
    (d ++ repeat (16 - len d mod 16) (Z.to_nat (16 - len d mod 16)))
  = Ok d.
Proof.
  intros Hp Hd. pose proof (padlen_cases (len d) (len_nonneg d)) as (H1 & _).
  set (n := 16 - len d mod 16) in *.
  assert (En : Z.to_nat n = S (Z.to_nat (n - 1))) by lia.
  assert (Er : repeat n (Z.to_nat n) = repeat n (Z.to_nat (n - 1)) ++ [n]).
  { rewrite En. change [n] with (repeat n 1). rewrite <- repeat_app.
    f_equal. lia. }
  rewrite Er, app_assoc. rewrite unpadData_value.
  - destruct (Z.eqb_spec n 0); [lia|]. f_equal.
    rewrite <- app_assoc, !length_app, repeat_length. cbn [List.length].
    replace (List.length d + (Z.to_nat (n - 1) + 1) - Z.to_nat n)%nat
      with (List.length d + 0)%nat by lia.
    rewrite firstn_app_2. cbn [firstn]. apply app_nil_r.
  - exact Hp.
  - rewrite <- app_assoc, <- Er. apply bytes_app; [exact Hd|].
    apply bytes_repeat. unfold byte. lia.
Qed.

Lemma encrypt_bytes_unfold (e : AES.t) (d inList : list Z) :
  AES.keyDefined e = true -> AES.padData e (PyBytes d) = Ok inList ->
  AES.encrypt e (PyBytes d)
  = match AES.cipherMode e with
    | AES.MODE_CBC =>
        r <- AES.for_blocks inList (AES.cbc_encrypt_step e)
               (AES.ivEncrypt e, []) ;;
        Ok (PyList (snd r), AES.set_ivEncrypt e (fst r))
    | AES.MODE_ECB =>
        outList <- AES.for_blocks inList (AES.ecb_encrypt_step e) [] ;;
        Ok (PyList outList, e)
    end.
Proof.
  intros Hkd Hpad. unfold AES.encrypt. rewrite Hkd. cbn [negb].
  rewrite Hpad. cbn [bind]. destruct (AES.cipherMode e).
  - rewrite bind_assoc. apply bind_ext. intro o. reflexivity.
  - rewrite bind_assoc. apply bind_ext. intros [ob out]. reflexivity.
Qed.

Lemma decrypt_list_unfold (e : AES.t) (c : list Z) :
  AES.keyDefined e = true ->
  AES.decrypt e (PyList c)
  = match AES.cipherMode e with
    | AES.MODE_CBC =>
        r <- AES.for_blocks c (AES.cbc_decrypt_step e (PyList c))
               (AES.ivDecrypt e, []) ;;
        s <- AES.unpadData e (snd r) ;;
        Ok (PyStr s, AES.set_ivDecrypt e (fst r))
    | AES.MODE_ECB =>
        outList <- AES.for_blocks c (AES.ecb_decrypt_step e (PyList c)) [] ;;
        s <- AES.unpadData e outList ;;
        Ok (PyStr s, e)
    end.
Proof.
  intro Hkd. unfold AES.decrypt. rewrite Hkd. cbn [negb bind].
  destruct (AES.cipherMode e).
  - rewrite bind_assoc. apply bind_ext. intro o. reflexivity.
  - rewrite bind_assoc. apply bind_ext. intros [ob out]. reflexivity.
Qed.

(** What [unpadData] makes of the data [padData] produced: with
    PKCS5Padding the padding is removed, with NoPadding it stays. *)
Lemma unpad_after_pad (e : AES.t) (d : list Z) :
  bytes d ->
  AES.unpadData e (d ++ padding_of e d) = Ok (d ++ unpadded_tail e d).
Proof.
  intro Hd. destruct (padding_of_shape e d) as (Hb & _).
  unfold unpadded_tail. destruct (AES.padding e) eqn:Ep.
  - unfold AES.unpadData. rewrite Ep. apply mapM_chr_bytes.
    apply bytes_app; assumption.
  - rewrite app_nil_r. unfold padding_of. rewrite Ep.
    apply unpad_pad; assumption.
Qed.

Lemma ecb_round_trip (e : AES.t) (d : list Z) :
  keyed e -> AES.cipherMode e = AES.MODE_ECB -> bytes d ->
  exists c,
    AES.encrypt e (PyBytes d) = Ok (PyList c, e) /\
    bytes c /\ len c = len d + len (padding_of e d) /\
    AES.decrypt e (PyList c) = Ok (PyStr (d ++ unpadded_tail e d), e).
Proof.
  intros Hk Hm Hd. pose proof Hk as (ks & _ & _ & Hkd & _).
  destruct (padding_of_shape e d) as (Bp & Al & _).
  set (l := d ++ padding_of e d) in *.
  assert (Bl : bytes l) by (apply bytes_app; assumption).
  destruct (ecb_loops_inverse e [] (Z.to_nat (len l / 16)) Hk l [] []
              (aligned_length l Al) Bl) as (c & Bc & Lc & Ec & Dc).
  cbn [app] in Ec, Dc.
  exists c. split; [|split; [exact Bc|split]].
  - rewrite (encrypt_bytes_unfold e d l Hkd (padData_bytes_value e d)).
    rewrite Hm, Ec. reflexivity.
  - unfold len in *. rewrite Lc. unfold l. rewrite length_app. lia.
  - rewrite (decrypt_list_unfold e c Hkd), Hm.
    assert (Dc' : AES.for_blocks c (AES.ecb_decrypt_step e (PyList c)) []
                  = Ok l) by exact Dc.
    rewrite Dc'. cbn [bind]. unfold l.
    rewrite (unpad_after_pad e d Hd). reflexivity.
Qed.

End ModeRoundTrip.

(** ** [GCM_decrypt] accepts and inverts [GCM_encrypt] *)
Section GCMRoundTrip.

Lemma xor_list_cancel (e : list Z) :
  forall b, (List.length b <= List.length e)%nat ->
            xor_list e (xor_list e b) = b.
Proof.
  unfold xor_list. induction e as [|a e IH]; intros [|c b] Hl;
    try reflexivity; cbn [List.length] in Hl; [lia|].
  cbn [combine map]. rewrite IH by lia. f_equal.
  rewrite <- Z.lxor_assoc, Z.lxor_nilpotent. apply Z.lxor_0_l.
Qed.

Lemma xor_list_length (e b : list Z) :
  (List.length b <= List.length e)%nat ->
  List.length (xor_list e b) = List.length b.
Proof.
  intro H. unfold xor_list. rewrite length_map, length_combine. lia.
Qed.

Lemma gcm_xor_value (x y : list Z) :
  bytes x -> bytes y ->
  AES_GCM.xor x y = Ok (xor_list x y) /\ bytes (xor_list x y).
Proof.
  intros Hx Hy. destruct (gcm_xor_returns x y Hx Hy) as (r & E & Hr & _).
  unfold AES_GCM.xor in *. fold (xor_list x y) in *.
  unfold bytes_of in *. destruct (forallb is_byte (xor_list x y));
    [|discriminate E].
  apply Ok_inj in E. subst r. split; [reflexivity | exact Hr].
Qed.

(** One iteration of the loop of [GCM_crypt]: the counter is incremented,
    encrypted, and XORed on the slice of the input. *)
Lemma GCM_crypt_step_value (obj : AES.t) (y : list Z) :
  keyed obj -> AES.cipherMode obj = AES.MODE_ECB ->
  AES.padding obj = AES.NoPadding -> block y ->
  exists y' e,
    block y' /\ block e /\
    forall input out i,
      bytes input ->
      AES_GCM.GCM_crypt_step input (obj, y, out) i
      = Ok (obj, y',
            out ++ xor_list e (slice input (Some i)
                                     (Some (Z.min (i + 16) (len input))))).
Proof.
  intros Hk Hm Hp Hy.
  destruct (incr_returns y Hy) as (y' & Ey & Hy').
  destruct (encrypt_ecb_block obj y' Hk Hm Hp Hy')
    as ([o obj'] & Ee & Eo & e & Eh & He).
  cbn [fst snd] in Eo, Eh. subst o obj'.
  exists y', e. split; [exact Hy'|]. split; [exact He|].
  intros input out i Hin. unfold AES_GCM.GCM_crypt_step.
  rewrite Ey. cbn [bind]. rewrite Ee. cbn [bind bytes_from].
  rewrite bytes_of_ok by apply He. cbn [bind].
  destruct (gcm_xor_value e (slice input (Some i)
                                   (Some (Z.min (i + 16) (len input))))
              (proj2 He) (bytes_slice _ _ _ Hin)) as [Ex Hx].
  rewrite Ex. cbn [bind]. rewrite (bytes_of_ok _ Hx). reflexivity.
Qed.

(** The loop body reads the input only through the slice it works on. *)
Lemma GCM_crypt_step_slice (in1 in2 : list Z) (i1 i2 : Z)
  (s : AES.t * list Z * list Z) :
  slice in1 (Some i1) (Some (Z.min (i1 + 16) (len in1)))
  = slice in2 (Some i2) (Some (Z.min (i2 + 16) (len in2))) ->
  AES_GCM.GCM_crypt_step in1 s i1 = AES_GCM.GCM_crypt_step in2 s i2.
Proof.
  intro E. destruct s as [[obj y] out]. unfold AES_GCM.GCM_crypt_step.
  rewrite E. reflexivity.
Qed.

Lemma slice_head16 (l : list Z) :
  slice l (Some 0) (Some (Z.min (0 + 16) (len l))) = firstn 16 l.
Proof.
  pose proof (len_nonneg l) as Hl.
  rewrite slice_firstn_skipn by lia. cbn [Z.to_nat skipn].
  rewrite Z.sub_0_r. change (0 + 16) with 16.
  destruct (Z.le_ge_cases 16 (len l)).
  - rewrite Z.min_l by lia. reflexivity.
  - rewrite Z.min_r by lia. unfold len. rewrite Nat2Z.id.
    rewrite !firstn_all2; [reflexivity | unfold len in *; lia | lia].
Qed.

Lemma gcm_loop_cons (input : list Z) (s : AES.t * list Z * list Z) :
  input <> [] ->
  foldM (AES_GCM.GCM_crypt_step input) (range 0 (len input) 16) s
  = bind (AES_GCM.GCM_crypt_step input s 0)
         (foldM (AES_GCM.GCM_crypt_step (skipn 16 input))
                (range 0 (len (skipn 16 input)) 16)).
Proof.
  intro Hne.
  assert (Hpos : 0 < len input).
  { destruct input; [congruence|]. unfold len. cbn [List.length]. lia. }
  rewrite (range_cons 0) by lia. cbn [foldM]. apply bind_ext. intro s'.
  destruct (Z.le_gt_cases (len input) 16) as [Hle|Hgt].
  - assert (E1 : range (0 + 16) (len input) 16 = []).
    { unfold range.
      replace (Z.to_nat ((len input - (0 + 16) + 16 - 1) / 16)) with 0%nat;
        [reflexivity|].
      assert ((len input - (0 + 16) + 16 - 1) / 16 = 0)
        by (apply Z.div_small; lia). lia. }
    assert (E2 : skipn 16 input = [])
      by (apply skipn_all2; unfold len in Hle; lia).
    rewrite E1, E2. reflexivity.
  - set (b := firstn 16 input). set (r := skipn 16 input).
    assert (Ei : input = b ++ r) by (symmetry; apply firstn_skipn).
    assert (Lb : len b = 16).
    { unfold len, b. rewrite length_firstn. unfold len in Hgt. lia. }
    assert (Lr : len input = len r + 16) by (rewrite Ei, len_app; lia).
    rewrite Lr, (range_shift 0 (len r) 16 16), foldM_map.
    apply foldM_ext. intros s0 i Hi.
    apply In_nth_error in Hi. destruct Hi as [k Hk].
    apply range_nth_inv in Hk. destruct Hk as [-> _].
    apply GCM_crypt_step_slice. rewrite Lr. rewrite Ei at 1.
    pose proof (len_nonneg r) as Hr.
    replace (Z.min (0 + 16 * Z.of_nat k + 16 + 16) (len r + 16))
      with (Z.min (0 + 16 * Z.of_nat k + 16) (len r) + len b) by lia.
    replace (0 + 16 * Z.of_nat k + 16)
      with (0 + 16 * Z.of_nat k + len b) at 1 by lia.
    apply slice_app_shift; lia.
Qed.

Lemma gcm_loops_inverse (obj : AES.t) :
  keyed obj -> AES.cipherMode obj = AES.MODE_ECB ->
  AES.padding obj = AES.NoPadding ->
  forall (k : nat) (input y out1 out2 : list Z),
    (List.length input <= 16 * k)%nat -> bytes input -> block y ->
    exists c y',
      bytes c /\ List.length c = List.length input /\ block y' /\
      foldM (AES_GCM.GCM_crypt_step input) (range 0 (len input) 16)
            (obj, y, out1)
      = Ok (obj, y', out1 ++ c) /\
      foldM (AES_GCM.GCM_crypt_step c) (range 0 (len c) 16) (obj, y, out2)
      = Ok (obj, y', out2 ++ input).
Proof.
  intros Hk Hm Hp. induction k as [|k IH]; intros input y out1 out2 Hl Hin Hy.
  - destruct input; [|cbn [List.length] in Hl; lia].
    exists [], y. rewrite !app_nil_r. repeat split; try apply Hy. constructor.
  - destruct (list_eq_dec Z.eq_dec input []) as [->|Hne].
    { exists [], y. rewrite !app_nil_r.
      repeat split; try apply Hy. constructor. }
    destruct (GCM_crypt_step_value obj y Hk Hm Hp Hy)
      as (y1 & e & Hy1 & He & Hstep).
    set (b := firstn 16 input). set (r := skipn 16 input).
    assert (Ei : input = b ++ r) by (symmetry; apply firstn_skipn).
    assert (Hb : bytes b) by (apply Forall_firstn_of, Hin).
    assert (Hr : bytes r) by (apply Forall_skipn_of, Hin).
    assert (Lb : (List.length b <= 16)%nat)
      by (unfold b; rewrite length_firstn; lia).
    assert (Lb0 : (0 < List.length b)%nat).
    { unfold b. rewrite length_firstn. destruct input; [congruence|].
      cbn [List.length]. lia. }
    assert (Lr : (List.length r <= 16 * k)%nat)
      by (unfold r; rewrite length_skipn; lia).
    assert (Lcb : List.length (xor_list e b) = List.length b)
      by (apply xor_list_length; rewrite (proj1 He); exact Lb).
    assert (Hcb : bytes (xor_list e b))
      by (apply (gcm_xor_value e b (proj2 He) Hb)).
    destruct (IH r y1 (out1 ++ xor_list e b) (out2 ++ b) Lr Hr Hy1)
      as (c' & y' & Hc' & Lc' & Hy' & E1 & E2).
    set (c := xor_list e b ++ c').
    assert (Hc : bytes c) by (apply bytes_app; assumption).
    assert (Hsplit : firstn 16 c = xor_list e b /\ skipn 16 c = c').
    { unfold c. rewrite firstn_app, skipn_app, Lcb.
      destruct (Nat.eq_dec (List.length b) 16) as [E16|N16].
      - rewrite E16, Nat.sub_diag, firstn_O, skipn_O.
        rewrite app_nil_r, firstn_all2, skipn_all2 by lia. split; reflexivity.
      - assert (Hr0 : r = []).
        { unfold r. apply skipn_all2.
          unfold b in N16. rewrite length_firstn in N16. lia. }
        assert (Hc0 : c' = []).
        { apply length_zero_iff_nil. rewrite Lc', Hr0. reflexivity. }
        rewrite Hc0, firstn_nil, skipn_nil, !app_nil_r.
        rewrite firstn_all2, skipn_all2 by lia. split; reflexivity. }
    destruct Hsplit as [Hc1 Hc2].
    exists c, y'. split; [exact Hc|]. split.
    { unfold c. rewrite length_app, Lcb, Lc', <- length_app.
      unfold b, r. rewrite firstn_skipn. reflexivity. }
    split; [exact Hy'|]. split.
    + rewrite gcm_loop_cons by exact Hne. rewrite (Hstep input out1 0 Hin).
      cbn [bind]. rewrite slice_head16. fold b. fold r. rewrite E1.
      unfold c. rewrite app_assoc. reflexivity.
    + assert (Hcne : c <> []).
      { intro E0. apply (f_equal (@List.length Z)) in E0.
        unfold c in E0. rewrite length_app, Lcb in E0.
        cbn [List.length] in E0. lia. }
      rewrite gcm_loop_cons by exact Hcne. rewrite (Hstep c out2 0 Hc).
      cbn [bind]. rewrite slice_head16, Hc1, Hc2.
      rewrite xor_list_cancel by (rewrite (proj1 He); exact Lb).
      rewrite E2, <- app_assoc. unfold b, r. rewrite firstn_skipn.
      reflexivity.
Qed.

Lemma bytes_eqb_refl (t : list Z) : AES_GCM.bytes_eqb t t = true.
Proof.
  unfold AES_GCM.bytes_eqb. destruct (list_eq_dec Z.eq_dec t t);
    [reflexivity | congruence].
Qed.

(** What [GCM_crypt] computes before its loop does not depend on the
    input or the additional data: the engine, the hash key and the counter-zero block. *)
Lemma GCM_crypt_prefix (ks : AES.keysize) (key : Z) (iv : list Z) :
  key_fits ks key -> bytes iv ->
  exists obj h y0,
    keyed obj /\ AES.cipherMode obj = AES.MODE_ECB /\
    AES.padding obj = AES.NoPadding /\ block h /\ block y0 /\
    forall input aad,
      AES_GCM.GCM_crypt ks key iv input aad
      = (' (obj, y, output) <-
           foldM (AES_GCM.GCM_crypt_step input) (range 0 (len input) 16)
                 (obj, y0, []) ;;
         ' (g, obj) <- AES.encrypt obj (PyBytes y0) ;;
         g <- int_seq g ;;
         x <- AES_GCM.GHASH h aad output ;;
         tag <- AES_GCM.xor x g ;;
         Ok (output, tag, g, h)).
Proof.
  intros Hfit Hiv.
  destruct (setKey_returns (AES.new AES.MODE_ECB AES.NoPadding) ks key None
              Hfit eq_refl ltac:(discriminate))
    as (obj & Eobj & Hk & Hm & Hp & _).
  cbn [AES.new AES.cipherMode AES.padding] in Hm, Hp.
  destruct (encrypt_ecb_block obj (repeat 0 (Z.to_nat 16)) Hk Hm Hp
              ltac:(apply block_check; reflexivity))
    as ([o obj'] & Eh & Eo & h & Eh' & Hh).
  cbn [fst snd] in Eo, Eh'. subst o obj'.
  assert (Ry0 : returns (if len iv =? 12
                         then b <- bytes_of iv ;; Ok (b ++ [0; 0; 0; 1])
                         else e <- bytes_n 0 ;;
                              x <- AES_GCM.GHASH h e iv ;; bytes_of x) block).
  { destruct (Z.eqb_spec (len iv) 12) as [E|E].
    - rewrite (bytes_of_ok _ Hiv). cbn [bind]. apply returns_ok. split.
      + rewrite length_app. unfold len in E. cbn [List.length]. lia.
      + apply bytes_app; [exact Hiv | apply bytes_check; reflexivity].
    - rewrite (bytes_n_ok 0) by lia. cbn [bind].
      eapply returns_bind;
        [apply GHASH_returns; [exact Hh | constructor | exact Hiv]|].
      intros x Hx. rewrite bytes_of_ok by apply Hx. apply returns_ok, Hx. }
  destruct Ry0 as (y0 & Ey0 & Hy0).
  exists obj, h, y0. repeat split; try assumption; try apply Hh;
    try apply Hy0.
  intros input aad. unfold AES_GCM.GCM_crypt.
  rewrite Eobj. cbn [bind]. rewrite (bytes_n_ok 16) by lia. cbn [bind].
  rewrite Eh. cbn [bind bytes_from]. rewrite bytes_of_ok by apply Hh.
  cbn [bind]. rewrite Ey0. reflexivity.
Qed.

(** [GCM_crypt] on its own output: the same hash key, counter-zero block
    and key stream, so the input comes back. *)
Lemma GCM_crypt_inverse (ks : AES.keysize) (key : Z) (iv input aad : list Z) :
  key_fits ks key -> bytes iv -> bytes input -> bytes aad ->
  exists c t1 t2 g h,
    AES_GCM.GCM_crypt ks key iv input aad = Ok (c, t1, g, h) /\
    AES_GCM.GCM_crypt ks key iv c aad = Ok (input, t2, g, h) /\
    bytes c /\ List.length c = List.length input /\
    block t1 /\ block g /\ block h /\
    (x <- AES_GCM.GHASH h aad c ;; AES_GCM.xor x g) = Ok t1.
Proof.
  intros Hfit Hiv Hin Haad.
  destruct (GCM_crypt_prefix ks key iv Hfit Hiv)
    as (obj & h & y0 & Hk & Hm & Hp & Hh & Hy0 & Hcrypt).
  destruct (gcm_loops_inverse obj Hk Hm Hp
              (List.length input) input y0 [] [] ltac:(lia) Hin Hy0)
    as (c & y' & Hc & Lc & Hy' & E1 & E2).
  cbn [app] in E1, E2.
  destruct (encrypt_ecb_block obj y0 Hk Hm Hp Hy0)
    as ([o obj'] & Eg & Eo & g & Eg' & Hg).
  cbn [fst snd] in Eo, Eg'. subst o obj'.
  destruct (GHASH_returns h aad c Hh Haad Hc) as (x1 & Ex1 & Hx1).
  destruct (GHASH_returns h aad input Hh Haad Hin) as (x2 & Ex2 & Hx2).
  destruct (gcm_xor_returns x1 g (proj2 Hx1) (proj2 Hg))
    as (t1 & Et1 & Ht1 & Lt1).
  destruct (gcm_xor_returns x2 g (proj2 Hx2) (proj2 Hg))
    as (t2 & Et2 & Ht2 & Lt2).
  exists c, t1, t2, g, h.
  rewrite !Hcrypt, E1, E2. cbn [bind]. rewrite Eg. cbn [bind int_seq].
  rewrite Ex1, Ex2. cbn [bind]. rewrite Et1, Et2. cbn [bind].
  repeat split; try assumption; try apply Hg; try apply Hh.
  rewrite Lt1, (proj1 Hx1), (proj1 Hg). reflexivity.
Qed.

End GCMRoundTrip.

(** ** RC4: the state stays a permutation, and [decrypt] inverts [encrypt] *)
Section RC4Stream.

Lemma swap_entries_perm (l : list Z) (i j : Z) :
  0 <= i < len l -> 0 <= j < len l ->
  Permutation (swap_entries l i j) l.
Proof.
  intros Hi Hj. symmetry. apply Permutation_nth_error.
  unfold swap_entries. cbv zeta. split.
  { rewrite !update_length. reflexivity. }
  set (n := List.length l). set (a := Z.to_nat i). set (b := Z.to_nat j).
  assert (Ha : (a < n)%nat) by (unfold a, n, len in *; lia).
  assert (Hb : (b < n)%nat) by (unfold b, n, len in *; lia).
  exists (fun x => if (x =? b)%nat then a else if (x =? a)%nat then b else x).
  split.
  - intros x y.
    destruct (Nat.eqb_spec x b), (Nat.eqb_spec x a), (Nat.eqb_spec y b),
      (Nat.eqb_spec y a); lia.
  - intro x. destruct (Nat.eqb_spec x b) as [->|Nb].
    + rewrite update_nth_same by (rewrite update_length; exact Hb).
      symmetry. apply nth_error_nth'. exact Ha.
    + rewrite update_nth_other by exact Nb.
      destruct (Nat.eqb_spec x a) as [->|Na].
      * rewrite update_nth_same by exact Ha.
        symmetry. apply nth_error_nth'. exact Hb.
      * apply update_nth_other. exact Na.
Qed.

Lemma range256_bytes : bytes (range 0 256 1).
Proof. apply bytes_check. vm_compute. reflexivity. Qed.

Lemma perm_length (st : list Z) :
  Permutation st (range 0 256 1) -> len st = 256.
Proof.
  intro H. unfold len. rewrite (Permutation_length H). reflexivity.
Qed.

Lemma perm_bytes (st : list Z) :
  Permutation st (range 0 256 1) -> bytes st.
Proof.
  intro H. unfold bytes. apply (Permutation_Forall (Permutation_sym H)).
  exact range256_bytes.
Qed.

Lemma perm_nth_byte (st : list Z) (i : Z) :
  Permutation st (range 0 256 1) -> 0 <= i < 256 ->
  byte (nth (Z.to_nat i) st 0).
Proof.
  intros H Hi. apply Forall_nth; [apply perm_bytes, H|].
  pose proof (perm_length st H) as L. unfold len in L. lia.
Qed.

Lemma len_update {A} (l : list A) (k : nat) (v : A) :
  len (update l k v) = len l.
Proof. unfold len. rewrite update_length. reflexivity. Qed.

Lemma ksa_step_value (key st : list Z) (j i : Z) :
  Permutation st (range 0 256 1) -> 0 <= i < 256 ->
  exists j',
    0 <= j' < 256 /\
    RC4.ksa_step key (st, j) i = Ok (swap_entries st i j', j').
Proof.
  intros Hp Hi. pose proof (perm_length st Hp) as L.
  unfold RC4.ksa_step.
  rewrite (getitem_ok st i 0) by lia.
  set (si := nth (Z.to_nat i) st 0).
  assert (Ej : exists j',
             0 <= j' < 256 /\
             (if len key >? 0
              then si0 <- Ok si ;;
                   m <- RC4.pymod i (len key) ;;
                   k <- getitem key m ;; Ok ((j + si0 + k) mod 256)
              else si0 <- Ok si ;; Ok ((j + si0) mod 256)) = Ok j').
  { destruct (Z.gtb_spec (len key) 0) as [Hk|Hk]; cbn [bind].
    - unfold RC4.pymod. destruct (Z.eqb_spec (len key) 0); [lia|].
      cbn [bind].
      rewrite (getitem_ok key (i mod len key) 0)
        by (apply Z.mod_pos_bound; lia).
      cbn [bind]. eexists. split; [|reflexivity].
      apply Z.mod_pos_bound. lia.
    - eexists. split; [|reflexivity]. apply Z.mod_pos_bound. lia. }
  destruct Ej as (j' & Hj' & Ej). exists j'. split; [exact Hj'|].
  rewrite Ej. cbn [bind].
  rewrite (getitem_ok st j' 0) by lia. cbn [bind].
  rewrite (setitem_ok st i) by lia. cbn [bind].
  rewrite setitem_ok by (rewrite len_update; lia). reflexivity.
Qed.

Lemma rc4_setKey_permuted (key : list Z) :
  exists g, RC4.setKey key = Ok g /\ permuted g /\
            RC4.p g = 0 /\ RC4.q g = 0.
Proof.
  unfold RC4.setKey.
  assert (R : returns (foldM (RC4.ksa_step key) (range 0 256 1)
                             (range 0 256 1, 0))
                      (fun s => Permutation (fst s) (range 0 256 1))).
  { apply (returns_foldM (RC4.ksa_step key)
             (fun _ s => Permutation (fst s) (range 0 256 1))).
    - apply Permutation_refl.
    - intros k i [st j] Hk Hs. cbn [fst] in Hs.
      apply range_nth_inv in Hk. destruct Hk as [-> Hk].
      change (Z.to_nat ((256 - 0 + 1 - 1) / 1)) with 256%nat in Hk.
      destruct (ksa_step_value key st j (0 + 1 * Z.of_nat k) Hs ltac:(lia))
        as (j' & Hj' & E).
      rewrite E. apply returns_ok. cbn [fst].
      pose proof (perm_length st Hs) as L.
      eapply Permutation_trans; [apply swap_entries_perm; lia | exact Hs]. }
  destruct R as ([st j] & E & Hs). rewrite E. cbn [bind fst] in *.
  eexists. split; [reflexivity|]. repeat split. exact Hs.
Qed.

Lemma byteGenerator_value (g : RC4.globals) :
  permuted g ->
  exists k g',
    RC4.byteGenerator g = Ok (k, g') /\ byte k /\ permuted g' /\
    RC4.p g' = (RC4.p g + 1) mod 256 /\
    RC4.q g' = (RC4.q g + nth (Z.to_nat (RC4.p g')) (RC4.state g) 0) mod 256 /\
    RC4.state g' = swap_entries (RC4.state g) (RC4.p g') (RC4.q g').
Proof.
  intro Hp. unfold permuted in Hp. pose proof (perm_length _ Hp) as L.
  unfold RC4.byteGenerator.
  set (p' := (RC4.p g + 1) mod 256).
  assert (Hp' : 0 <= p' < 256) by (apply Z.mod_pos_bound; lia).
  rewrite (getitem_ok (RC4.state g) p' 0) by lia. cbn [bind].
  set (q' := (RC4.q g + nth (Z.to_nat p') (RC4.state g) 0) mod 256).
  assert (Hq' : 0 <= q' < 256) by (apply Z.mod_pos_bound; lia).
  rewrite (getitem_ok (RC4.state g) q' 0) by lia. cbn [bind].
  rewrite (setitem_ok (RC4.state g) p') by lia. cbn [bind].
  rewrite setitem_ok by (rewrite len_update; lia). cbn [bind].
  fold (swap_entries (RC4.state g) p' q').
  set (st' := swap_entries (RC4.state g) p' q').
  assert (Hst : Permutation st' (range 0 256 1)).
  { eapply Permutation_trans; [apply swap_entries_perm; lia | exact Hp]. }
  pose proof (perm_length _ Hst) as L'.
  rewrite (getitem_ok st' p' 0) by lia. cbn [bind].
  rewrite (getitem_ok st' q' 0) by lia. cbn [bind].
  set (idx := (nth (Z.to_nat p') st' 0 + nth (Z.to_nat q') st' 0) mod 256).
  assert (Hidx : 0 <= idx < 256) by (apply Z.mod_pos_bound; lia).
  rewrite (getitem_ok st' idx 0) by lia. cbn [bind].
  eexists. eexists. split; [reflexivity|]. cbn [RC4.state RC4.p RC4.q].
  split; [apply perm_nth_byte; assumption|].
  split; [exact Hst|]. repeat split.
Qed.

Lemma rc4_round_trip (g : RC4.globals) (s : list Z) :
  permuted g -> text s ->
  exists c g',
    RC4.encrypt g s = Ok (c, g') /\
    List.length c = List.length s /\
    RC4.decrypt g c = Ok (s, g') /\
    permuted g'.
Proof.
  intros Hg Hs. revert g Hg. induction Hs as [|a s Ha _ IH]; intros g Hg.
  - exists [], g. repeat split. exact Hg.
  - destruct (byteGenerator_value g Hg) as (k & g1 & Ek & Hk & Hg1 & _).
    destruct (IH g1 Hg1) as (c & g2 & Ec & Lc & Dc & Hg2).
    exists (Z.lxor a k :: c), g2. cbn [RC4.encrypt RC4.decrypt].
    rewrite Ek. cbn [bind]. rewrite Ec. cbn [bind].
    rewrite Z.lxor_assoc, Z.lxor_nilpotent, Z.lxor_0_r.
    unfold chr. unfold code_point in Ha.
    destruct (Z.leb_spec 0 a); [|lia].
    destruct (Z.ltb_spec a 0x110000); [|lia]. cbn [andb bind].
    rewrite Dc. cbn [bind List.length]. repeat split; [lia | exact Hg2].
Qed.

End RC4Stream.

(** ** [setKey]: what it reads of the key and IV, and its conversions *)
Section KeySetup.

Lemma land_shiftr_mod (n i m : Z) :
  0 <= i -> i + 8 <= m ->
  Z.land (Z.shiftr (n mod 2 ^ m) i) 0xff = Z.land (Z.shiftr n i) 0xff.
Proof.
  intros Hi Hm. change 0xff with (Z.ones 8). rewrite !Z.land_ones by lia.
  apply Z.bits_inj'. intros k Hk. destruct (Z.lt_ge_cases k 8).
  - rewrite !Z.mod_pow2_bits_low by lia. rewrite !Z.shiftr_spec by lia.
    rewrite Z.mod_pow2_bits_low by lia. reflexivity.
  - rewrite !Z.mod_pow2_bits_high by lia. reflexivity.
Qed.

Lemma intToList_index (i : Z) :
  In i (rev (range 0 128 8)) -> 0 <= i <= 120.
Proof.
  intro Hi. apply in_rev in Hi. apply In_nth_error in Hi.
  destruct Hi as [k Hk]. apply range_nth_inv in Hk. destruct Hk as [-> Hk].
  change (Z.to_nat ((128 - 0 + 8 - 1) / 8)) with 16%nat in Hk. lia.
Qed.

Lemma intToList_shiftr_mod (n m s : Z) :
  0 <= s -> s + 128 <= m ->
  AES.intToList (Z.shiftr (n mod 2 ^ m) s) = AES.intToList (Z.shiftr n s).
Proof.
  intros Hs Hm. unfold AES.intToList. apply map_ext_in. intros i Hi.
  apply intToList_index in Hi. rewrite !Z.shiftr_shiftr by lia.
  apply land_shiftr_mod; lia.
Qed.

Lemma intToList_mod (n m : Z) :
  128 <= m -> AES.intToList (n mod 2 ^ m) = AES.intToList n.
Proof.
  intro Hm. pose proof (intToList_shiftr_mod n m 0 ltac:(lia) ltac:(lia)) as H.
  rewrite !Z.shiftr_0_r in H. exact H.
Qed.

Lemma intToList_land_ones (x k : Z) :
  128 <= k -> AES.intToList (Z.land x (2 ^ k - 1)) = AES.intToList x.
Proof.
  intro Hk. replace (2 ^ k - 1) with (Z.ones k)
    by (rewrite Z.ones_equiv; lia).
  rewrite Z.land_ones by lia. apply intToList_mod, Hk.
Qed.

(** The key list of [setKey] reads the low [8 * size] bits of the key. *)
Lemma key_list_mod (ks : AES.keysize) (key : Z) :
  (if AES.numberOfRoundsTable ks =? 10 then (4, AES.intToList key)
   else if AES.numberOfRoundsTable ks =? 12 then
     (6, AES.intToList (Z.shiftr key 64) ++
         slice (AES.intToList (Z.land key (2 ^ 256 - 1))) (Some 8) None)
   else
     (8, AES.intToList (Z.shiftr key 128) ++
         AES.intToList (Z.land key (2 ^ 512 - 1))))
  = (let key := key mod 2 ^ (8 * AES.keySizeTable ks) in
     if AES.numberOfRoundsTable ks =? 10 then (4, AES.intToList key)
     else if AES.numberOfRoundsTable ks =? 12 then
       (6, AES.intToList (Z.shiftr key 64) ++
           slice (AES.intToList (Z.land key (2 ^ 256 - 1))) (Some 8) None)
     else
       (8, AES.intToList (Z.shiftr key 128) ++
           AES.intToList (Z.land key (2 ^ 512 - 1)))).
Proof.
  cbv zeta. rewrite !intToList_land_ones by lia.
  destruct ks; cbn [AES.numberOfRoundsTable AES.keySizeTable Z.eqb Pos.eqb].
  - change (8 * 16) with 128. rewrite intToList_mod by lia. reflexivity.
  - change (8 * 24) with 192.
    rewrite (intToList_shiftr_mod key 192 64), intToList_mod by lia.
    reflexivity.
  - change (8 * 32) with 256.
    rewrite (intToList_shiftr_mod key 256 128), intToList_mod by lia.
    reflexivity.
Qed.

Lemma key_fits_mod (ks : AES.keysize) (key : Z) :
  key_fits ks (key mod 2 ^ (8 * AES.keySizeTable ks)).
Proof.
  apply key_fits_small. apply Z.mod_pos_bound. apply Z.pow_pos_nonneg; [lia|].
  destruct ks; simpl; lia.
Qed.

(** A mask of bits starting at position [k]. *)
Lemma land_shifted_mask (n m k : Z) :
  0 <= k -> Z.land n (Z.shiftl m k) = Z.shiftl (Z.land (Z.shiftr n k) m) k.
Proof.
  intro Hk. apply Z.bits_inj'. intros i Hi. rewrite Z.land_spec.
  destruct (Z.lt_ge_cases i k).
  - rewrite !Z.shiftl_spec_low by lia. apply andb_false_r.
  - rewrite !Z.shiftl_spec, Z.land_spec, Z.shiftr_spec by lia.
    replace (i - k + k) with i by lia. reflexivity.
Qed.

Lemma rotWord_value (n : Z) :
  0 <= n < 2 ^ 32 -> AES.rotWord n = (n mod 2 ^ 24) * 2 ^ 8 + n / 2 ^ 24.
Proof.
  intro Hn. unfold AES.rotWord.
  change 0xff000000 with (Z.shiftl (Z.ones 8) 24).
  change 0xff0000 with (Z.shiftl (Z.ones 8) 16).
  change 0xff00 with (Z.shiftl (Z.ones 8) 8).
  change 0xff with (Z.ones 8).
  rewrite !land_shifted_mask by lia. rewrite !Z.land_ones by lia.
  rewrite Z.shiftr_shiftl_l by lia. rewrite !Z.shiftl_shiftl by lia.
  rewrite !Z.shiftl_mul_pow2, !Z.shiftr_div_pow2 by lia.
  change (24 - 24) with 0. change (16 + 8) with 24. change (8 + 8) with 16.
  change (2 ^ 0) with 1. change (2 ^ 8) with 256. change (2 ^ 16) with 65536.
  change (2 ^ 24) with 16777216. change (2 ^ 32) with 4294967296 in Hn.
  Z.to_euclidean_division_equations. lia.
Qed.

Lemma be_value_cons (x : Z) (l : list Z) :
  be_value (x :: l) = x * 256 ^ len l + be_value l.
Proof.
  unfold be_value at 1. cbn [fold_left]. rewrite be_value_fold. lia.
Qed.

(** The bytes of [n] from bit [8k-8] down to bit 0, most significant
    first, as [intToList] collects them. *)
Lemma be_value_bytes_of_int (n : Z) (k : nat) :
  be_value (map (fun i => Z.land (Z.shiftr n i) 0xff)
                (rev (range 0 (8 * Z.of_nat k) 8)))
  = n mod 2 ^ (8 * Z.of_nat k).
Proof.
  induction k as [|k IH].
  - cbn. rewrite Z.mod_1_r. reflexivity.
  - replace (8 * Z.of_nat (S k)) with (8 * Z.of_nat k + 8) by lia.
    rewrite (range_snoc 0 (8 * Z.of_nat k) 8)
      by (try lia; rewrite Z.sub_0_r, Z.mul_comm; apply Z.mod_mul; lia).
    rewrite rev_app_distr. cbn [rev app map].
    rewrite be_value_cons, IH.
    assert (Hl : len (map (fun i => Z.land (Z.shiftr n i) 0xff)
                          (rev (range 0 (8 * Z.of_nat k) 8))) = Z.of_nat k).
    { unfold len. rewrite length_map, length_rev, range_length.
      replace (8 * Z.of_nat k - 0 + 8 - 1) with (7 + Z.of_nat k * 8) by lia.
      rewrite Z.div_add, Z.div_small by lia. lia. }
    rewrite Hl. change 0xff with (Z.ones 8).
    rewrite Z.land_ones, Z.shiftr_div_pow2 by lia.
    rewrite Z.pow_add_r by lia.
    rewrite Z.rem_mul_r by (try apply Z.pow_nonzero; lia).
    replace (256 ^ Z.of_nat k) with (2 ^ (8 * Z.of_nat k))
      by (rewrite Z.pow_mul_r by lia; reflexivity).
    lia.
Qed.

End KeySetup.

(** ** Integers and single blocks *)
Section Inputs.

Lemma listToState_any (l : list Z) :
  List.length l = 16%nat -> exists st, AES.listToState l = Ok st.
Proof.
  intro H. destruct (listToState_involution l H) as (st & E & _).
  exists st. exact E.
Qed.

Lemma aes_intToList2_block (n : Z) :
  0 <= n < 2 ^ 128 ->
  exists l, AES.intToList2 n = Ok l /\ block l /\ be_value l = n.
Proof.
  intros [Hn Hlt].
  destruct (byte_loop_spec n Hn) as (lst & E & Hv & Hb & Hl & _).
  specialize (Hl 16 ltac:(lia) Hlt). pose proof (len_nonneg lst) as H0.
  unfold AES.intToList2. rewrite E. cbn [bind].
  destruct (Z.eq_dec (len lst) 16) as [E16|N16].
  - rewrite E16. cbn [Z.eqb Z.modulo Z.div_eucl Z.pos_div_eucl andb negb].
    change ((16 mod 16 =? 0) && negb (16 =? 0))%bool with true.
    cbv iota. eexists. split; [reflexivity|]. split.
    + split; [rewrite length_rev; unfold len in E16; lia|].
      apply Forall_rev, Hb.
    + rewrite be_value_rev. exact Hv.
  - assert (Hm : len lst mod 16 = len lst) by (apply Z.mod_small; lia).
    rewrite Hm.
    assert (Hc : ((len lst =? 0) && negb (len lst =? 0))%bool = false)
      by (destruct (len lst =? 0); reflexivity).
    rewrite Hc. rewrite bytes_n_ok by lia. cbn [bind].
    eexists. split; [reflexivity|]. split.
    + split.
      * rewrite length_app, repeat_length, length_rev. unfold len in *. lia.
      * apply bytes_app; [apply bytes_zeros | apply Forall_rev, Hb].
    + rewrite be_value_zeros, be_value_rev. exact Hv.
Qed.

Lemma block_value_bound (l : list Z) : block l -> 0 <= be_value l < 2 ^ 128.
Proof.
  intros [Hl Hb]. pose proof (be_value_bound l Hb) as Hv.
  replace (len l) with 16 in Hv by (unfold len; lia).
  change (256 ^ 16) with (2 ^ 128) in Hv. exact Hv.
Qed.

Lemma aes_intToList2_be (l : list Z) :
  block l -> AES.intToList2 (be_value l) = Ok l.
Proof.
  intros Hbl. pose proof (block_value_bound l Hbl) as Hv.
  destruct Hbl as [Hl Hb].
  destruct (aes_intToList2_block (be_value l) Hv)
    as (l' & E & [Hl' Hb'] & Hv').
  rewrite E. f_equal. apply be_value_inj; try assumption. congruence.
Qed.

Lemma ecb_block_loops (e : AES.t) (x : list Z) (b : list Z) :
  keyed e -> block b ->
  exists c, block c /\
            AES.for_blocks b (AES.ecb_encrypt_step e) [] = Ok c /\
            AES.for_blocks c (AES.ecb_decrypt_step e (PyList x)) [] = Ok b.
Proof.
  intros Hk [Hl Hb].
  destruct (ecb_loops_inverse e x 1 Hk b [] [] Hl Hb)
    as (c & Bc & Lc & Ec & Dc).
  exists c. split; [split; [congruence | exact Bc]|]. split; assumption.
Qed.

Lemma next_start_decryption (e : AES.t) :
  keyed e -> exists r, AES.next e (AES.getKey AES.decryption) = Ok r.
Proof.
  intros (ks & Hws & Hnr & _ & Hlen & Hw).
  destruct (rounds_words ks) as [Ews Hnr1].
  destruct (next_key e ks (4 * AES.numberOfRoundsTable ks) Hlen Hw
              ltac:(lia) ltac:(lia)) as (kn & Hkn & Ekn).
  unfold AES.next, AES.getKey. rewrite Hws. cbn [AES.int_attr bind].
  replace (AES.wordSizeTable ks)
    with (4 * (AES.numberOfRoundsTable ks + 1)) by lia.
  rewrite (rev_keys_cons (AES.numberOfRoundsTable ks)) by lia.
  specialize (Ekn (rev (range 0 (4 * AES.numberOfRoundsTable ks) 4))).
  unfold AES.next in Ekn. cbn [bind] in Ekn. eexists. exact Ekn.
Qed.

(** The ECB loop appends to what it is given. *)
Lemma ecb_loop_acc (e : AES.t) (k : nat) :
  forall (l acc : list Z),
    List.length l = (16 * k)%nat ->
    AES.for_blocks l (AES.ecb_encrypt_step e) acc
    = (c <- AES.for_blocks l (AES.ecb_encrypt_step e) [] ;; Ok (acc ++ c)).
Proof.
  induction k as [|k IH]; intros l acc Hl.
  - destruct l; [|discriminate Hl]. rewrite !for_blocks_nil. cbn [bind].
    rewrite app_nil_r. reflexivity.
  - destruct (split_block l k Hl) as (b & r & -> & Lb & Lr).
    rewrite !for_blocks_cons by exact Lb.
    unfold AES.ecb_encrypt_step at 1 3.
    destruct (AES.encryptBlock e b) as [x| |]; try reflexivity.
    cbn [bind app]. rewrite (IH r (acc ++ x) Lr), (IH r x Lr).
    destruct (AES.for_blocks r (AES.ecb_encrypt_step e) []) as [c| |];
      try reflexivity.
    cbn [bind]. rewrite app_assoc. reflexivity.
Qed.

End Inputs.

(** ** AES_CFB.py: lengths the functions refuse, and single bytes *)
Section CFBLimits.

Lemma le_value_bound (l : list Z) : bytes l -> 0 <= le_value l < 256 ^ len l.
Proof.
  intro H. rewrite <- be_value_rev.
  replace (len l) with (len (rev l)) by (unfold len; rewrite length_rev; reflexivity).
  apply be_value_bound, Forall_rev, H.
Qed.

(** The number of bytes the [while number:] loop collects. *)
Lemma byte_loop_length (n k : Z) :
  0 <= k -> 256 ^ k <= n ->
  exists lst, byte_loop n = Ok lst /\ bytes lst /\ k < len lst /\
              le_value lst = n.
Proof.
  intros Hk Hn.
  assert (H0 : 0 < 256 ^ k) by (apply Z.pow_pos_nonneg; lia).
  destruct (byte_loop_spec n ltac:(lia)) as (lst & E & Hv & Hb & _).
  exists lst. split; [exact E|]. split; [exact Hb|]. split; [|exact Hv].
  pose proof (le_value_bound lst Hb) as Hbd. rewrite Hv in Hbd.
  destruct (Z.lt_ge_cases k (len lst)) as [Hlt|Hge]; [exact Hlt|].
  assert (256 ^ len lst <= 256 ^ k)
    by (apply Z.pow_le_mono_r; [lia | exact Hge]).
  lia.
Qed.

Lemma cfb_intToList2_too_long (n : Z) :
  2 ^ 256 <= n -> AES_CFB.intToList2 n None = Raise ValueError.
Proof.
  intro Hn. change (2 ^ 256) with (256 ^ 32) in Hn.
  destruct (byte_loop_length n 32 ltac:(lia) Hn) as (lst & E & _ & Hl & _).
  unfold AES_CFB.intToList2. rewrite E. cbn [bind].
  unfold AES_CFB.default_pad.
  destruct (Z.leb_spec (len lst) 16); [lia|].
  destruct (Z.leb_spec (len lst) 24); [lia|].
  destruct (Z.leb_spec (len lst) 32); [lia|]. reflexivity.
Qed.

(** An integer of 17 to 32 bytes becomes a list of 24 or 32 bytes. *)
Lemma cfb_intToList2_long (n : Z) :
  2 ^ 128 <= n < 2 ^ 256 ->
  exists l, AES_CFB.intToList2 n None = Ok l /\ bytes l /\
            (len l = 24 \/ len l = 32).
Proof.
  intros [Hlo Hhi]. change (2 ^ 128) with (256 ^ 16) in Hlo.
  destruct (byte_loop_length n 16 ltac:(lia) Hlo) as (lst & E & Hb & Hl & _).
  destruct (byte_loop_spec n ltac:(lia)) as (lst' & E' & _ & _ & Hub & _).
  assert (lst' = lst) by congruence. subst lst'.
  specialize (Hub 32 ltac:(lia) Hhi).
  assert (Hpad : exists pad, AES_CFB.default_pad (len lst) = Ok pad /\
                             0 <= pad /\
                             (pad + len lst = 24 \/ pad + len lst = 32)).
  { unfold AES_CFB.default_pad.
    destruct (Z.leb_spec (len lst) 16); [lia|].
    destruct (Z.leb_spec (len lst) 24);
      [eexists; split; [reflexivity | lia]|].
    destruct (Z.leb_spec (len lst) 32);
      [eexists; split; [reflexivity | lia] | lia]. }
  destruct Hpad as (pad & Hpad & Hp0 & Hlen).
  destruct (cfb_pad_returns n pad lst E Hb Hp0 Hpad) as (l & El & Bl & Ll & _).
  exists l. split; [exact El|]. split; [exact Bl|]. lia.
Qed.

Lemma encrypt_list_raises (e : AES.t) (l : list Z) :
  AES.keyDefined e = true -> l <> [] ->
  AES.encrypt e (PyList l) = Raise TypeError.
Proof.
  intros Hkd Hl. unfold AES.encrypt. rewrite Hkd. cbn [negb].
  destruct l as [|a l]; [congruence|]. unfold AES.padData.
  cbn [ords bind]. reflexivity.
Qed.

(** A byte is converted into the one-byte string that holds it. *)
Lemma cfb_intToBytes_byte (P : Z) : byte P -> AES_CFB.intToBytes P = Ok [P].
Proof.
  intros [H0 H1]. unfold AES_CFB.intToBytes, AES_CFB.intToList.
  destruct (Z.eqb_spec P 0) as [->|N]; [reflexivity|].
  destruct (byte_loop_spec P H0) as (l & E & Hv & Hb & Hl & Hne).
  specialize (Hl 1 ltac:(lia) H1). specialize (Hne ltac:(lia)).
  destruct l as [|x [|y l]];
    [congruence | | unfold len in Hl; cbn [List.length] in Hl; lia].
  cbn [le_value fold_right] in Hv. assert (x = P) by lia. subst x.
  rewrite E. cbn [bind rev app]. unfold bytes_of. cbn [forallb]. unfold is_byte.
  destruct (Z.leb_spec 0 P); [|lia]. destruct (Z.ltb_spec P 256); [|lia].
  reflexivity.
Qed.

(** The first byte of the key stream: what [obj.encrypt(inputBuffer)[0]]
    is at the first iteration of the CFB8 loops. *)
Lemma cfb8_first_byte (obj : AES.t) (ivb : list Z) :
  keyed obj -> AES.cipherMode obj = AES.MODE_ECB -> bytes ivb ->
  16 <= len ivb ->
  exists out a,
    AES.encrypt obj (PyBytes ivb) = Ok (PyList out, obj) /\
    getitem out 0 = Ok a /\ byte a.
Proof.
  intros Hk Hm Hb Hl.
  destruct (encrypt_ecb_bytes obj ivb Hk Hm Hb)
    as ([o obj'] & Eenc & Eo & out & Eout & Hout & _ & Hlen & _).
  cbn [fst snd] in Eo, Eout. subst o obj'.
  exists out, (nth (Z.to_nat 0) out 0). split; [exact Eenc|].
  split; [apply getitem_ok; lia|].
  apply Forall_nth; [exact Hout | unfold len in *; lia].
Qed.

End CFBLimits.

(** ** [mult] is the multiplication of GF(2^8) *)
Section Field.

Lemma poly_mul_fold (a b1 b2 : Z) (l : list Z) :
  forall acc1 acc2,
    fold_left (fun acc i => if Z.testbit (Z.lxor b1 b2) i
                            then Z.lxor acc (Z.shiftl a i) else acc)
              l (Z.lxor acc1 acc2)
    = Z.lxor (fold_left (fun acc i => if Z.testbit b1 i
                                      then Z.lxor acc (Z.shiftl a i) else acc)
                        l acc1)
             (fold_left (fun acc i => if Z.testbit b2 i
                                      then Z.lxor acc (Z.shiftl a i) else acc)
                        l acc2).
Proof.
  induction l as [|i l IH]; intros acc1 acc2; [reflexivity|].
  cbn [fold_left]. rewrite <- IH. f_equal. rewrite Z.lxor_spec.
  destruct (Z.testbit b1 i), (Z.testbit b2 i); cbn [xorb]; xor_ac.
Qed.

Lemma poly_mul_lxor (a b1 b2 : Z) :
  poly_mul a (Z.lxor b1 b2) = Z.lxor (poly_mul a b1) (poly_mul a b2).
Proof.
  unfold poly_mul. rewrite <- poly_mul_fold. reflexivity.
Qed.

Lemma poly_mod_lxor (p q : Z) :
  poly_mod (Z.lxor p q) = Z.lxor (poly_mod p) (poly_mod q).
Proof.
  unfold poly_mod. revert p q. generalize (rev (range 8 15 1)) as l.
  induction l as [|i l IH]; intros p q; [reflexivity|].
  cbn [fold_left]. rewrite <- IH. f_equal. rewrite Z.lxor_spec.
  destruct (Z.testbit p i), (Z.testbit q i); cbn [xorb]; xor_ac.
Qed.

Lemma gf_mul_lxor (a b1 b2 : Z) :
  gf_mul a (Z.lxor b1 b2) = Z.lxor (gf_mul a b1) (gf_mul a b2).
Proof. unfold gf_mul. rewrite poly_mul_lxor. apply poly_mod_lxor. Qed.

Lemma linear_fold (f : Z -> Z) (l : list Z) :
  f 0 = 0 -> (forall x y, f (Z.lxor x y) = Z.lxor (f x) (f y)) ->
  f (fold_right Z.lxor 0 l) = fold_right Z.lxor 0 (map f l).
Proof.
  intros H0 Hl. induction l as [|x l IH]; [exact H0|].
  cbn [fold_right map]. rewrite Hl, IH. reflexivity.
Qed.

Lemma byte_bits (b : Z) : byte b -> fold_right Z.lxor 0 (bits8 b) = b.
Proof.
  intro Hb.
  assert (H : forallb (fun b => fold_right Z.lxor 0 (bits8 b) =? b)
                      (range 0 256 1) = true) by (vm_compute; reflexivity).
  apply Z.eqb_eq. exact (forall_bytes _ H b Hb).
Qed.

(** The two products agree on the powers of x. *)
Lemma gmul_gf_mul_basis (a i : Z) :
  byte a -> In i (range 0 8 1) ->
  gmul a (Z.shiftl 1 i) = gf_mul a (Z.shiftl 1 i) /\ gmul a 0 = gf_mul a 0.
Proof.
  intros Ha Hi.
  assert (H : forallb
                (fun a => forallb (fun i => (gmul a (Z.shiftl 1 i)
                                             =? gf_mul a (Z.shiftl 1 i))
                                            && (gmul a 0 =? gf_mul a 0))
                                  (range 0 8 1))
                (range 0 256 1) = true) by (vm_compute; reflexivity).
  pose proof (forall_bytes _ H a Ha) as H1. cbv beta in H1.
  rewrite forallb_forall in H1. specialize (H1 i Hi).
  apply andb_true_iff in H1. destruct H1 as [E1 E2].
  split; apply Z.eqb_eq; assumption.
Qed.

Lemma gmul_gf_mul (a b : Z) : byte a -> byte b -> gmul a b = gf_mul a b.
Proof.
  intros Ha Hb.
  destruct (gmul_gf_mul_basis a 0 Ha ltac:(left; reflexivity)) as [_ H0].
  assert (G0 : gmul a 0 = 0) by (unfold gmul; rewrite mult_loop_zero; reflexivity).
  rewrite <- (byte_bits b Hb).
  rewrite (linear_fold (gmul a)) by (auto using gmul_lxor).
  rewrite (linear_fold (gf_mul a))
    by (first [rewrite <- H0; exact G0 | apply gf_mul_lxor]).
  f_equal. unfold bits8. rewrite !map_map. apply map_ext_in. intros i Hi.
  destruct (gmul_gf_mul_basis a i Ha Hi) as [E1 E2].
  destruct (Z.testbit b i); assumption.
Qed.

End Field.

(** ** [encryptBlock] inverts [decryptBlock] *)
Section BlockInverseRev.

(** The products of the coefficients of [mixColumns] and [invMixColumns],
    in the other order. *)
Lemma mix_coefficients_rev (x : Z) :
  byte x ->
  Z.lxor (Z.lxor (Z.lxor (gmul 2 (gmul 14 x)) (gmul 3 (gmul 9 x))) (gmul 13 x))
         (gmul 11 x) = x /\
  Z.lxor (Z.lxor (Z.lxor (gmul 2 (gmul 11 x)) (gmul 3 (gmul 14 x))) (gmul 9 x))
         (gmul 13 x) = 0 /\
  Z.lxor (Z.lxor (Z.lxor (gmul 2 (gmul 13 x)) (gmul 3 (gmul 11 x))) (gmul 14 x))
         (gmul 9 x) = 0 /\
  Z.lxor (Z.lxor (Z.lxor (gmul 2 (gmul 9 x)) (gmul 3 (gmul 13 x))) (gmul 11 x))
         (gmul 14 x) = 0.
Proof.
  intro Hx.
  assert (H : forallb
    (fun x =>
       (Z.lxor (Z.lxor (Z.lxor (gmul 2 (gmul 14 x)) (gmul 3 (gmul 9 x)))
                       (gmul 13 x)) (gmul 11 x) =? x) &&
       (Z.lxor (Z.lxor (Z.lxor (gmul 2 (gmul 11 x)) (gmul 3 (gmul 14 x)))
                       (gmul 9 x)) (gmul 13 x) =? 0) &&
       (Z.lxor (Z.lxor (Z.lxor (gmul 2 (gmul 13 x)) (gmul 3 (gmul 11 x)))
                       (gmul 14 x)) (gmul 9 x) =? 0) &&
       (Z.lxor (Z.lxor (Z.lxor (gmul 2 (gmul 9 x)) (gmul 3 (gmul 13 x)))
                       (gmul 11 x)) (gmul 14 x) =? 0))
    (range 0 256 1) = true) by (vm_compute; reflexivity).
  pose proof (forall_bytes _ H x Hx) as E. cbv beta in E.
  repeat (apply andb_true_iff in E; destruct E as [E ?]).
  repeat split; apply Z.eqb_eq; assumption.
Qed.

(** One column through [invMixColumns] and back through [mixColumns]. *)
Lemma column_inverse_rev (a b c d : Z) :
  byte a -> byte b -> byte c -> byte d ->
  let a' := Z.lxor (Z.lxor (Z.lxor (gmul 14 a) (gmul 11 b)) (gmul 13 c))
                   (gmul 9 d) in
  let b' := Z.lxor (Z.lxor (Z.lxor (gmul 9 a) (gmul 14 b)) (gmul 11 c))
                   (gmul 13 d) in
  let c' := Z.lxor (Z.lxor (Z.lxor (gmul 13 a) (gmul 9 b)) (gmul 14 c))
                   (gmul 11 d) in
  let d' := Z.lxor (Z.lxor (Z.lxor (gmul 11 a) (gmul 13 b)) (gmul 9 c))
                   (gmul 14 d) in
  Z.lxor (Z.lxor (Z.lxor (gmul 2 a') (gmul 3 b')) c') d' = a /\
  Z.lxor (Z.lxor (Z.lxor a' (gmul 2 b')) (gmul 3 c')) d' = b /\
  Z.lxor (Z.lxor (Z.lxor a' b') (gmul 2 c')) (gmul 3 d') = c /\
  Z.lxor (Z.lxor (Z.lxor (gmul 3 a') b') c') (gmul 2 d') = d.
Proof.
  intros Ha Hb Hc Hd. cbv zeta. rewrite !gmul_lxor.
  destruct (mix_coefficients_rev a Ha) as (A1 & A2 & A3 & A4).
  destruct (mix_coefficients_rev b Hb) as (B1 & B2 & B3 & B4).
  destruct (mix_coefficients_rev c Hc) as (C1 & C2 & C3 & C4).
  destruct (mix_coefficients_rev d Hd) as (D1 & D2 & D3 & D4).
  repeat split.
  - solve_row A1 B2 C3 D4.
  - solve_row A4 B1 C2 D3.
  - solve_row A3 B4 C1 D2.
  - solve_row A2 B3 C4 D1.
Qed.

Lemma invMixColumns_returns (s : list Z) :
  block s -> returns (AES.invMixColumns s) block.
Proof.
  intro Hb. unfold AES.invMixColumns.
  pose proof (fun c y => mult_returns c y) as Hm.
  eapply returns_bind;
    [apply mixRow_returns; try exact Hb; intros; apply Hm; assumption|].
  intros r0 [L0 B0].
  eapply returns_bind;
    [apply mixRow_returns; try exact Hb; intros; apply Hm; assumption|].
  intros r1 [L1 B1].
  eapply returns_bind;
    [apply mixRow_returns; try exact Hb; intros; apply Hm; assumption|].
  intros r2 [L2 B2].
  eapply returns_bind;
    [apply mixRow_returns; try exact Hb; intros; apply Hm; assumption|].
  intros r3 [L3 B3].
  apply returns_ok. split.
  - rewrite !length_app. lia.
  - repeat apply bytes_app; assumption.
Qed.

Lemma inv_mix_value_block (s : list Z) : block s -> block (inv_mix_value s).
Proof.
  intro Hb. destruct (invMixColumns_returns s Hb) as (t & E & Ht).
  rewrite (invMixColumns_value s Hb) in E. congruence.
Qed.

Lemma inv_mix_value_inverse (s : list Z) :
  block s -> mix_value (inv_mix_value s) = s.
Proof.
  intros [Hlen Hb]. explode16 s Hlen. unfold bytes in Hb.
  repeat match goal with
         | H : Forall _ (_ :: _) |- _ => inversion H; clear H; subst
         end.
  match goal with
  | |- mix_value (inv_mix_value [?a0; ?a1; ?a2; ?a3; ?a4; ?a5; ?a6; ?a7;
                                 ?a8; ?a9; ?a10; ?a11; ?a12; ?a13; ?a14; ?a15]) = _ =>
      pose proof (column_inverse_rev a0 a4 a8 a12) as C0;
      pose proof (column_inverse_rev a1 a5 a9 a13) as C1;
      pose proof (column_inverse_rev a2 a6 a10 a14) as C2;
      pose proof (column_inverse_rev a3 a7 a11 a15) as C3
  end.
  repeat match goal with
         | C : byte _ -> _ |- _ =>
             let B := fresh in
             assert (B := C ltac:(assumption)); clear C
         end.
  cbv zeta in *.
  repeat match goal with
         | C : _ /\ _ |- _ => destruct C
         end.
  cbv -[gmul Z.lxor].
  repeat (f_equal; try assumption).
Qed.

Lemma invMixColumns_inverse (s : list Z) :
  block s ->
  exists t, AES.invMixColumns s = Ok t /\ block t /\ AES.mixColumns t = Ok s.
Proof.
  intro Hb. exists (inv_mix_value s).
  split; [apply invMixColumns_value, Hb|].
  split; [apply inv_mix_value_block, Hb|].
  rewrite mixColumns_value by (apply inv_mix_value_block, Hb).
  f_equal. apply inv_mix_value_inverse, Hb.
Qed.

Lemma invShiftRows_block (s : list Z) : block s -> block (AES.invShiftRows s).
Proof.
  intros [Hlen Hbytes]. split.
  - explode16 s Hlen. reflexivity.
  - unfold AES.invShiftRows. repeat apply bytes_app; apply bytes_slice, Hbytes.
Qed.

(** [n] decryption rounds ending before round key [j], and the [n]
    encryption rounds that undo them. *)
Lemma rounds_inverse_rev (e : AES.t) (ks : AES.keysize) :
  List.length (AES.w e) = 60%nat ->
  (forall k, (k < Z.to_nat (AES.wordSizeTable ks))%nat ->
             exists n, nth_error (AES.w e) k = Some (Some n)) ->
  forall (n : nat) (j : Z) (d : list Z),
    block d -> 0 <= j ->
    j + Z.of_nat n + 1 <= AES.numberOfRoundsTable ks ->
    exists d',
      block d' /\
      AES.repeatM n (dec_round e)
        (d, AES.Running (rev (range 0 (4 * (j + Z.of_nat n + 1)) 4)))
      = Ok (d', AES.Running (rev (range 0 (4 * (j + 1)) 4))) /\
      forall v v',
        AES.invSubBytes (AES.invShiftRows d) = Ok v ->
        AES.invSubBytes (AES.invShiftRows d') = Ok v' ->
        AES.repeatM n (enc_round e)
          (v', AES.Running (range (4 * (j + 1)) (AES.wordSizeTable ks) 4))
        = Ok (v, AES.Running (range (4 * (j + Z.of_nat n + 1))
                                    (AES.wordSizeTable ks) 4)).
Proof.
  intros Hlen Hw. destruct (rounds_words ks) as [Ews _].
  induction n as [|n IH]; intros j d Hd Hj Hn.
  - exists d. split; [exact Hd|]. cbn [AES.repeatM].
    replace (j + Z.of_nat 0 + 1) with (j + 1) by lia.
    split; [reflexivity|]. intros v v' Ev Ev'. congruence.
  - (* the first decryption round *)
    pose proof (invShiftRows_block d Hd) as Hsr.
    destruct (invSubBytes_inverse _ Hsr) as (v & Ev & Hv & Iv).
    destruct (next_key e ks (4 * (j + Z.of_nat n + 1)) Hlen Hw
                ltac:(lia) ltac:(lia)) as (k & Hk & Ek).
    pose proof (addRoundKey_block k v Hk Hv) as Hw1.
    destruct (invMixColumns_inverse _ Hw1) as (d1 & Em & Hd1 & Im).
    destruct (IH j d1 Hd1 Hj ltac:(lia)) as (d' & Hd' & Edec & Eenc).
    exists d'. split; [exact Hd'|]. split.
    + cbn [AES.repeatM]. unfold dec_round at 1. rewrite Ev. cbn [bind].
      replace (j + Z.of_nat (S n) + 1) with (j + Z.of_nat n + 1 + 1) by lia.
      rewrite (rev_keys_cons (j + Z.of_nat n + 1)) by lia.
      rewrite Ek. cbn [bind]. rewrite Em. cbn [bind]. exact Edec.
    + intros v0 v' Ev0 Ev'. rewrite Ev in Ev0. inversion Ev0; subst v0.
      rewrite repeatM_snoc.
      pose proof (invShiftRows_block d1 Hd1) as Hsr1.
      destruct (invSubBytes_inverse _ Hsr1) as (v1 & Ev1 & Hv1 & Iv1).
      rewrite (Eenc v1 v' Ev1 Ev'). cbn [bind]. unfold enc_round.
      rewrite Iv1. cbn [bind].
      rewrite (proj2 (shiftRows_inverse d1 (proj1 Hd1))).
      rewrite Im. cbn [bind].
      rewrite (range_cons (4 * (j + Z.of_nat n + 1))) by lia.
      rewrite Ek. cbn [bind].
      rewrite addRoundKey_involution by (rewrite (proj1 Hk), (proj1 Hv); lia).
      replace (4 * (j + Z.of_nat n + 1) + 4)
        with (4 * (j + Z.of_nat (S n) + 1)) by lia.
      reflexivity.
Qed.

(** On a keyed engine [decryptBlock] maps a 16-byte block to a 16-byte
    block that [encryptBlock] maps back. *)
Lemma block_round_trip_rev (e : AES.t) (c : list Z) :
  keyed e -> block c ->
  exists b, AES.decryptBlock e c = Ok b /\ block b /\
            AES.encryptBlock e b = Ok c.
Proof.
  intros (ks & Hws & Hnr & _ & Hlen & Hw) Hc.
  destruct (rounds_words ks) as [Ews Hnr1].
  set (nr := AES.numberOfRoundsTable ks) in *.
  set (ws := AES.wordSizeTable ks) in *.
  destruct (listToState_involution c (proj1 Hc)) as (st & Est & Lst & Ist).
  assert (Hst : block st).
  { destruct (listToState_returns c Hc) as (st' & E' & H'). congruence. }
  destruct (next_key e ks (4 * nr) Hlen Hw ltac:(lia) ltac:(fold ws; lia))
    as (kn & Hkn & Ekn).
  destruct (next_key e ks 0 Hlen Hw ltac:(lia) ltac:(fold ws; lia))
    as (k0 & Hk0 & Ek0).
  pose proof (addRoundKey_block kn st Hkn Hst) as Hd0.
  destruct (rounds_inverse_rev e ks Hlen Hw (Z.to_nat (nr - 1)) 0
              (AES.addRoundKey kn st) Hd0 ltac:(lia) ltac:(fold nr; lia))
    as (d' & Hd' & Edec & Eenc).
  fold ws in Eenc. rewrite Z2Nat.id in Edec, Eenc by lia.
  replace (0 + (nr - 1) + 1) with nr in Edec, Eenc by lia.
  pose proof (invShiftRows_block d' Hd') as Hsr'.
  destruct (invSubBytes_inverse _ Hsr') as (v' & Ev' & Hv' & Iv').
  pose proof (addRoundKey_block k0 v' Hk0 Hv') as Hps.
  destruct (stateToList_listToState _ (proj1 Hps)) as (b & Eb & Lb & Ib).
  assert (Hb : block b).
  { destruct (listToState_returns _ Hps) as (b' & E' & H').
    unfold AES.stateToList in Eb. congruence. }
  assert (Edstart : AES.next e (AES.getKey AES.decryption)
                    = Ok (kn, AES.Running (rev (range 0 (4 * nr) 4)))).
  { unfold AES.next, AES.getKey. rewrite Hws. cbn [AES.int_attr bind].
    fold ws. replace ws with (4 * (nr + 1)) by lia.
    rewrite (rev_keys_cons nr) by lia.
    specialize (Ekn (rev (range 0 (4 * nr) 4))). unfold AES.next in Ekn.
    cbn [bind] in Ekn. exact Ekn. }
  assert (Estart : AES.next e (AES.getKey AES.encryption)
                   = Ok (k0, AES.Running (range 4 ws 4))).
  { unfold AES.next, AES.getKey. rewrite Hws. cbn [AES.int_attr bind].
    fold ws. rewrite (range_cons 0) by lia.
    specialize (Ek0 (range (0 + 4) ws 4)). unfold AES.next in Ek0.
    cbn [bind] in Ek0. exact Ek0. }
  exists b. split; [|split; [exact Hb|]].
  - rewrite decryptBlock_rounds, Est. cbn [bind]. rewrite Edstart.
    cbn [bind fst snd]. rewrite Hnr. cbn [AES.int_attr bind]. fold nr.
    rewrite Edec. cbn [bind fst snd]. rewrite Ev'. cbn [bind].
    change (4 * (0 + 1)) with (4 * (0 + 1)).
    rewrite (rev_keys_cons 0) by lia. change (4 * 0) with 0.
    rewrite Ek0. cbn [bind fst]. exact Eb.
  - pose proof (invShiftRows_block _ Hd0) as Hsr0.
    destruct (invSubBytes_inverse _ Hsr0) as (v0 & Ev0 & Hv0 & Iv0).
    specialize (Eenc v0 v' Ev0 Ev').
    rewrite encryptBlock_rounds, Ib. cbn [bind]. rewrite Estart.
    cbn [bind fst snd]. rewrite Hnr. cbn [AES.int_attr bind]. fold nr.
    rewrite addRoundKey_involution by (rewrite (proj1 Hk0), (proj1 Hv'); lia).
    change (4 * (0 + 1)) with 4 in Eenc. rewrite Eenc. cbn [bind fst snd].
    rewrite Iv0. cbn [bind].
    rewrite (proj2 (shiftRows_inverse _ (proj1 Hd0))).
    rewrite (range_cons (4 * nr)) by lia. rewrite Ekn. cbn [bind fst].
    rewrite addRoundKey_involution by (rewrite (proj1 Hkn), (proj1 Hst); lia).
    exact Ist.
Qed.

End BlockInverseRev.

(** * Further properties of the code *)

(** ** An engine keyed with the FIPS-197 key, for the instances *)
Section SampleEngine.

Lemma sample_engine (m : AES.mode) (p : AES.padding_scheme) :
  exists e,
    AES.setKey (AES.new m p) AES.SIZE_128 0x2b7e151628aed2a6abf7158809cf4f3c
               (Some 0x000102030405060708090a0b0c0d0e0f) = Ok e /\
    keyed e /\ AES.cipherMode e = m /\ AES.padding e = p /\
    (m = AES.MODE_CBC ->
     AES.ivEncrypt e = Some (AES.intToList 0x000102030405060708090a0b0c0d0e0f) /\
     AES.ivDecrypt e = Some (AES.intToList 0x000102030405060708090a0b0c0d0e0f)).
Proof.
  destruct (setKey_returns (AES.new m p) AES.SIZE_128
              0x2b7e151628aed2a6abf7158809cf4f3c
              (Some 0x000102030405060708090a0b0c0d0e0f))
    as (e & He & Hk & Hm & Hp & _ & _ & Hiv).
  - unfold key_fits. vm_compute. discriminate.
  - reflexivity.
  - discriminate.
  - exists e. split; [exact He|]. split; [exact Hk|].
    split; [exact Hm|]. split; [exact Hp|].
    intro E. apply (Hiv _ E eq_refl).
Qed.

Lemma text_check (s : list Z) :
  forallb (fun c => (0 <=? c) && (c <? 0x110000)) s = true -> text s.
Proof.
  intro H. apply Forall_forall. intros c Hc.
  rewrite forallb_forall in H. specialize (H c Hc).
  apply andb_prop in H. destruct H as [H1 H2].
  apply Z.leb_le in H1. apply Z.ltb_lt in H2. split; assumption.
Qed.

End SampleEngine.

(** ** AES.py: the transformations of a state *)
Section StateTransformations.

(** X1. [subBytes] and [invSubBytes] undo each other: on a state of 16
    bytes each of them returns a state of 16 bytes, and the other one
    applied to that state returns the original one; [invSBox] is the
    inverse table of [sBox]. *)
Theorem X1_subBytes_invSubBytes (s : list Z) :
  block s ->
  (exists t, AES.subBytes s = Ok t /\ block t /\ AES.invSubBytes t = Ok s) /\
  (exists t, AES.invSubBytes s = Ok t /\ block t /\ AES.subBytes t = Ok s).
Proof.
  intro H. split; [apply subBytes_inverse | apply invSubBytes_inverse];
    exact H.
Qed.

Lemma X1_witness :
  (exists t, AES.subBytes (AES.intToList 0x6bc1bee22e409f96e93d7e117393172a)
             = Ok t /\ block t /\
             AES.invSubBytes t
             = Ok (AES.intToList 0x6bc1bee22e409f96e93d7e117393172a)) /\
  (exists t, AES.invSubBytes (AES.intToList 0x6bc1bee22e409f96e93d7e117393172a)
             = Ok t /\ block t /\
             AES.subBytes t
             = Ok (AES.intToList 0x6bc1bee22e409f96e93d7e117393172a)).
Proof.
  apply (X1_subBytes_invSubBytes
           (AES.intToList 0x6bc1bee22e409f96e93d7e117393172a)).
  apply block_check. vm_compute. reflexivity.
Defined.

(** X2. [shiftRows] and [invShiftRows] undo each other on every list of 16
    elements, whatever the elements are. *)
Theorem X2_shiftRows_invShiftRows (s : list Z) :
  List.length s = 16%nat ->
  AES.invShiftRows (AES.shiftRows s) = s /\
  AES.shiftRows (AES.invShiftRows s) = s.
Proof. apply shiftRows_inverse. Qed.

Lemma X2_witness :
  AES.invShiftRows (AES.shiftRows (range 0 16 1)) = range 0 16 1 /\
  AES.shiftRows (AES.invShiftRows (range 0 16 1)) = range 0 16 1.
Proof. apply (X2_shiftRows_invShiftRows (range 0 16 1)). reflexivity. Defined.

(** X3. [listToState] is an involution, as the comment on [stateToList]
    says: on a list of 16 elements it returns a list of 16 elements, and
    applied to that list it returns the original one. *)
Theorem X3_listToState_involution (l : list Z) :
  List.length l = 16%nat ->
  exists st, AES.listToState l = Ok st /\ List.length st = 16%nat /\
             AES.stateToList st = Ok l.
Proof. apply listToState_involution. Qed.

Lemma X3_witness :
  exists st, AES.listToState (range 0 16 1) = Ok st /\
             List.length st = 16%nat /\
             AES.stateToList st = Ok (range 0 16 1).
Proof. apply (X3_listToState_involution (range 0 16 1)). reflexivity. Defined.

(** X4. [mixColumns] and [invMixColumns] undo each other on a state of 16
    bytes, in both orders. *)
Theorem X4_mixColumns_invMixColumns (s : list Z) :
  block s ->
  (exists t, AES.mixColumns s = Ok t /\ block t /\ AES.invMixColumns t = Ok s) /\
  (exists t, AES.invMixColumns s = Ok t /\ block t /\ AES.mixColumns t = Ok s).
Proof.
  intro H. split; [apply mixColumns_inverse | apply invMixColumns_inverse];
    exact H.
Qed.

Lemma X4_witness :
  (exists t, AES.mixColumns (AES.intToList 0x6bc1bee22e409f96e93d7e117393172a)
             = Ok t /\ block t /\
             AES.invMixColumns t
             = Ok (AES.intToList 0x6bc1bee22e409f96e93d7e117393172a)) /\
  (exists t, AES.invMixColumns (AES.intToList 0x6bc1bee22e409f96e93d7e117393172a)
             = Ok t /\ block t /\
             AES.mixColumns t
             = Ok (AES.intToList 0x6bc1bee22e409f96e93d7e117393172a)).
Proof.
  apply (X4_mixColumns_invMixColumns
           (AES.intToList 0x6bc1bee22e409f96e93d7e117393172a)).
  apply block_check. vm_compute. reflexivity.
Defined.

(** X5. [mult] is the multiplication its docstring names: on two bytes it
    returns the product of the two polynomials over GF(2), reduced modulo
    x^8+x^4+x^3+x+1. *)
Theorem X5_mult_field_product (a b : Z) :
  byte a -> byte b -> AES.mult a b = Ok (gf_mul a b).
Proof.
  intros Ha Hb. rewrite (mult_byte a b Hb). f_equal.
  apply gmul_gf_mul; assumption.
Qed.

Lemma X5_witness : AES.mult 0x57 0x83 = Ok (gf_mul 0x57 0x83).
Proof. apply (X5_mult_field_product 0x57 0x83); unfold byte; lia. Defined.

(** X6. [addRoundKey] (also bound to [xorLists]) is an involution: adding
    the same subkey twice gives the state back, when the subkey is at least
    as long as the state. *)
Theorem X6_addRoundKey_involution (k s : list Z) :
  (List.length s <= List.length k)%nat ->
  AES.addRoundKey k (AES.addRoundKey k s) = s.
Proof. apply addRoundKey_involution. Qed.

Lemma X6_witness :
  AES.addRoundKey (range 16 32 1) (AES.addRoundKey (range 16 32 1) (range 0 16 1))
  = range 0 16 1.
Proof.
  apply (X6_addRoundKey_involution (range 16 32 1) (range 0 16 1)).
  simpl. lia.
Defined.

(** X7. For integers below 2^128 [intToList2] returns one block of 16
    bytes, and [listToInt] reads the integer back from it. *)
Theorem X7_intToList2_listToInt (n : Z) :
  0 <= n < 2 ^ 128 ->
  exists l, AES.intToList2 n = Ok l /\ block l /\ listToInt l = Ok n.
Proof.
  intro H. destruct (aes_intToList2_block n H) as (l & E & Hb & Hv).
  exists l. split; [exact E|]. split; [exact Hb|].
  rewrite listToInt_be by (apply block_nonempty, Hb). rewrite Hv. reflexivity.
Qed.

Lemma X7_witness :
  exists l, AES.intToList2 0x3243f6a8885a308d313198a2e0370734 = Ok l /\
            block l /\ listToInt l = Ok 0x3243f6a8885a308d313198a2e0370734.
Proof.
  apply (X7_intToList2_listToInt 0x3243f6a8885a308d313198a2e0370734).
  split; [lia | reflexivity].
Defined.

End StateTransformations.

(** ** AES.py: blocks and modes *)
Section BlockAndModes.

(** X8. On an engine that holds a key, [encryptBlock] and [decryptBlock]
    are inverse bijections of the 16-byte blocks: each returns a block, and
    the other one applied to it returns the original block. *)
Theorem X8_block_functions_inverse (e : AES.t) (b : list Z) :
  keyed e -> block b ->
  (exists c, AES.encryptBlock e b = Ok c /\ block c /\
             AES.decryptBlock e c = Ok b) /\
  (exists p, AES.decryptBlock e b = Ok p /\ block p /\
             AES.encryptBlock e p = Ok b).
Proof.
  intros Hk Hb. split;
    [apply block_round_trip | apply block_round_trip_rev]; assumption.
Qed.

Lemma X8_witness :
  exists e,
    AES.setKey (AES.new AES.MODE_ECB AES.NoPadding) AES.SIZE_128
               0x2b7e151628aed2a6abf7158809cf4f3c
               (Some 0x000102030405060708090a0b0c0d0e0f) = Ok e /\
    (exists c, AES.encryptBlock e (range 0 16 1) = Ok c /\ block c /\
               AES.decryptBlock e c = Ok (range 0 16 1)) /\
    (exists p, AES.decryptBlock e (range 0 16 1) = Ok p /\ block p /\
               AES.encryptBlock e p = Ok (range 0 16 1)).
Proof.
  destruct (sample_engine AES.MODE_ECB AES.NoPadding) as (e & He & Hk & _).
  exists e. split; [exact He|].
  apply (X8_block_functions_inverse e (range 0 16 1)); [exact Hk|].
  apply block_check. reflexivity.
Defined.

(** X9. [padData] on a byte string [d] appends [n] bytes of value [n] and
    the result is a whole number of blocks; [n] is 16 - len(d) % 16 with
    PKCS5Padding (1 to 16 bytes) and that number modulo 16 with NoPadding
    (0 to 15 bytes: NoPadding still fills the last block). *)
Theorem X9_padData_fills_last_block (e : AES.t) (d : list Z) :
  exists pad,
    AES.padData e (PyBytes d) = Ok (d ++ pad) /\
    pad = repeat (len pad) (Z.to_nat (len pad)) /\
    aligned (d ++ pad) /\
    len pad = match AES.padding e with
              | AES.NoPadding => (16 - len d mod 16) mod 16
              | AES.PKCS5Padding => 16 - len d mod 16
              end.
Proof.
  exists (padding_of e d). split; [apply padData_bytes_value|].
  destruct (padding_of_shape e d) as (_ & Ha & _).
  assert (Hl : len (padding_of e d)
               = match AES.padding e with
                 | AES.NoPadding => (16 - len d mod 16) mod 16
                 | AES.PKCS5Padding => 16 - len d mod 16
                 end).
  { pose proof (Z.mod_pos_bound (len d) 16 ltac:(lia)) as Hm.
    pose proof (Z.mod_pos_bound (16 - len d mod 16) 16 ltac:(lia)) as Hm'.
    unfold padding_of. destruct (AES.padding e); unfold len in *;
      rewrite repeat_length; lia. }
  split; [|split; [exact Ha | exact Hl]].
  rewrite Hl. unfold padding_of. destruct (AES.padding e); reflexivity.
Qed.

(** X10. ECB round trip on byte strings: on a keyed engine in ECB mode
    [encrypt] returns a list of bytes as long as the padded data and leaves
    the engine as it is, and [decrypt] of that list returns the data as a
    text string: exactly the data with PKCS5Padding, the data followed by
    the fill bytes of [padData] with NoPadding, which are not removed. *)
Theorem X10_ecb_round_trip (e : AES.t) (d : list Z) :
  keyed e -> AES.cipherMode e = AES.MODE_ECB -> bytes d ->
  exists c,
    AES.encrypt e (PyBytes d) = Ok (PyList c, e) /\
    bytes c /\ len c = len d + len (padding_of e d) /\
    AES.decrypt e (PyList c) = Ok (PyStr (d ++ unpadded_tail e d), e).
Proof. apply ecb_round_trip. Qed.

Lemma X10_witness :
  exists e,
    AES.setKey (AES.new AES.MODE_ECB AES.PKCS5Padding) AES.SIZE_128
               0x2b7e151628aed2a6abf7158809cf4f3c
               (Some 0x000102030405060708090a0b0c0d0e0f) = Ok e /\
    exists c,
      AES.encrypt e (PyBytes [1; 2; 3]) = Ok (PyList c, e) /\
      bytes c /\ len c = len [1; 2; 3] + len (padding_of e [1; 2; 3]) /\
      AES.decrypt e (PyList c)
      = Ok (PyStr ([1; 2; 3] ++ unpadded_tail e [1; 2; 3]), e).
Proof.
  destruct (sample_engine AES.MODE_ECB AES.PKCS5Padding)
    as (e & He & Hk & Hm & _).
  exists e. split; [exact He|].
  apply (X10_ecb_round_trip e [1; 2; 3]); [exact Hk | exact Hm |].
  apply bytes_check. reflexivity.
Defined.

(** X11. CBC round trip on byte strings: on a keyed engine in CBC mode
    whose two IV registers hold the same block, [encrypt] returns a list
    of bytes as long as the padded data and touches the encryption register
    only; [decrypt] of that list on the resulting engine returns the data
    (followed by the fill bytes with NoPadding), and afterwards both
    registers hold the last ciphertext block (the IV when there was no
    block). *)
Theorem X11_cbc_round_trip (e : AES.t) (iv d : list Z) :
  keyed e -> AES.cipherMode e = AES.MODE_CBC -> bytes d ->
  AES.ivEncrypt e = Some iv -> AES.ivDecrypt e = Some iv -> block iv ->
  exists c e1 e2,
    AES.encrypt e (PyBytes d) = Ok (PyList c, e1) /\
    bytes c /\ len c = len d + len (padding_of e d) /\
    AES.decrypt e1 (PyList c) = Ok (PyStr (d ++ unpadded_tail e d), e2) /\
    AES.ivDecrypt e1 = Some iv /\
    AES.ivEncrypt e2 = Some (last_block (iv ++ c)) /\
    AES.ivDecrypt e2 = Some (last_block (iv ++ c)).
Proof.
  intros Hk Hm Hd Hive Hivd Hiv. pose proof Hk as (ks & _ & _ & Hkd & _).
  destruct (padding_of_shape e d) as (Bp & Al & _).
  set (l := d ++ padding_of e d) in *.
  assert (Bl : bytes l) by (apply bytes_app; assumption).
  destruct (cbc_loops_inverse e [] (Z.to_nat (len l / 16)) Hk l iv [] []
              (aligned_length l Al) Bl Hiv) as (c & Bc & Lc & Ec & Dc).
  cbn [app] in Ec, Dc.
  set (e1 := AES.set_ivEncrypt e (Some (last_block (iv ++ c)))).
  set (e2 := AES.set_ivDecrypt e1 (Some (last_block (iv ++ c)))).
  exists c, e1, e2. split; [|split; [exact Bc|split; [|split]]].
  - rewrite (encrypt_bytes_unfold e d l Hkd (padData_bytes_value e d)).
    rewrite Hm, Hive, Ec. reflexivity.
  - unfold len in *. rewrite Lc. unfold l. rewrite length_app. lia.
  - rewrite (decrypt_list_unfold e1 c Hkd).
    change (AES.cipherMode e1) with (AES.cipherMode e). rewrite Hm.
    change (AES.ivDecrypt e1) with (AES.ivDecrypt e). rewrite Hivd.
    assert (Dc' : AES.for_blocks c (AES.cbc_decrypt_step e1 (PyList c))
                    (Some iv, [])
                  = Ok (Some (last_block (iv ++ c)), l)) by exact Dc.
    rewrite Dc'. cbn [bind fst snd]. unfold l.
    change (AES.unpadData e1 (d ++ padding_of e d))
      with (AES.unpadData e (d ++ padding_of e d)).
    rewrite (unpad_after_pad e d Hd). reflexivity.
  - repeat split; try reflexivity. exact Hivd.
Qed.

Lemma X11_witness :
  exists e,
    AES.setKey (AES.new AES.MODE_CBC AES.PKCS5Padding) AES.SIZE_128
               0x2b7e151628aed2a6abf7158809cf4f3c
               (Some 0x000102030405060708090a0b0c0d0e0f) = Ok e /\
    exists c e1 e2,
      AES.encrypt e (PyBytes [1; 2; 3]) = Ok (PyList c, e1) /\
      bytes c /\ len c = len [1; 2; 3] + len (padding_of e [1; 2; 3]) /\
      AES.decrypt e1 (PyList c)
      = Ok (PyStr ([1; 2; 3] ++ unpadded_tail e [1; 2; 3]), e2) /\
      AES.ivDecrypt e1
      = Some (AES.intToList 0x000102030405060708090a0b0c0d0e0f) /\
      AES.ivEncrypt e2
      = Some (last_block
                (AES.intToList 0x000102030405060708090a0b0c0d0e0f ++ c)) /\
      AES.ivDecrypt e2
      = Some (last_block
                (AES.intToList 0x000102030405060708090a0b0c0d0e0f ++ c)).
Proof.
  destruct (sample_engine AES.MODE_CBC AES.PKCS5Padding)
    as (e & He & Hk & Hm & _ & Hiv).
  destruct (Hiv eq_refl) as [Hive Hivd].
  exists e. split; [exact He|].
  apply (X11_cbc_round_trip e
           (AES.intToList 0x000102030405060708090a0b0c0d0e0f) [1; 2; 3]);
    [exact Hk | exact Hm | | exact Hive | exact Hivd |].
  - apply bytes_check. reflexivity.
  - apply block_check. vm_compute. reflexivity.
Defined.

(** X12. ECB round trip on integers: on a keyed engine in ECB mode an
    integer below 2^128 is encrypted to an integer below 2^128, and
    [decrypt] of that integer returns the original one; the engine is left
    as it is. *)
Theorem X12_ecb_int_round_trip (e : AES.t) (n : Z) :
  keyed e -> AES.cipherMode e = AES.MODE_ECB -> 0 <= n < 2 ^ 128 ->
  exists c,
    0 <= c < 2 ^ 128 /\
    AES.encrypt e (PyInt n) = Ok (PyInt c, e) /\
    AES.decrypt e (PyInt c) = Ok (PyInt n, e).
Proof.
  intros Hk Hm Hn. pose proof Hk as (ks & _ & _ & Hkd & _).
  destruct (aes_intToList2_block n Hn) as (p & Ep & Hp & Vp).
  destruct (ecb_block_loops e [] p Hk Hp) as (c & Hc & Ec & Dc).
  exists (be_value c). split; [apply block_value_bound, Hc|]. split.
  - unfold AES.encrypt. rewrite Hkd. cbn [negb]. rewrite Ep. cbn [bind].
    rewrite Hm, Ec. cbn [bind].
    rewrite listToInt_be by (apply block_nonempty, Hc). reflexivity.
  - unfold AES.decrypt. rewrite Hkd. cbn [negb].
    rewrite (aes_intToList2_be c Hc). cbn [bind]. rewrite Hm.
    assert (Dc' : AES.for_blocks c
                    (AES.ecb_decrypt_step e (PyInt (be_value c))) []
                  = Ok p) by exact Dc.
    rewrite Dc'. cbn [bind].
    rewrite listToInt_be by (apply block_nonempty, Hp). rewrite Vp.
    reflexivity.
Qed.

Lemma X12_witness :
  exists e,
    AES.setKey (AES.new AES.MODE_ECB AES.NoPadding) AES.SIZE_128
               0x2b7e151628aed2a6abf7158809cf4f3c
               (Some 0x000102030405060708090a0b0c0d0e0f) = Ok e /\
    exists c,
      0 <= c < 2 ^ 128 /\
      AES.encrypt e (PyInt 0x3243f6a8885a308d313198a2e0370734)
      = Ok (PyInt c, e) /\
      AES.decrypt e (PyInt c)
      = Ok (PyInt 0x3243f6a8885a308d313198a2e0370734, e).
Proof.
  destruct (sample_engine AES.MODE_ECB AES.NoPadding) as (e & He & Hk & Hm & _).
  exists e. split; [exact He|].
  apply (X12_ecb_int_round_trip e 0x3243f6a8885a308d313198a2e0370734);
    [exact Hk | exact Hm |].
  split; [lia | reflexivity].
Defined.

(** X13. ECB works block by block: with NoPadding, when the first byte
    string is a whole number of blocks, the ciphertext of a concatenation
    is the concatenation of the ciphertexts. *)
Theorem X13_ecb_encrypt_concatenation (e : AES.t) (d1 d2 : list Z) :
  keyed e -> AES.cipherMode e = AES.MODE_ECB ->
  AES.padding e = AES.NoPadding ->
  bytes d1 -> bytes d2 -> aligned d1 ->
  exists c1 c2,
    AES.encrypt e (PyBytes d1) = Ok (PyList c1, e) /\
    AES.encrypt e (PyBytes d2) = Ok (PyList c2, e) /\
    AES.encrypt e (PyBytes (d1 ++ d2)) = Ok (PyList (c1 ++ c2), e).
Proof.
  intros Hk Hm Hp H1 H2 Ha. pose proof Hk as (ks & _ & _ & Hkd & _).
  destruct (ecb_round_trip e d1 Hk Hm H1) as (c1 & E1 & _).
  destruct (ecb_round_trip e d2 Hk Hm H2) as (c2 & E2 & _).
  exists c1, c2. split; [exact E1|]. split; [exact E2|].
  assert (P1 : padding_of e d1 = [])
    by (apply (padding_of_shape e d1); assumption).
  assert (P12 : padding_of e (d1 ++ d2) = padding_of e d2).
  { unfold padding_of. rewrite len_app. unfold aligned in Ha.
    replace ((len d1 + len d2) mod 16) with (len d2 mod 16); [reflexivity|].
    rewrite Z.add_mod, Ha, Z.add_0_l, Z.mod_mod by lia. reflexivity. }
  rewrite (encrypt_bytes_unfold e d1 _ Hkd (padData_bytes_value e d1)) in E1.
  rewrite (encrypt_bytes_unfold e d2 _ Hkd (padData_bytes_value e d2)) in E2.
  rewrite (encrypt_bytes_unfold e _ _ Hkd (padData_bytes_value e (d1 ++ d2))).
  rewrite Hm in *. rewrite P1, app_nil_r in E1. rewrite P12, <- app_assoc.
  rewrite (for_blocks_app _ (Z.to_nat (len d1 / 16)))
    by (apply aligned_length, Ha).
  destruct (AES.for_blocks d1 (AES.ecb_encrypt_step e) []) as [x1| |];
    try discriminate E1.
  cbn [bind] in *. apply Ok_inj in E1.
  assert (x1 = c1) by congruence. subst x1.
  destruct (padding_of_shape e d2) as (_ & Al2 & _).
  rewrite (ecb_loop_acc e (Z.to_nat (len (d2 ++ padding_of e d2) / 16)))
    by (apply aligned_length, Al2).
  destruct (AES.for_blocks (d2 ++ padding_of e d2) (AES.ecb_encrypt_step e) [])
    as [x2| |]; try discriminate E2.
  cbn [bind] in *. apply Ok_inj in E2.
  assert (x2 = c2) by congruence. subst x2. reflexivity.
Qed.

Lemma X13_witness :
  exists e,
    AES.setKey (AES.new AES.MODE_ECB AES.NoPadding) AES.SIZE_128
               0x2b7e151628aed2a6abf7158809cf4f3c
               (Some 0x000102030405060708090a0b0c0d0e0f) = Ok e /\
    exists c1 c2,
      AES.encrypt e (PyBytes (range 0 16 1)) = Ok (PyList c1, e) /\
      AES.encrypt e (PyBytes [1; 2; 3]) = Ok (PyList c2, e) /\
      AES.encrypt e (PyBytes (range 0 16 1 ++ [1; 2; 3]))
      = Ok (PyList (c1 ++ c2), e).
Proof.
  destruct (sample_engine AES.MODE_ECB AES.NoPadding)
    as (e & He & Hk & Hm & Hp & _).
  exists e. split; [exact He|].
  apply (X13_ecb_encrypt_concatenation e (range 0 16 1) [1; 2; 3]);
    [exact Hk | exact Hm | exact Hp | | |].
  - apply bytes_check. reflexivity.
  - apply bytes_check. reflexivity.
  - reflexivity.
Defined.

(** X14. [decrypt] cannot take its ciphertext as a text string: on a
    keyed engine, in either mode, a text string of 16 characters or more
    makes it raise TypeError (a character is XORed with a subkey byte). *)
Theorem X14_decrypt_text_raises (e : AES.t) (s : list Z) :
  keyed e -> 16 <= len s ->
  AES.decrypt e (PyStr s) = Raise TypeError.
Proof.
  intros Hk Hs. pose proof Hk as (ks & _ & _ & Hkd & _).
  destruct (next_start_decryption e Hk) as (r & Er).
  set (b := firstn 16 s). set (t := skipn 16 s).
  assert (Es : s = b ++ t) by (symmetry; apply firstn_skipn).
  assert (Lb : List.length b = 16%nat).
  { unfold b. rewrite length_firstn. unfold len in Hs. lia. }
  destruct (listToState_any b Lb) as (st & Est).
  assert (Hslice : AES.decryptSlice e (PyStr s) b = Raise TypeError).
  { unfold AES.decryptSlice. rewrite Est. cbn [bind]. rewrite Er.
    reflexivity. }
  assert (Hloop : forall S (body : S -> list Z -> outcome S) (s0 : S),
             AES.for_blocks s body s0
             = bind (body s0 b) (AES.for_blocks t body)).
  { intros. rewrite <- (for_blocks_cons b t) by exact Lb.
    rewrite <- Es. reflexivity. }
  unfold AES.decrypt. rewrite Hkd. cbn [negb bind].
  destruct (AES.cipherMode e); rewrite Hloop.
  - unfold AES.ecb_decrypt_step at 1. rewrite Hslice. reflexivity.
  - unfold AES.cbc_decrypt_step at 1. rewrite Hslice. reflexivity.
Qed.

Lemma X14_witness :
  exists e,
    AES.setKey (AES.new AES.MODE_CBC AES.NoPadding) AES.SIZE_128
               0x2b7e151628aed2a6abf7158809cf4f3c
               (Some 0x000102030405060708090a0b0c0d0e0f) = Ok e /\
    AES.decrypt e (PyStr (repeat 65 16)) = Raise TypeError.
Proof.
  destruct (sample_engine AES.MODE_CBC AES.NoPadding) as (e & He & Hk & _).
  exists e. split; [exact He|].
  apply (X14_decrypt_text_raises e (repeat 65 16)); [exact Hk|].
  vm_compute. discriminate.
Defined.

End BlockAndModes.

(** ** AES.py: [setKey] and engines without a key *)
Section KeyHandling.

(** X15. [setKey] reads only the low 8 * keySizeTable[keySize] bits of a
    key it accepts: the length check counts bytes of the hexadecimal form
    rounded down, so a key of up to four bits more passes it, and the
    resulting engine is the one of the truncated key. *)
Theorem X15_setKey_truncates_key (self : AES.t) (ks : AES.keysize) (key : Z)
  (iv : option Z) :
  key_fits ks key ->
  AES.setKey self ks key iv
  = AES.setKey self ks (key mod 2 ^ (8 * AES.keySizeTable ks)) iv.
Proof.
  intro Hfit. pose proof (key_fits_mod ks key) as Hfit'.
  unfold key_fits in Hfit, Hfit'. unfold AES.setKey. cbv zeta.
  apply Z.leb_le in Hfit, Hfit'. rewrite Hfit, Hfit'. cbn [negb].
  rewrite (key_list_mod ks key). reflexivity.
Qed.

Lemma X15_witness :
  AES.setKey (AES.new AES.MODE_ECB AES.NoPadding) AES.SIZE_128
             (2 ^ 128 + 5) None
  = AES.setKey (AES.new AES.MODE_ECB AES.NoPadding) AES.SIZE_128
               ((2 ^ 128 + 5) mod 2 ^ (8 * AES.keySizeTable AES.SIZE_128))
               None.
Proof.
  apply (X15_setKey_truncates_key (AES.new AES.MODE_ECB AES.NoPadding)
           AES.SIZE_128 (2 ^ 128 + 5) None).
  unfold key_fits. vm_compute. discriminate.
Defined.

(** X16. [setKey] reads only the low 128 bits of the IV: no check is made
    on its size. *)
Theorem X16_setKey_truncates_iv (self : AES.t) (ks : AES.keysize)
  (key iv : Z) :
  AES.setKey self ks key (Some iv)
  = AES.setKey self ks key (Some (iv mod 2 ^ 128)).
Proof.
  unfold AES.setKey. rewrite (intToList_mod iv 128) by lia.
  destruct (AES.cipherMode self); reflexivity.
Qed.

(** X17. The order of the checks of [setKey] on an engine in CBC mode
    called without IV: a key that is too long is reported as a key size
    mismatch, a key that fits as a missing IV. *)
Theorem X17_setKey_refusals (self : AES.t) (ks : AES.keysize)
  (long_key key : Z) :
  AES.cipherMode self = AES.MODE_CBC ->
  ~ key_fits ks long_key -> key_fits ks key ->
  AES.setKey self ks long_key None
  = Raise (SystemExit "Key size mismatch") /\
  AES.setKey self ks key None
  = Raise (SystemExit "IV is mandatory for CBC mode").
Proof.
  intros Hm Hl Hk. unfold key_fits in Hl, Hk. unfold AES.setKey. cbv zeta.
  split.
  - destruct (Z.leb_spec (AES.format_02x_len long_key / 2)
                         (AES.keySizeTable ks));
      [contradiction | reflexivity].
  - apply Z.leb_le in Hk. rewrite Hk, Hm. reflexivity.
Qed.

Lemma X17_witness :
  AES.setKey (AES.new AES.MODE_CBC AES.NoPadding) AES.SIZE_128 (2 ^ 136) None
  = Raise (SystemExit "Key size mismatch") /\
  AES.setKey (AES.new AES.MODE_CBC AES.NoPadding) AES.SIZE_128 0 None
  = Raise (SystemExit "IV is mandatory for CBC mode").
Proof.
  apply (X17_setKey_refusals (AES.new AES.MODE_CBC AES.NoPadding)
           AES.SIZE_128 (2 ^ 136) 0).
  - reflexivity.
  - unfold key_fits. vm_compute. intro H. apply H. reflexivity.
  - unfold key_fits. vm_compute. discriminate.
Defined.

(** X18. A new engine has no key: [encrypt] and [decrypt] exit with
    "Key not defined" on every input, while [encryptBlock] and
    [decryptBlock], which have no such check, raise TypeError on a list of
    16 elements when they ask for the first subkey. *)
Theorem X18_engine_without_key (m : AES.mode) (p : AES.padding_scheme)
  (input : pyval) (b : list Z) :
  List.length b = 16%nat ->
  AES.encrypt (AES.new m p) input = Raise (SystemExit "Key not defined") /\
  AES.decrypt (AES.new m p) input = Raise (SystemExit "Key not defined") /\
  AES.encryptBlock (AES.new m p) b = Raise TypeError /\
  AES.decryptBlock (AES.new m p) b = Raise TypeError.
Proof.
  intro H. destruct (listToState_any b H) as (st & E).
  unfold AES.encryptBlock, AES.decryptBlock. rewrite E.
  repeat split; reflexivity.
Qed.

Lemma X18_witness :
  AES.encrypt (AES.new AES.MODE_ECB AES.NoPadding) (PyInt 1)
  = Raise (SystemExit "Key not defined") /\
  AES.decrypt (AES.new AES.MODE_ECB AES.NoPadding) (PyInt 1)
  = Raise (SystemExit "Key not defined") /\
  AES.encryptBlock (AES.new AES.MODE_ECB AES.NoPadding) (range 0 16 1)
  = Raise TypeError /\
  AES.decryptBlock (AES.new AES.MODE_ECB AES.NoPadding) (range 0 16 1)
  = Raise TypeError.
Proof.
  apply (X18_engine_without_key AES.MODE_ECB AES.NoPadding (PyInt 1)
           (range 0 16 1)).
  reflexivity.
Defined.

(** X19. [intToList] returns, for every integer, the 16 bytes of the
    integer modulo 2^128, most significant byte first; it never fails and
    higher bits are dropped without notice. *)
Theorem X19_intToList_big_endian (n : Z) :
  block (AES.intToList n) /\ be_value (AES.intToList n) = n mod 2 ^ 128.
Proof.
  split.
  - split; [reflexivity|]. unfold AES.intToList. apply Forall_forall.
    intros x Hx. apply in_map_iff in Hx. destruct Hx as (i & <- & _).
    apply land_byte.
  - exact (be_value_bytes_of_int n 16).
Qed.

(** X20. [rotWord] rotates a 32-bit word left by one byte: the word with
    bytes a, b, c, d (most significant first) becomes the word with bytes
    b, c, d, a. *)
Theorem X20_rotWord_rotates (a b c d : Z) :
  byte a -> byte b -> byte c -> byte d ->
  AES.rotWord (a * 2 ^ 24 + b * 2 ^ 16 + c * 2 ^ 8 + d)
  = b * 2 ^ 24 + c * 2 ^ 16 + d * 2 ^ 8 + a.
Proof.
  unfold byte. intros Ha Hb Hc Hd.
  change (2 ^ 24) with 16777216. change (2 ^ 16) with 65536.
  change (2 ^ 8) with 256.
  rewrite rotWord_value
    by (change (2 ^ 32) with 4294967296; lia).
  change (2 ^ 24) with 16777216. change (2 ^ 8) with 256.
  assert (Hq : (a * 16777216 + b * 65536 + c * 256 + d) / 16777216 = a).
  { symmetry. apply (Z.div_unique _ _ a (b * 65536 + c * 256 + d)); lia. }
  assert (Hr : (a * 16777216 + b * 65536 + c * 256 + d) mod 16777216
               = b * 65536 + c * 256 + d).
  { symmetry. apply (Z.mod_unique _ _ a (b * 65536 + c * 256 + d)); lia. }
  rewrite Hq, Hr. lia.
Qed.

Lemma X20_witness :
  AES.rotWord (0x09 * 2 ^ 24 + 0xcf * 2 ^ 16 + 0x4f * 2 ^ 8 + 0x3c)
  = 0xcf * 2 ^ 24 + 0x4f * 2 ^ 16 + 0x3c * 2 ^ 8 + 0x09.
Proof.
  apply (X20_rotWord_rotates 0x09 0xcf 0x4f 0x3c); unfold byte; lia.
Defined.

End KeyHandling.

(** ** AES_GCM.py *)
Section GCM.

(** X21. GCM round trip: for a key [setKey] accepts and byte strings as
    IV, plaintext and additional data, [GCM_encrypt] returns a ciphertext
    as long as the plaintext and a tag of 16 bytes, and [GCM_decrypt] of
    that ciphertext with that tag returns (True, plaintext). *)
Theorem X21_GCM_round_trip (ks : AES.keysize) (key : Z)
  (iv ptext aad : list Z) :
  key_fits ks key -> bytes iv -> bytes ptext -> bytes aad ->
  exists ctext tag,
    AES_GCM.GCM_encrypt ks key iv ptext aad = Ok (ctext, tag) /\
    bytes ctext /\ List.length ctext = List.length ptext /\ block tag /\
    AES_GCM.GCM_decrypt ks key iv ctext aad tag = Ok (true, Some ptext).
Proof.
  intros Hfit Hiv Hin Haad.
  destruct (GCM_crypt_inverse ks key iv ptext aad Hfit Hiv Hin Haad)
    as (c & t1 & t2 & g & h & E1 & E2 & Hc & Lc & Ht1 & Hg & Hh & Et).
  exists c, t1. split; [|split; [exact Hc|split; [exact Lc|split; [exact Ht1|]]]].
  - unfold AES_GCM.GCM_encrypt. rewrite E1. cbn [bind].
    destruct (AES_GCM.GHASH h aad c) as [x| |]; try discriminate Et.
    cbn [bind] in *. rewrite Et. reflexivity.
  - unfold AES_GCM.GCM_decrypt. rewrite E2. cbn [bind].
    destruct (AES_GCM.GHASH h aad c) as [x| |]; try discriminate Et.
    cbn [bind] in *. rewrite Et. cbn [bind]. rewrite bytes_eqb_refl.
    reflexivity.
Qed.

Lemma X21_witness :
  exists ctext tag,
    AES_GCM.GCM_encrypt AES.SIZE_128 0 (repeat 0 12) (repeat 0 16) []
    = Ok (ctext, tag) /\
    bytes ctext /\ List.length ctext = List.length (repeat 0 16) /\
    block tag /\
    AES_GCM.GCM_decrypt AES.SIZE_128 0 (repeat 0 12) ctext [] tag
    = Ok (true, Some (repeat 0 16)).
Proof.
  apply (X21_GCM_round_trip AES.SIZE_128 0 (repeat 0 12) (repeat 0 16) []).
  - unfold key_fits. vm_compute. discriminate.
  - apply bytes_check. reflexivity.
  - apply bytes_check. reflexivity.
  - constructor.
Defined.

(** X22. The loop of [multGF2] ends within 128 iterations for all integers
    [x], [y] and [z]: after 128 left shifts the low 128 bits of [y] are
    zero, so further iterations are never entered. *)
Theorem X22_multGF2_loop_ends (extra : nat) (x y z : Z) :
  AES_GCM.multGF2_loop (128 + extra) x y z = AES_GCM.multGF2_loop 128 x y z.
Proof. apply multGF2_loop_fuel. Qed.

End GCM.

(** ** RC4.py *)
Section RC4Properties.

(** X23. [setKey] returns for every key, empty or not, whatever its
    elements are; it leaves a permutation of 0..255 in [state] and 0 in
    [p] and [q]. *)
Theorem X23_rc4_setKey_permutation (key : list Z) :
  exists g, RC4.setKey key = Ok g /\
            Permutation (RC4.state g) (range 0 256 1) /\
            RC4.p g = 0 /\ RC4.q g = 0.
Proof. apply rc4_setKey_permuted. Qed.

(** X24. One step of [byteGenerator] on a state that is a permutation of
    0..255: it returns a byte, advances [p] by one modulo 256 and [q] by
    state[p], swaps the two entries, and the state is again a
    permutation. *)
Theorem X24_rc4_byteGenerator_step (g : RC4.globals) :
  permuted g ->
  exists k g',
    RC4.byteGenerator g = Ok (k, g') /\ byte k /\ permuted g' /\
    RC4.p g' = (RC4.p g + 1) mod 256 /\
    RC4.q g' = (RC4.q g + nth (Z.to_nat (RC4.p g')) (RC4.state g) 0) mod 256 /\
    RC4.state g' = swap_entries (RC4.state g) (RC4.p g') (RC4.q g').
Proof. apply byteGenerator_value. Qed.

Lemma X24_witness :
  exists k g',
    RC4.byteGenerator {| RC4.state := range 0 256 1; RC4.p := 0; RC4.q := 0 |}
    = Ok (k, g') /\ byte k /\ permuted g' /\
    RC4.p g' = (0 + 1) mod 256 /\
    RC4.q g' = (0 + nth (Z.to_nat (RC4.p g')) (range 0 256 1) 0) mod 256 /\
    RC4.state g' = swap_entries (range 0 256 1) (RC4.p g') (RC4.q g').
Proof.
  apply (X24_rc4_byteGenerator_step
           {| RC4.state := range 0 256 1; RC4.p := 0; RC4.q := 0 |}).
  apply Permutation_refl.
Defined.

(** X25. RC4 round trip, the way RC4_check.py uses the module: after
    [setKey] with any key, [encrypt] of a text string returns one integer
    per character, and [decrypt] of that list, started from the state
    [setKey] left (the key set again), returns the text; both end in the
    same state. *)
Theorem X25_rc4_round_trip (key s : list Z) :
  text s ->
  exists g c g',
    RC4.setKey key = Ok g /\
    RC4.encrypt g s = Ok (c, g') /\
    List.length c = List.length s /\
    RC4.decrypt g c = Ok (s, g').
Proof.
  intro Hs. destruct (rc4_setKey_permuted key) as (g & Eg & Hg & _).
  destruct (rc4_round_trip g s Hg Hs) as (c & g' & Ec & Lc & Dc & _).
  exists g, c, g'. repeat split; assumption.
Qed.

Lemma X25_witness :
  exists g c g',
    RC4.setKey [75; 101; 121] = Ok g /\
    RC4.encrypt g [80; 108; 97; 105; 110; 116; 101; 120; 116] = Ok (c, g') /\
    List.length c
    = List.length [80; 108; 97; 105; 110; 116; 101; 120; 116] /\
    RC4.decrypt g c = Ok ([80; 108; 97; 105; 110; 116; 101; 120; 116], g').
Proof.
  apply (X25_rc4_round_trip [75; 101; 121]
           [80; 108; 97; 105; 110; 116; 101; 120; 116]).
  apply text_check. reflexivity.
Defined.

(** X26. [encrypt] never restarts the key stream: encrypting a text in
    two calls gives the same bytes and the same final state as one call on
    the whole text. *)
Theorem X26_rc4_encrypt_continues (g : RC4.globals) (s1 s2 : list Z) :
  RC4.encrypt g (s1 ++ s2)
  = (' (c1, g1) <- RC4.encrypt g s1 ;;
     ' (c2, g2) <- RC4.encrypt g1 s2 ;;
     Ok (c1 ++ c2, g2)).
Proof.
  revert g.
  induction s1 as [|a s1 IH]; intro g.
  - cbn [app RC4.encrypt bind].
    destruct (RC4.encrypt g s2) as [[c2 g2]| |]; reflexivity.
  - cbn [app RC4.encrypt].
    destruct (RC4.byteGenerator g) as [[k g1]| |]; try reflexivity.
    cbn [bind]. rewrite IH.
    destruct (RC4.encrypt g1 s1) as [[c1 g2]| |]; try reflexivity.
    cbn [bind].
    destruct (RC4.encrypt g2 s2) as [[c2 g3]| |]; reflexivity.
Qed.

End RC4Properties.

(** ** AES_CFB.py: refused lengths and single bytes *)
Section CFB8And128.

(** X27. An IV of more than 32 bytes (2^256 or above) makes each of the
    four CFB functions raise ValueError, whatever the key and the input
    are: the IV is converted first. *)
Theorem X27_cfb_iv_too_long (ks : AES.keysize) (key iv : Z) (input : pyval) :
  2 ^ 256 <= iv ->
  AES_CFB.encryptCFB8 ks key iv input = Raise ValueError /\
  AES_CFB.decryptCFB8 ks key iv input = Raise ValueError /\
  AES_CFB.encryptCFB128 ks key iv input = Raise ValueError /\
  AES_CFB.decryptCFB128 ks key iv input = Raise ValueError.
Proof.
  intro H. pose proof (cfb_intToList2_too_long iv H) as E.
  unfold AES_CFB.encryptCFB8, AES_CFB.decryptCFB8, AES_CFB.encryptCFB128,
    AES_CFB.decryptCFB128, AES_CFB.intToBytes2.
  rewrite E. repeat split.
Qed.

Lemma X27_witness :
  AES_CFB.encryptCFB8 AES.SIZE_128 0 (2 ^ 256) (PyInt 1) = Raise ValueError /\
  AES_CFB.decryptCFB8 AES.SIZE_128 0 (2 ^ 256) (PyInt 1) = Raise ValueError /\
  AES_CFB.encryptCFB128 AES.SIZE_128 0 (2 ^ 256) (PyInt 1)
  = Raise ValueError /\
  AES_CFB.decryptCFB128 AES.SIZE_128 0 (2 ^ 256) (PyInt 1)
  = Raise ValueError.
Proof.
  apply (X27_cfb_iv_too_long AES.SIZE_128 0 (2 ^ 256) (PyInt 1)). lia.
Defined.

(** X28. With an IV below 2^256, an integer input of more than 32 bytes
    makes [encryptCFB128] and [decryptCFB128] raise ValueError, before
    the key is looked at. *)
Theorem X28_cfb128_input_too_long (ks : AES.keysize) (key iv n : Z) :
  0 <= iv < 2 ^ 256 -> 2 ^ 256 <= n ->
  AES_CFB.encryptCFB128 ks key iv (PyInt n) = Raise ValueError /\
  AES_CFB.decryptCFB128 ks key iv (PyInt n) = Raise ValueError.
Proof.
  intros Hiv Hn. destruct (cfb_intToBytes2_iv iv Hiv) as (ivb & Eiv & _).
  unfold AES_CFB.encryptCFB128, AES_CFB.decryptCFB128.
  rewrite Eiv. cbn [bind AES_CFB.cfb128_text].
  rewrite (cfb_intToList2_too_long n Hn). split; reflexivity.
Qed.

Lemma X28_witness :
  AES_CFB.encryptCFB128 AES.SIZE_128 0 1 (PyInt (2 ^ 256))
  = Raise ValueError /\
  AES_CFB.decryptCFB128 AES.SIZE_128 0 1 (PyInt (2 ^ 256))
  = Raise ValueError.
Proof.
  apply (X28_cfb128_input_too_long AES.SIZE_128 0 1 (2 ^ 256)).
  - split; [lia | reflexivity].
  - lia.
Defined.

(** X29. [decryptCFB128] handles one block only: on an integer ciphertext
    of 17 to 32 bytes it raises TypeError, because after the first block
    the shift register holds a list of integers, which [encrypt] cannot
    pad. *)
Theorem X29_decryptCFB128_second_block (ks : AES.keysize) (key iv c : Z) :
  key_fits ks key -> 0 <= iv < 2 ^ 256 -> 2 ^ 128 <= c < 2 ^ 256 ->
  AES_CFB.decryptCFB128 ks key iv (PyInt c) = Raise TypeError.
Proof.
  intros Hfit Hiv Hc.
  destruct (cfb_intToBytes2_iv iv Hiv) as (ivb & Eiv & Bivb & Livb).
  destruct (cfb_intToList2_long c Hc) as (ct & Ect & Bct & Lct).
  destruct (setKey_returns (AES.new AES.MODE_ECB AES.NoPadding) ks key
              (Some iv) Hfit eq_refl ltac:(discriminate))
    as (obj & Eobj & Hk & Hm & _).
  cbn [AES.new AES.cipherMode] in Hm.
  pose proof Hk as (ks' & _ & _ & Hkd & _).
  unfold AES_CFB.decryptCFB128. rewrite Eiv. cbn [bind AES_CFB.cfb128_text].
  rewrite Ect. cbn [bind]. rewrite Eobj. cbn [bind].
  assert (Hr : range 0 (len ct) 16 = 0 :: 16 :: range 32 (len ct) 16).
  { rewrite (range_cons 0) by lia. rewrite (range_cons (0 + 16)) by lia.
    reflexivity. }
  rewrite Hr. cbn [foldM].
  destruct (encrypt_ecb_bytes obj ivb Hk Hm Bivb)
    as ([o obj'] & Eenc & Eo & out & Eout & Hout & _).
  cbn [fst snd] in Eo, Eout. subst o obj'.
  set (blk := slice ct (Some 0) (Some (Z.min (len ct) (0 + 16)))).
  assert (Bblk : bytes blk) by (apply bytes_slice, Bct).
  assert (Nblk : blk <> []).
  { intro E0. apply (f_equal (@List.length Z)) in E0.
    unfold blk in E0. rewrite slice_firstn_skipn in E0 by lia.
    cbn [Z.to_nat skipn List.length] in E0.
    rewrite length_firstn in E0. unfold len in *. lia. }
  destruct (gcm_xor_returns out blk Hout Bblk) as (p1 & Ep1 & _).
  unfold AES_CFB.decryptCFB128_step at 1. rewrite Eenc.
  cbn [bind int_seq]. fold blk.
  change (AES_CFB.xor out blk) with (AES_GCM.xor out blk). rewrite Ep1.
  cbn [bind]. unfold AES_CFB.decryptCFB128_step at 1.
  rewrite (encrypt_list_raises obj blk Hkd Nblk). reflexivity.
Qed.

Lemma X29_witness :
  AES_CFB.decryptCFB128 AES.SIZE_128 0x2b7e151628aed2a6abf7158809cf4f3c
      0x000102030405060708090a0b0c0d0e0f (PyInt (2 ^ 128))
  = Raise TypeError.
Proof.
  apply (X29_decryptCFB128_second_block AES.SIZE_128
           0x2b7e151628aed2a6abf7158809cf4f3c
           0x000102030405060708090a0b0c0d0e0f (2 ^ 128)).
  - unfold key_fits. vm_compute. discriminate.
  - split; [lia | reflexivity].
  - split; [lia | reflexivity].
Defined.

(** X30. CFB8 round trip on a single byte: for a key [setKey] accepts and
    an IV below 2^256, [encryptCFB8] of an integer below 256 returns an
    integer below 256 and [decryptCFB8] of it returns the original byte.
    (The register update of [decryptCFB8] matters from the second byte
    on.) *)
Theorem X30_cfb8_single_byte_round_trip (ks : AES.keysize) (key iv P : Z) :
  key_fits ks key -> 0 <= iv < 2 ^ 256 -> 0 <= P < 256 ->
  exists C,
    0 <= C < 256 /\
    AES_CFB.encryptCFB8 ks key iv (PyInt P) = Ok (PyInt C) /\
    AES_CFB.decryptCFB8 ks key iv (PyInt C) = Ok (PyInt P).
Proof.
  intros Hfit Hiv HP.
  destruct (cfb_intToBytes2_iv iv Hiv) as (ivb & Eiv & Bivb & Livb).
  destruct (setKey_returns (AES.new AES.MODE_ECB AES.NoPadding) ks key
              (Some iv) Hfit eq_refl ltac:(discriminate))
    as (obj & Eobj & Hk & Hm & _).
  cbn [AES.new AES.cipherMode] in Hm.
  destruct (cfb8_first_byte obj ivb Hk Hm Bivb Livb)
    as (out & a & Eenc & Ea & Ha).
  assert (HC : byte (Z.lxor a P)) by (apply lxor_byte; assumption).
  assert (Hof : forall b, byte b -> bytes_of [b] = Ok [b]).
  { intros b [Hb0 Hb1]. unfold bytes_of. cbn [forallb]. unfold is_byte.
    destruct (Z.leb_spec 0 b); [|lia]. destruct (Z.ltb_spec b 256); [|lia].
    reflexivity. }
  exists (Z.lxor a P). split; [exact HC|]. split.
  - unfold AES_CFB.encryptCFB8. rewrite Eiv. cbn [bind AES_CFB.cfb8_text].
    rewrite (cfb_intToBytes_byte P HP). cbn [bind]. rewrite Eobj.
    cbn [bind]. change (range 0 (len [P]) 1) with [0]. cbn [foldM].
    unfold AES_CFB.encryptCFB8_step. rewrite Eenc. cbn [bind int_seq].
    rewrite Ea. cbn [bind]. rewrite (getitem_ok [P] 0 0) by (cbn; lia).
    cbn [bind Z.to_nat nth]. rewrite (Hof _ HC). reflexivity.
  - unfold AES_CFB.decryptCFB8. rewrite Eiv. cbn [bind AES_CFB.cfb8_text].
    rewrite (cfb_intToBytes_byte _ HC). cbn [bind]. rewrite Eobj.
    cbn [bind]. change (range 0 (len [Z.lxor a P]) 1) with [0]. cbn [foldM].
    unfold AES_CFB.decryptCFB8_step. rewrite Eenc. cbn [bind int_seq].
    rewrite Ea. cbn [bind].
    rewrite (getitem_ok [Z.lxor a P] 0 0) by (cbn; lia).
    cbn [bind Z.to_nat nth].
    rewrite <- Z.lxor_assoc, Z.lxor_nilpotent, Z.lxor_0_l.
    rewrite (Hof P HP). cbn [bind].
    rewrite bytes_n_ok by (destruct HC; lia). reflexivity.
Qed.

Lemma X30_witness :
  exists C,
    0 <= C < 256 /\
    AES_CFB.encryptCFB8 AES.SIZE_128 0x2b7e151628aed2a6abf7158809cf4f3c
        0x000102030405060708090a0b0c0d0e0f (PyInt 0x6b) = Ok (PyInt C) /\
    AES_CFB.decryptCFB8 AES.SIZE_128 0x2b7e151628aed2a6abf7158809cf4f3c
        0x000102030405060708090a0b0c0d0e0f (PyInt C) = Ok (PyInt 0x6b).
Proof.
  apply (X30_cfb8_single_byte_round_trip AES.SIZE_128
           0x2b7e151628aed2a6abf7158809cf4f3c
           0x000102030405060708090a0b0c0d0e0f 0x6b).
  - unfold key_fits. vm_compute. discriminate.
  - split; [lia | reflexivity].
  - lia.
Defined.

End CFB8And128.
